(** * Solar array power calculator: the mesh pipeline of [car_solar_flux]

    A shallow embedding of [solar_array_calculator.py].  The function
    [car_solar_flux] reads a gmsh mesh line by line, derives one normal per
    retained triangle, builds the sun vector and sums the clamped
    per-triangle contributions.

    Modelling conventions.
    - A Python [float] (and a NumPy [float64]) is a real number of [R]:
      rounding, infinities and NaN are outside the model.  The module
      [Binary64] gives the arithmetic of the normal loop and of the flux
      loop a second time, on the binary64 numbers of the code, for the
      statements in which rounding, infinities or NaN decide.
    - A Python [int] is an integer of [Z].
    - A [str] is a [string] of ASCII characters; the mesh file is the list
      of its lines.
    - A raised exception is the [Raise] branch of [result]; it aborts the
      computation at once, as in Python.
    - The placeholder [0] stored at the head of [node_vector] and
      [element_vector] is the constructor [Placeholder] of [entry].
    - [np.int] and [np.float] are the built-ins [int] and [float], whose
      aliases they were.
    - [float] (the conversion of a token), [sunmodel.solar_angles] and
      [sunmodel.irradiance] are not code of this file: they are the fields
      of the class [Collaborators]. *)

From Stdlib Require Import Reals Lra Lia ZArith List String Ascii Bool.
From Stdlib Require Floats.
Import ListNotations.

Set Implicit Arguments.

(** ** Exceptions *)

Inductive exn : Type :=
  | IndexError
  | ValueError
  | AttributeError
  | ZeroDivisionError.

Inductive result (A : Type) : Type :=
  | Ok (a : A)
  | Raise (e : exn).

Arguments Ok {A} a.
Arguments Raise {A} e.

Definition bind {A B : Type} (m : result A) (k : A -> result B) : result B :=
  match m with
  | Ok a => k a
  | Raise e => Raise e
  end.

Notation "x <- m ;; k" := (bind m (fun x => k))
  (at level 61, m at next level, right associativity).

Definition is_ok {A : Type} (m : result A) : bool :=
  match m with
  | Ok _ => true
  | Raise _ => false
  end.

(** A for loop over [xs] with loop state [s]: the body may raise. *)
Fixpoint for_each {A S : Type} (body : S -> A -> result S) (xs : list A)
  (s : S) : result S :=
  match xs with
  | [] => Ok s
  | x :: xs' => s' <- body s x ;; for_each body xs' s'
  end.

(** ** Python built-ins used by the source *)

(** [range(a, b)]. *)
Definition range (a b : Z) : list Z :=
  map (fun k => (a + Z.of_nat k)%Z) (seq 0 (Z.to_nat (b - a))).

(** [np.size] of a list. *)
Definition np_size {A : Type} (l : list A) : Z := Z.of_nat (List.length l).

(** [l[i]]: a negative index counts from the end; out of range raises. *)
Definition getitem {A : Type} (l : list A) (i : Z) : result A :=
  let j := if (i <? 0)%Z then (np_size l + i)%Z else i in
  if (j <? 0)%Z then Raise IndexError
  else match nth_error l (Z.to_nat j) with
       | Some a => Ok a
       | None => Raise IndexError
       end.

(** [line.find(marker) >= 0]. *)
Definition found (marker line : string) : bool :=
  match index 0 marker line with
  | Some _ => true
  | None => false
  end.

(** The characters [str.split()] splits at (ASCII range). *)
Definition is_space (c : ascii) : bool :=
  let n := nat_of_ascii c in
  ((9 <=? n) && (n <=? 13)) || ((28 <=? n) && (n <=? 32)).

Fixpoint split_from (tok : string) (s : string) : list string :=
  match s with
  | EmptyString =>
      match tok with
      | EmptyString => []
      | _ => [tok]
      end
  | String c s' =>
      if is_space c then
        match tok with
        | EmptyString => split_from EmptyString s'
        | _ => tok :: split_from EmptyString s'
        end
      else split_from (tok ++ String c EmptyString) s'
  end.

(** [line.split()]. *)
Definition split (line : string) : list string := split_from EmptyString line.

Definition digit_val (c : ascii) : option Z :=
  let n := nat_of_ascii c in
  if (48 <=? n) && (n <=? 57) then Some (Z.of_nat (n - 48)) else None.

(** Decimal digits, single underscores allowed between two digits.  Returns
    the value and the number of digits read. *)
Fixpoint digits_from (acc : Z) (count : nat) (after_digit : bool) (s : string)
  : option (Z * nat) :=
  match s with
  | EmptyString => if after_digit then Some (acc, count) else None
  | String c s' =>
      match digit_val c with
      | Some d => digits_from (10 * acc + d)%Z (S count) true s'
      | None =>
          if Ascii.eqb c "_"%char && after_digit
          then digits_from acc count false s'
          else None
      end
  end.

Definition unsigned_of_string (s : string) : option Z :=
  option_map fst (digits_from 0%Z 0 false s).

(** [int(tok)] on a token without blanks: optional sign, decimal digits. *)
Definition int_of_string (tok : string) : option Z :=
  match tok with
  | String "-"%char s => option_map Z.opp (unsigned_of_string s)
  | String "+"%char s => unsigned_of_string s
  | _ => unsigned_of_string tok
  end.

Definition py_int (tok : string) : result Z :=
  match int_of_string tok with
  | Some z => Ok z
  | None => Raise ValueError
  end.

(** ** A decimal reader for [float]

    [float_of_decimal] reads the plain decimal literals of a mesh file,
    [sign digits . digits] with digits on one side of the point at least;
    it is the instance of [float] used on concrete meshes.  Exponents,
    [inf] and [nan] are left out. *)

Fixpoint split_dot (int_part : string) (s : string) : string * option string :=
  match s with
  | EmptyString => (int_part, None)
  | String c s' =>
      if Ascii.eqb c "."%char then (int_part, Some s')
      else split_dot (int_part ++ String c EmptyString) s'
  end.

Definition unsigned_decimal (s : string) : option R :=
  match split_dot EmptyString s with
  | (ip, None) => option_map IZR (unsigned_of_string ip)
  | (ip, Some EmptyString) => option_map IZR (unsigned_of_string ip)
  | (EmptyString, Some fp) =>
      match digits_from 0%Z 0 false fp with
      | Some (f, k) => Some (IZR f / IZR (10 ^ Z.of_nat k))%R
      | None => None
      end
  | (ip, Some fp) =>
      match unsigned_of_string ip, digits_from 0%Z 0 false fp with
      | Some i, Some (f, k) =>
          Some (IZR (i * 10 ^ Z.of_nat k + f) / IZR (10 ^ Z.of_nat k))%R
      | _, _ => None
      end
  end.

Definition float_of_decimal (tok : string) : option R :=
  match tok with
  | String "-"%char s => option_map Ropp (unsigned_decimal s)
  | String "+"%char s => unsigned_decimal s
  | _ => unsigned_decimal tok
  end.

(** ** The classes of the source *)

(** [NodeVector]: [node_vec] is the list [[x, y, z]]. *)
Record NodeVector : Type := mkNode {
  node_num : Z;
  node_vec : R * R * R
}.

(** [ElementVector]: [ele_vec] is [[]] until a triangle fills it. *)
Record ElementVector : Type := mkElement {
  ele_num : Z;
  ele_type : Z;
  ele_vec : list Z
}.

(** An entry of [node_vector] or [element_vector]: the integer [0] that
    occupies the slot of the count line, or an object. *)
Inductive entry (A : Type) : Type :=
  | Placeholder
  | Obj (a : A).

Arguments Placeholder {A}.
Arguments Obj {A} a.

(** Attribute access on an entry: the integer [0] has no attribute. *)
Definition attr {A B : Type} (f : A -> B) (e : entry A) : result B :=
  match e with
  | Placeholder => Raise AttributeError
  | Obj a => Ok (f a)
  end.

(** The objects of a table, in order. *)
Fixpoint objects {A : Type} (l : list (entry A)) : list A :=
  match l with
  | [] => []
  | Placeholder :: l' => objects l'
  | Obj a :: l' => a :: objects l'
  end.

(** ** Vectors of three floats *)

Definition vec3 : Type := (R * R * R)%type.

Definition vx (v : vec3) : R := fst (fst v).
Definition vy (v : vec3) : R := snd (fst v).
Definition vz (v : vec3) : R := snd v.

Local Open Scope R_scope.

(** [np.subtract]. *)
Definition subtract (a b : vec3) : vec3 :=
  (vx a - vx b, vy a - vy b, vz a - vz b).

(** [np.cross]. *)
Definition cross (a b : vec3) : vec3 :=
  (vy a * vz b - vz a * vy b,
   vz a * vx b - vx a * vz b,
   vx a * vy b - vy a * vx b).

(** [np.multiply(v, k)]. *)
Definition multiply (v : vec3) (k : R) : vec3 :=
  (vx v * k, vy v * k, vz v * k).

(** [np.dot]. *)
Definition dot (a b : vec3) : R :=
  vx a * vx b + vy a * vy b + vz a * vz b.

(** [np.linalg.norm]. *)
Definition norm (v : vec3) : R :=
  sqrt (vx v * vx v + vy v * vy v + vz v * vz v).

(** [np.deg2rad]. *)
Definition deg2rad (d : R) : R := d * (PI / 180).

(** [x / d]: a zero divisor is an arithmetic error, so a result [Ok]
    certifies that no division by zero took place. *)
Definition divide (x d : R) : result R :=
  if Req_dec_T d 0 then Raise ZeroDivisionError else Ok (x / d).

Local Close Scope R_scope.

(** ** The program *)

(** What the program takes from outside this file. *)
Class Collaborators : Type := {
  (** [float(tok)]; [None] is a [ValueError]. *)
  float_of_string : string -> option R;
  (** [sm.solar_angles(lat, lon, timezone, year, month, day, hour, minute)]
      returns [[h_corr, azimuth, julian_day]]. *)
  solar_angles : R -> R -> Z -> Z -> Z -> Z -> Z -> R -> R * R * R;
  (** [sm.irradiance(h_corr, julian_day)]. *)
  irradiance : R -> R -> R
}.

Section Calculator.

Context {collab : Collaborators}.

Definition py_float (tok : string) : result R :=
  match float_of_string tok with
  | Some r => Ok r
  | None => Raise ValueError
  end.

(** *** Reading the mesh (lines 74-121) *)

(** The four variables the reading loop updates. *)
Record reader : Type := mkReader {
  node_read : Z;
  node_vector : list (entry NodeVector);
  element_read : Z;
  element_vector : list (entry ElementVector)
}.

Definition reader_init : reader := mkReader 0 [] 0 [].

Definition set_node_read (st : reader) (v : Z) : reader :=
  mkReader v (node_vector st) (element_read st) (element_vector st).

Definition set_element_read (st : reader) (v : Z) : reader :=
  mkReader (node_read st) (node_vector st) v (element_vector st).

Definition append_node (st : reader) (x : entry NodeVector) : reader :=
  mkReader (node_read st) (node_vector st ++ [x]) (element_read st)
    (element_vector st).

Definition append_element (st : reader) (x : entry ElementVector) : reader :=
  mkReader (node_read st) (node_vector st) (element_read st)
    (element_vector st ++ [x]).

(** Lines 102-105: the node object of a record line. *)
Definition read_node (line : string) : result NodeVector :=
  let sl := split line in
  t0 <- getitem sl 0 ;;
  num <- py_int t0 ;;
  t1 <- getitem sl 1 ;;
  x <- py_float t1 ;;
  t2 <- getitem sl 2 ;;
  y <- py_float t2 ;;
  t3 <- getitem sl 3 ;;
  z <- py_float t3 ;;
  Ok (mkNode num (x, y, z)).

(** Lines 115-121: the element object of a record line, and whether it is
    appended. *)
Definition read_element (line : string) : result (option ElementVector) :=
  let sl := split line in
  t0 <- getitem sl 0 ;;
  num <- py_int t0 ;;
  t1 <- getitem sl 1 ;;
  ty <- py_int t1 ;;
  if (ty =? 2)%Z then
    t5 <- getitem sl 5 ;;
    n0 <- py_int t5 ;;
    t6 <- getitem sl 6 ;;
    n1 <- py_int t6 ;;
    t7 <- getitem sl 7 ;;
    n2 <- py_int t7 ;;
    Ok (Some (mkElement num ty [n0; n1; n2]))
  else Ok None.

(** Lines 108-121: what the loop body does with the element section once
    the node part of the body is over. *)
Definition element_part (st : reader) (line : string) : result reader :=
  if (element_read st =? 1)%Z then
    Ok (append_element (set_element_read st 2) Placeholder)
  else if (element_read st =? 2)%Z then
    r <- read_element line ;;
    match r with
    | Some x => Ok (append_element st (Obj x))
    | None => Ok st
    end
  else Ok st.

(** Lines 81-121: the body of [for line in f]. *)
Definition read_line (st : reader) (line : string) : result reader :=
  if found "$Nodes" line then Ok (set_node_read st 1)
  else if found "$EndNodes" line then Ok (set_node_read st 0)
  else if found "$Elements" line then Ok (set_element_read st 1)
  else if found "$EndElements" line then Ok (set_element_read st 0)
  else if (node_read st =? 1)%Z then
    Ok (append_node (set_node_read st 2) Placeholder)
  else if (node_read st =? 2)%Z then
    x <- read_node line ;;
    element_part (append_node st (Obj x)) line
  else element_part st line.

(** Lines 74-121: the whole reading loop over the lines of the file. *)
Definition load_mesh (mesh : list string) : result reader :=
  for_each read_line mesh reader_init.

(** *** Normals and area (lines 124-153) *)

Local Open Scope R_scope.

(** Lines 148-149: the flip of a normal that points down. *)
Definition canonical (normal : vec3) : vec3 :=
  if Rlt_dec (vz normal) 0 then multiply normal (-1) else normal.

(** [node_vector[n].node_vec]. *)
Definition position (nodes : list (entry NodeVector)) (n : Z) : result vec3 :=
  e <- getitem nodes n ;;
  attr node_vec e.

(** Lines 128-149: the normal of the element stored at an entry. *)
Definition element_normal (nodes : list (entry NodeVector))
  (e : entry ElementVector) : result vec3 :=
  ev0 <- attr ele_vec e ;;
  n0 <- getitem ev0 0 ;;
  ev1 <- attr ele_vec e ;;
  n1 <- getitem ev1 1 ;;
  ev2 <- attr ele_vec e ;;
  n2 <- getitem ev2 2 ;;
  p1 <- position nodes n1 ;;
  p0 <- position nodes n0 ;;
  let v1 := subtract p1 p0 in
  p2 <- position nodes n2 ;;
  p0' <- position nodes n0 ;;
  let v2 := subtract p2 p0' in
  Ok (canonical (cross v1 v2)).

(** Line 152. *)
Definition element_area (normal : vec3) : result R :=
  divide (norm normal) (2 * 1000000).

(** Lines 127-153: the body of [for i in range(1, np.size(element_vector))];
    the loop state is [(normal_vec, area)]. *)
Definition geometry_step (nodes : list (entry NodeVector))
  (elements : list (entry ElementVector)) (s : list vec3 * R) (i : Z)
  : result (list vec3 * R) :=
  e <- getitem elements i ;;
  normal <- element_normal nodes e ;;
  ele_area <- element_area normal ;;
  Ok (fst s ++ [normal], snd s + ele_area).

(** Lines 124-153. *)
Definition geometry (nodes : list (entry NodeVector))
  (elements : list (entry ElementVector)) : result (list vec3 * R) :=
  for_each (geometry_step nodes elements) (range 1 (np_size elements)) ([], 0).

(** *** The sun vector (lines 163-171) *)

(** The array [sun_vec] is updated in place: line 170 stores the new first
    component, and line 171 reads [sun_vec[0]] after that store. *)
Definition sun_vector (h_corr azimuth julian_day z_rotate : R) : vec3 :=
  let s0 := sin (deg2rad h_corr) in
  let s1 := cos (deg2rad azimuth) in
  let s2 := sin (deg2rad julian_day) in
  let s0 := s0 * cos (deg2rad z_rotate) - s1 * sin (deg2rad z_rotate) in
  let s1 := s0 * sin (deg2rad z_rotate) + s1 * cos (deg2rad z_rotate) in
  (s0, s1, s2).

(** *** The flux sum (lines 175-184) *)

(** Line 176. *)
Definition eff : R := 239 / 1000.

(** Line 180. *)
Definition contribution (sun_vec : vec3) (irr : R) (normal : vec3) : result R :=
  divide (eff * irr * (5 / 10) * dot sun_vec normal) 1000000.

(** Lines 180-184: the body of [for j in range(0, np.size(element_vector)-1)];
    the loop state is [(flux, neg_count)]. *)
Definition flux_step (sun_vec : vec3) (irr : R) (normal_vec : list vec3)
  (s : R * Z) (j : Z) : result (R * Z) :=
  normal <- getitem normal_vec j ;;
  temp <- contribution sun_vec irr normal ;;
  if Rlt_dec temp 0 then Ok (fst s + 0, (snd s + 1)%Z)
  else Ok (fst s + temp, snd s).

(** Lines 175-184. *)
Definition flux_sum (sun_vec : vec3) (irr : R) (normal_vec : list vec3)
  (elements : list (entry ElementVector)) : result (R * Z) :=
  for_each (flux_step sun_vec irr normal_vec)
    (range 0 (np_size elements - 1)) (0, 0%Z).

(** *** [car_solar_flux] (lines 46-185)

    [mesh] is the content of [test.msh], line by line.  The result is
    [(flux, area, ele_count, neg_count)]. *)
Definition car_solar_flux (mesh : list string) (lat lon : R)
  (timezone year month day hour : Z) (minute z_rotate : R)
  : result (R * R * Z * Z) :=
  st <- load_mesh mesh ;;
  g <- geometry (node_vector st) (element_vector st) ;;
  let normal_vec := fst g in
  let area := snd g in
  let '(h_corr, azimuth, julian_day) :=
    solar_angles lat lon timezone year month day hour minute in
  let irr := irradiance h_corr julian_day in
  let sun_vec := sun_vector h_corr azimuth julian_day z_rotate in
  let ele_count := np_size (element_vector st) in
  f <- flux_sum sun_vec irr normal_vec (element_vector st) ;;
  Ok (fst f, area, ele_count, snd f).

Local Close Scope R_scope.

End Calculator.

(** ** Mesh files *)

(** The lines of a text file as [for line in f] yields them, newlines
    already translated: each line keeps its newline; a last line without
    newline is yielded as it is. *)
Fixpoint lines_from (cur : string) (text : string) : list string :=
  match text with
  | EmptyString =>
      match cur with
      | EmptyString => []
      | _ => [cur]
      end
  | String c text' =>
      if Ascii.eqb c "010"%char
      then (cur ++ String c EmptyString)%string :: lines_from EmptyString text'
      else lines_from (cur ++ String c EmptyString)%string text'
  end.

Definition file_lines (text : string) : list string :=
  lines_from EmptyString text.

(** ** Notions the statements use *)

(** Which branch of the marker tests of lines 82-93 a line takes. *)
Inductive marker : Type :=
  | NodesOpen
  | NodesClose
  | ElementsOpen
  | ElementsClose
  | NoMarker.

Definition marker_of (line : string) : marker :=
  if found "$Nodes" line then NodesOpen
  else if found "$EndNodes" line then NodesClose
  else if found "$Elements" line then ElementsOpen
  else if found "$EndElements" line then ElementsClose
  else NoMarker.

Definition marker_eqb (a b : marker) : bool :=
  match a, b with
  | NodesOpen, NodesOpen | NodesClose, NodesClose
  | ElementsOpen, ElementsOpen | ElementsClose, ElementsClose
  | NoMarker, NoMarker => true
  | _, _ => false
  end.

(** A line that is no section marker. *)
Definition plain (line : string) : bool := marker_eqb (marker_of line) NoMarker.

(** A mesh file in the layout of gmsh: lines before the node section, the
    node section (marker, count line, records, marker), lines between the
    sections, the element section, and lines after it. *)
Record gmsh : Type := mkGmsh {
  header : list string;
  nodes_open : string;
  nodes_count : string;
  node_records : list string;
  nodes_close : string;
  between : list string;
  elements_open : string;
  elements_count : string;
  element_records : list string;
  elements_close : string;
  trailer : list string
}.

Definition gmsh_lines (g : gmsh) : list string :=
  header g ++ nodes_open g :: nodes_count g :: node_records g
  ++ nodes_close g :: between g
  ++ elements_open g :: elements_count g :: element_records g
  ++ elements_close g :: trailer g.

Section Notions.

Context {collab : Collaborators}.

(** A record line of the node section that [read_node] accepts. *)
Definition node_record (line : string) : bool :=
  plain line && is_ok (read_node line).

(** A record line of the element section that [read_element] accepts. *)
Definition element_record (line : string) : bool :=
  plain line && is_ok (read_element line).

(** An accepted element record whose type is not 2. *)
Definition other_record (line : string) : bool :=
  plain line &&
  match read_element line with
  | Ok None => true
  | _ => false
  end.

Definition well_formed (g : gmsh) : bool :=
  forallb plain (header g)
  && marker_eqb (marker_of (nodes_open g)) NodesOpen
  && plain (nodes_count g)
  && forallb node_record (node_records g)
  && marker_eqb (marker_of (nodes_close g)) NodesClose
  && forallb plain (between g)
  && marker_eqb (marker_of (elements_open g)) ElementsOpen
  && plain (elements_count g)
  && forallb element_record (element_records g)
  && marker_eqb (marker_of (elements_close g)) ElementsClose
  && forallb plain (trailer g).

(** A line with the numeric fields of a node record: an integer and three
    floats come first. *)
Definition node_fields (line : string) : Prop :=
  exists t0 t1 t2 t3 rest,
    split line = t0 :: t1 :: t2 :: t3 :: rest
    /\ int_of_string t0 <> None
    /\ float_of_string t1 <> None
    /\ float_of_string t2 <> None
    /\ float_of_string t3 <> None.

(** A line with the numeric fields of an element record: two integers come
    first, and when the second is 2 the fields 5, 6 and 7 are integers. *)
Definition element_fields (line : string) : Prop :=
  exists t0 t1 rest ty,
    split line = t0 :: t1 :: rest
    /\ int_of_string t0 <> None
    /\ int_of_string t1 = Some ty
    /\ (ty = 2%Z ->
        exists t2 t3 t4 t5 t6 t7 rest',
          rest = t2 :: t3 :: t4 :: t5 :: t6 :: t7 :: rest'
          /\ int_of_string t5 <> None
          /\ int_of_string t6 <> None
          /\ int_of_string t7 <> None).

(** The node objects of the node records, in file order. *)
Definition nodes_of (records : list string) : list NodeVector :=
  flat_map (fun line => match read_node line with
                        | Ok x => [x]
                        | Raise _ => []
                        end) records.

(** The triangles (type 2) of the element records, in file order. *)
Definition triangles_of (records : list string) : list ElementVector :=
  flat_map (fun line => match read_element line with
                        | Ok (Some x) => [x]
                        | _ => []
                        end) records.

(** Every corner of every triangle of the file is the position of a node:
    1 for the first node record, and so on. *)
Definition corners_in_table (g : gmsh) : Prop :=
  forall x, In x (triangles_of (element_records g)) ->
  forall n, In n (ele_vec x) ->
  (1 <= n <= Z.of_nat (List.length (nodes_of (node_records g))))%Z.

(** The retained element table of a mesh: the objects [load_mesh] leaves in
    [element_vector]. *)
Definition retained_triangles (mesh : list string) : list ElementVector :=
  match load_mesh mesh with
  | Ok st => objects (element_vector st)
  | Raise _ => []
  end.

Local Open Scope R_scope.

(** The sun vector and the irradiance [car_solar_flux] works with. *)
Definition sun_of (lat lon : R) (timezone year month day hour : Z)
  (minute z_rotate : R) : vec3 :=
  let '(h_corr, azimuth, julian_day) :=
    solar_angles lat lon timezone year month day hour minute in
  sun_vector h_corr azimuth julian_day z_rotate.

Definition irr_of (lat lon : R) (timezone year month day hour : Z)
  (minute : R) : R :=
  let '(h_corr, _, julian_day) :=
    solar_angles lat lon timezone year month day hour minute in
  irradiance h_corr julian_day.

End Notions.

Local Open Scope R_scope.

(** The sum of a list of floats. *)
Definition Rsum (l : list R) : R := fold_right Rplus 0 l.

(** The value of line 180 for one normal. *)
Definition raw_contribution (sun_vec : vec3) (irr : R) (normal : vec3) : R :=
  eff * irr * (5 / 10) * dot sun_vec normal / 1000000.

Definition negative (t : R) : bool := if Rlt_dec t 0 then true else false.

(** A contribution after the clamp of lines 181-182. *)
Definition clamp (t : R) : R := if Rlt_dec t 0 then 0 else t.

Definition clamped_contribution (sun_vec : vec3) (irr : R) (normal : vec3) : R :=
  clamp (raw_contribution sun_vec irr normal).

(** The normals whose contribution is negative. *)
Definition shaded (sun_vec : vec3) (irr : R) (normal_vec : list vec3)
  : list vec3 :=
  filter (fun n => negative (raw_contribution sun_vec irr n)) normal_vec.

(** The normals whose contribution is not negative. *)
Definition lit (sun_vec : vec3) (irr : R) (normal_vec : list vec3)
  : list vec3 :=
  filter (fun n => negb (negative (raw_contribution sun_vec irr n))) normal_vec.

(** The area of one normal, line 152. *)
Definition area_of (normal : vec3) : R := norm normal / (2 * 1000000).

(** The rotation of the spec: the second component of the raw sun vector
    turned by the heading, from the raw first component. *)
Definition rotated_y (h_corr azimuth z_rotate : R) : R :=
  sin (deg2rad h_corr) * sin (deg2rad z_rotate)
  + cos (deg2rad azimuth) * cos (deg2rad z_rotate).

(** The rotation of the spec, as a map on vectors: a turn by [theta] degrees
    about the vertical axis. *)
Definition rotate_z (theta : R) (v : vec3) : vec3 :=
  (vx v * cos (deg2rad theta) - vy v * sin (deg2rad theta),
   vx v * sin (deg2rad theta) + vy v * cos (deg2rad theta),
   vz v).

(** The distance of two points. *)
Definition distance (p q : vec3) : R := norm (subtract p q).

(** The area of the triangle with corners [p0], [p1], [p2], from its side
    lengths (Heron's formula). *)
Definition triangle_area (p0 p1 p2 : vec3) : R :=
  let a := distance p1 p2 in
  let b := distance p0 p2 in
  let c := distance p0 p1 in
  let s := (a + b + c) / 2 in
  sqrt (s * (s - a) * (s - b) * (s - c)).

(** Three points on one line (or coinciding): the two edges from [p0] are
    linearly dependent. *)
Definition collinear (p0 p1 p2 : vec3) : Prop :=
  exists a b : R, (a <> 0 \/ b <> 0) /\
    a * (vx p1 - vx p0) + b * (vx p2 - vx p0) = 0 /\
    a * (vy p1 - vy p0) + b * (vy p2 - vy p0) = 0 /\
    a * (vz p1 - vz p0) + b * (vz p2 - vz p0) = 0.

Local Close Scope R_scope.

(** ** Concrete inputs *)

(** Collaborators that read decimal literals and return fixed angles and a
    fixed irradiance. *)
Definition fixed_sky (h_corr azimuth julian_day irr : R) : Collaborators :=
  {| float_of_string := float_of_decimal;
     solar_angles := fun _ _ _ _ _ _ _ _ => (h_corr, azimuth, julian_day);
     irradiance := fun _ _ => irr |}.

(** The sun at 30 degrees of elevation, due east, 1000 W/m2, with a day
    angle of 90 degrees (third sun component 1) or of 270 degrees (third sun
    component -1). *)
Definition sky_up : Collaborators := fixed_sky 30 90 90 1000.
Definition sky_down : Collaborators := fixed_sky 30 90 270 1000.

(** A square plate of one metre in the plane z = 0, cut in two triangles of
    opposite winding, with a point element and a line element. *)
Definition plate_text : string :=
"$MeshFormat
2.2 0 8
$EndMeshFormat
$Nodes
4
1 0 0 0
2 1000 0 0
3 0 1000 0
4 1000 1000 0
$EndNodes
$Elements
4
1 15 2 0 1 1
2 1 2 0 1 1 2
3 2 2 0 1 1 2 3
4 2 2 0 1 2 3 4
$EndElements
".

Definition plate : list string := file_lines plate_text.

(** The plate without its last line [$EndElements]. *)
Definition plate_open : list string := removelast plate.

(** The reader state at the end of [plate]. *)
Definition plate_state : reader :=
  {| node_read := 0;
     node_vector :=
       [Placeholder;
        Obj (mkNode 1 (0, 0, 0)%R);
        Obj (mkNode 2 (1000, 0, 0)%R);
        Obj (mkNode 3 (0, 1000, 0)%R);
        Obj (mkNode 4 (1000, 1000, 0)%R)];
     element_read := 0;
     element_vector :=
       [Placeholder;
        Obj (mkElement 3 2 [1; 2; 3]%Z);
        Obj (mkElement 4 2 [2; 3; 4]%Z)] |}.

(** A mesh whose element section holds a point and a line, no triangle. *)
Definition wire : gmsh :=
  {| header := ["$MeshFormat"; "2.2 0 8"; "$EndMeshFormat"]%string;
     nodes_open := "$Nodes";
     nodes_count := "2";
     node_records := ["1 0 0 0"; "2 1000 0 0"]%string;
     nodes_close := "$EndNodes";
     between := [];
     elements_open := "$Elements";
     elements_count := "2";
     element_records := ["1 15 2 0 1 1"; "2 1 2 0 1 1 2"]%string;
     elements_close := "$EndElements";
     trailer := [] |}.

(** A mesh whose nodes are numbered 10, 20, 30 and whose triangle names the
    nodes 1, 2, 3, none of which is a node identifier of the file. *)
Definition renumbered_text : string :=
"$Nodes
3
10 0 0 0
20 1000 0 0
30 0 1000 0
$EndNodes
$Elements
1
1 2 2 0 1 1 2 3
$EndElements
".

Definition renumbered : list string := file_lines renumbered_text.

(** The reader state at the end of [renumbered]. *)
Definition renumbered_state : reader :=
  {| node_read := 0;
     node_vector :=
       [Placeholder;
        Obj (mkNode 10 (0, 0, 0)%R);
        Obj (mkNode 20 (1000, 0, 0)%R);
        Obj (mkNode 30 (0, 1000, 0)%R)];
     element_read := 0;
     element_vector := [Placeholder; Obj (mkElement 1 2 [1; 2; 3]%Z)] |}.

(** A mesh of three nodes whose triangle names a ninth node. *)
Definition dangling : list string :=
  ["$Nodes"; "3"; "1 0 0 0"; "2 1000 0 0"; "3 0 1000 0"; "$EndNodes";
   "$Elements"; "1"; "1 2 2 0 1 1 2 9"; "$EndElements"]%string.

(** Three nodes on the x axis, and the triangle that joins them. *)
Definition sliver_nodes : list (entry NodeVector) :=
  [Placeholder;
   Obj (mkNode 1 (0, 0, 0)%R);
   Obj (mkNode 2 (1000, 0, 0)%R);
   Obj (mkNode 3 (2000, 0, 0)%R)].

Definition sliver : ElementVector := mkElement 1 2 [1; 2; 3]%Z.

(** A reader state inside the element section, after the count line. *)
Definition in_elements : reader := mkReader 0 [] 2 [Placeholder].

(** ** The loop bodies without their index

    The body of the normal loop after [element_vector[i]] is read, and the
    body of the flux loop after [normal_vec[j]] is read. *)

Definition geometry_body (nodes : list (entry NodeVector))
  (s : list vec3 * R) (e : entry ElementVector) : result (list vec3 * R) :=
  normal <- element_normal nodes e ;;
  ele_area <- element_area normal ;;
  Ok (fst s ++ [normal], (snd s + ele_area)%R).

Definition flux_body (sun_vec : vec3) (irr : R) (s : R * Z) (normal : vec3)
  : result (R * Z) :=
  temp <- contribution sun_vec irr normal ;;
  if Rlt_dec temp 0 then Ok ((fst s + 0)%R, (snd s + 1)%Z)
  else Ok ((fst s + temp)%R, snd s).

(** The normals of a list of entries, in order; fails where
    [element_normal] fails. *)
Fixpoint normals_of (nodes : list (entry NodeVector))
  (es : list (entry ElementVector)) : result (list vec3) :=
  match es with
  | [] => Ok []
  | e :: es' =>
      normal <- element_normal nodes e ;;
      rest <- normals_of nodes es' ;;
      Ok (normal :: rest)
  end.

(** ** Invariants of the reading loop *)

(** The first entry of a table, when there is one, is the placeholder. *)
Definition placeholder_first {A : Type} (l : list (entry A)) : Prop :=
  match l with
  | Obj _ :: _ => False
  | _ => True
  end.

(** A retained element is a triangle with its three corners. *)
Definition triangle_shaped (x : ElementVector) : Prop :=
  ele_type x = 2%Z /\ List.length (ele_vec x) = 3%nat.

(** What every state of the reading loop satisfies. *)
Definition reader_inv (st : reader) : Prop :=
  (element_read st = 2%Z -> element_vector st <> [])
  /\ placeholder_first (element_vector st)
  /\ Forall triangle_shaped (objects (element_vector st)).

(** ** Notions for further properties *)

(** A value of [node_read] or [element_read]. *)
Definition flag (v : Z) : Prop := v = 0%Z \/ v = 1%Z \/ v = 2%Z.

(** The file [g] with other count lines. *)
Definition with_counts (g : gmsh) (ncount ecount : string) : gmsh :=
  {| header := header g;
     nodes_open := nodes_open g;
     nodes_count := ncount;
     node_records := node_records g;
     nodes_close := nodes_close g;
     between := between g;
     elements_open := elements_open g;
     elements_count := ecount;
     element_records := element_records g;
     elements_close := elements_close g;
     trailer := trailer g |}.

(** No line of the file opens an element section. *)
Definition no_elements_open (mesh : list string) : bool :=
  forallb (fun line => negb (marker_eqb (marker_of line) ElementsOpen)) mesh.

(** What the normal loop reads of a node entry and of an element entry. *)
Definition coords_of (e : entry NodeVector) : option vec3 :=
  match e with
  | Placeholder => None
  | Obj x => Some (node_vec x)
  end.

Definition corners_of (e : entry ElementVector) : option (list Z) :=
  match e with
  | Placeholder => None
  | Obj x => Some (ele_vec x)
  end.

(** The index Python reads for a negative index of a list of size [size]. *)
Definition wrap (size i : Z) : Z := if (i <? 0)%Z then (size + i)%Z else i.

(** A point moved by [t], and a point scaled by [k]. *)
Definition translate (t p : vec3) : vec3 :=
  (vx p + vx t, vy p + vy t, vz p + vz t)%R.

Definition scale (k : R) (p : vec3) : vec3 :=
  (k * vx p, k * vy p, k * vz p)%R.

(** ** Further concrete inputs *)

(** The plate, section by section, without newlines. *)
Definition plate_gmsh : gmsh :=
  {| header := ["$MeshFormat"; "2.2 0 8"; "$EndMeshFormat"]%string;
     nodes_open := "$Nodes";
     nodes_count := "4";
     node_records :=
       ["1 0 0 0"; "2 1000 0 0"; "3 0 1000 0"; "4 1000 1000 0"]%string;
     nodes_close := "$EndNodes";
     between := [];
     elements_open := "$Elements";
     elements_count := "4";
     element_records :=
       ["1 15 2 0 1 1"; "2 1 2 0 1 1 2"; "3 2 2 0 1 1 2 3";
        "4 2 2 0 1 2 3 4"]%string;
     elements_close := "$EndElements";
     trailer := [] |}.

(** The sky of [sky_up] with no irradiance. *)
Definition sky_dark : Collaborators := fixed_sky 30 90 90 0.

(** A file with a node section only, and the reader state at its end. *)
Definition nodes_only : list string :=
  ["$Nodes"; "1"; "1 0 0 0"; "$EndNodes"]%string.

Definition nodes_only_state : reader :=
  mkReader 0 [Placeholder; Obj (mkNode 1 (0, 0, 0)%R)] 0 [].

(** The first three nodes of the plate moved by (10, 20, 30), and scaled
    by 1/1000. *)
Definition moved_nodes : list (entry NodeVector) :=
  [Placeholder;
   Obj (mkNode 1 (translate (10, 20, 30)%R (0, 0, 0)%R));
   Obj (mkNode 2 (translate (10, 20, 30)%R (1000, 0, 0)%R));
   Obj (mkNode 3 (translate (10, 20, 30)%R (0, 1000, 0)%R))].

Definition scaled_nodes : list (entry NodeVector) :=
  [Placeholder;
   Obj (mkNode 1 (scale (1 / 1000)%R (0, 0, 0)%R));
   Obj (mkNode 2 (scale (1 / 1000)%R (1000, 0, 0)%R));
   Obj (mkNode 3 (scale (1 / 1000)%R (0, 1000, 0)%R))].

(** ** The arithmetic of the loops on binary64 numbers

    Lines 145-152 and 175-184 once more, on the floats of the code: every
    operation rounds as IEEE 754 binary64 does, and a comparison with a NaN
    is false.  [np.cross] computes each component as a difference of two
    rounded products; [np.dot] is taken as the sum, from left to right, of
    the rounded products. *)

Module Binary64.

Import PrimFloat.

Local Open Scope float_scope.

Definition vec : Type := (float * float * float)%type.

Definition fx (v : vec) : float := fst (fst v).
Definition fy (v : vec) : float := snd (fst v).
Definition fz (v : vec) : float := snd v.

(** [np.subtract]. *)
Definition subtract (a b : vec) : vec :=
  (fx a - fx b, fy a - fy b, fz a - fz b).

(** [np.cross]. *)
Definition cross (a b : vec) : vec :=
  (fy a * fz b - fz a * fy b,
   fz a * fx b - fx a * fz b,
   fx a * fy b - fy a * fx b).

(** [np.multiply(v, k)]. *)
Definition multiply (v : vec) (k : float) : vec :=
  (fx v * k, fy v * k, fz v * k).

(** Lines 148-149. *)
Definition canonical (normal : vec) : vec :=
  if fz normal <? 0 then multiply normal (-1) else normal.

(** Lines 145-149, for the corners [p0], [p1], [p2]. *)
Definition normal_of (p0 p1 p2 : vec) : vec :=
  canonical (cross (subtract p1 p0) (subtract p2 p0)).

(** [np.dot]. *)
Definition dot (a b : vec) : float :=
  fx a * fx b + fy a * fy b + fz a * fz b.

(** [np.linalg.norm]. *)
Definition norm (v : vec) : float := sqrt (dot v v).

(** Line 152. *)
Definition element_area (normal : vec) : float := norm normal / 2000000.

(** Line 176: the float that the literal [0.239] denotes. *)
Definition eff : float := 0x1.e978d4fdf3b64p-3.

(** Line 180. *)
Definition contribution (sun_vec : vec) (irr : float) (normal : vec) : float :=
  eff * irr * 0.5 * dot sun_vec normal / 1000000.

(** Lines 180-184: the body of the flux loop; the integers 0 of lines 175
    and 182 enter the sums as the float 0. *)
Definition flux_step (sun_vec : vec) (irr : float) (normal_vec : list vec)
  (s : float * Z) (j : Z) : result (float * Z) :=
  normal <- getitem normal_vec j ;;
  let temp := contribution sun_vec irr normal in
  if temp <? 0 then Ok (fst s + 0, (snd s + 1)%Z)
  else Ok (fst s + temp, snd s).

(** Lines 175-184, for [size = np.size(element_vector)]. *)
Definition flux_sum (sun_vec : vec) (irr : float) (normal_vec : list vec)
  (size : Z) : result (float * Z) :=
  for_each (flux_step sun_vec irr normal_vec) (range 0 (size - 1)) (0, 0%Z).

(** The body of the flux loop after [normal_vec[j]] is read. *)
Definition flux_body (sun_vec : vec) (irr : float) (s : float * Z)
  (normal : vec) : result (float * Z) :=
  let temp := contribution sun_vec irr normal in
  if temp <? 0 then Ok (fst s + 0, (snd s + 1)%Z)
  else Ok (fst s + temp, snd s).

(** The exact value of a finite float as an integer multiple of [2^E],
    when it is one. *)
Definition scaled (E : Z) (x : float) : option Z :=
  match FloatOps.Prim2SF x with
  | SpecFloat.S754_zero _ => Some 0%Z
  | SpecFloat.S754_finite s m e =>
      if (E <=? e)%Z
      then Some ((if s then Z.neg m else Z.pos m) * 2 ^ (e - E))%Z
      else None
  | _ => None
  end.

Definition scaled_vec (E : Z) (v : vec) : option (Z * Z * Z) :=
  match scaled E (fx v), scaled E (fy v), scaled E (fz v) with
  | Some a, Some b, Some c => Some (a, b, c)
  | _, _, _ => None
  end.

(** Three float positions that lie exactly on one line: their exact
    values, multiples of [2^E], have linearly dependent edges from the
    first. *)
Definition collinear (E : Z) (p0 p1 p2 : vec) : Prop :=
  match scaled_vec E p0, scaled_vec E p1, scaled_vec E p2 with
  | Some (x0, y0, z0), Some (x1, y1, z1), Some (x2, y2, z2) =>
      exists a b : Z, (a <> 0 \/ b <> 0)%Z
        /\ (a * (x1 - x0) + b * (x2 - x0) = 0)%Z
        /\ (a * (y1 - y0) + b * (y2 - y0) = 0)%Z
        /\ (a * (z1 - z0) + b * (z2 - z0) = 0)%Z
  | _, _, _ => False
  end.

(** One turn of the flux loop as a function of the running [flux]. *)
Definition add_contribution (sun_vec : vec) (irr : float) (flux : float)
  (normal : vec) : float :=
  let temp := contribution sun_vec irr normal in
  if temp <? 0 then flux + 0 else flux + temp.

(** Classes of binary64 values, read on their sign, mantissa and exponent:
    the zeros and what lies above them, what lies below the zeros, and the
    zeros with NaN. *)
Definition at_least_zero (x : SpecFloat.spec_float) : Prop :=
  match x with
  | SpecFloat.S754_zero _ => True
  | SpecFloat.S754_infinity s | SpecFloat.S754_finite s _ _ => s = false
  | SpecFloat.S754_nan => False
  end.

Definition below_zero (x : SpecFloat.spec_float) : Prop :=
  match x with
  | SpecFloat.S754_infinity s | SpecFloat.S754_finite s _ _ => s = true
  | _ => False
  end.

Definition zero_or_nan (x : SpecFloat.spec_float) : Prop :=
  match x with
  | SpecFloat.S754_zero _ | SpecFloat.S754_nan => True
  | _ => False
  end.

(** *** Concrete corners *)

(** The float of [1e200] and of [2e200]. *)
Definition big : float := 0x1.4e718d7d7625ap+664.
Definition big2 : float := 0x1.4e718d7d7625ap+665.

(** A triangle whose cross product overflows: (0, 0, 0), (1e200, 1e200, 0),
    (1e200, 2e200, 0). *)
Definition far0 : vec := (0, 0, 0).
Definition far1 : vec := (big, big, 0).
Definition far2 : vec := (big, big2, 0).

(** Three positions on one line: (0, 1 + 2^-52, 0), (3, 0, 0) and
    (-9, 4 + 2^-50, 0), the floats of [1.0000000000000002] and
    [4.000000000000001]. *)
Definition line0 : vec := (0, 0x1.0000000000001p+0, 0).
Definition line1 : vec := (3, 0, 0).
Definition line2 : vec := (-9, 0x1.0000000000001p+2, 0).

(** The second triangle of the plate. *)
Definition plate1 : vec := (1000, 0, 0).
Definition plate2 : vec := (0, 1000, 0).
Definition plate3 : vec := (1000, 1000, 0).

(** The sun vectors (1/2, 0, 1) and (1/2, 0, -1). *)
Definition sun_up : vec := (0.5, 0, 1).
Definition sun_down : vec := (0.5, 0, -1).

End Binary64.

(** * Properties *)

(** ** Loops, indexing and division *)

Lemma bind_ok_inv {A B : Type} (m : result A) (k : A -> result B) (b : B) :
  bind m k = Ok b -> exists a, m = Ok a /\ k a = Ok b.
Proof.
  destruct m as [a|e]; simpl; intros H.
  - exists a. split; [reflexivity | exact H].
  - discriminate H.
Qed.

(** [ok_bind H a Ha]: from [H : (x <- m ;; k) = Ok b] to [Ha : m = Ok a] and
    [H : k a = Ok b]. *)
Tactic Notation "ok_bind" hyp(H) ident(a) ident(Ha) :=
  apply bind_ok_inv in H; destruct H as [a [Ha H]].

Lemma for_each_app {A S : Type} (body : S -> A -> result S) (xs ys : list A)
  (s : S) :
  for_each body (xs ++ ys) s = (s' <- for_each body xs s ;; for_each body ys s').
Proof.
  revert s. induction xs as [|x xs IH]; intros s; simpl.
  - reflexivity.
  - destruct (body s x) as [s1|e]; simpl; [apply IH | reflexivity].
Qed.

Lemma np_size_app {A : Type} (l1 l2 : list A) :
  np_size (l1 ++ l2) = (np_size l1 + np_size l2)%Z.
Proof.
  unfold np_size. rewrite length_app. lia.
Qed.

Lemma getitem_nat {A : Type} (l : list A) (k : nat) :
  getitem l (Z.of_nat k) =
  match nth_error l k with
  | Some a => Ok a
  | None => Raise IndexError
  end.
Proof.
  unfold getitem.
  destruct (Z.ltb_spec (Z.of_nat k) 0) as [H|H]; [lia|].
  destruct (Z.ltb_spec (Z.of_nat k) 0) as [H'|H']; [lia|].
  rewrite Nat2Z.id. reflexivity.
Qed.

(** An index at or past the end of the list raises [IndexError]. *)
Lemma getitem_past_end {A : Type} (l : list A) (i : Z) :
  (np_size l <= i)%Z -> getitem l i = Raise IndexError.
Proof.
  intros H. unfold getitem, np_size in *.
  destruct (Z.ltb_spec i 0) as [Hi|Hi]; [lia|].
  destruct (Z.ltb_spec i 0) as [Hi'|Hi']; [lia|].
  destruct (nth_error l (Z.to_nat i)) eqn:E; [|reflexivity].
  assert (Hlt : (Z.to_nat i < List.length l)%nat).
  { apply nth_error_Some. rewrite E. discriminate. }
  lia.
Qed.

Lemma getitem_middle {A : Type} (pre : list A) (a : A) (post : list A) :
  getitem (pre ++ a :: post) (np_size pre) = Ok a.
Proof.
  unfold np_size. rewrite getitem_nat.
  rewrite nth_error_app2 by lia.
  rewrite Nat.sub_diag. reflexivity.
Qed.

Lemma range_empty (a b : Z) : (b <= a)%Z -> range a b = [].
Proof.
  intros H. unfold range.
  replace (Z.to_nat (b - a)) with 0%nat by lia. reflexivity.
Qed.

Lemma range_cons (a b : Z) : (a < b)%Z -> range a b = a :: range (a + 1) b.
Proof.
  intros H. unfold range.
  replace (Z.to_nat (b - a)) with (S (Z.to_nat (b - (a + 1)))) by lia.
  rewrite <- cons_seq, <- seq_shift, map_cons, map_map.
  f_equal; [simpl; lia|].
  apply map_ext. intros k. lia.
Qed.

(** A loop over the indexes of the part [l] of a list [pre ++ l] whose body
    starts by reading the indexed element is a loop over [l] itself. *)
Lemma for_each_indexes {A S : Type} (f : S -> A -> result S) (l : list A) :
  forall (pre : list A) (s : S),
  for_each (fun s i => x <- getitem (pre ++ l) i ;; f s x)
    (range (np_size pre) (np_size (pre ++ l))) s
  = for_each f l s.
Proof.
  induction l as [|a l IH]; intros pre s.
  - rewrite app_nil_r, range_empty by lia. reflexivity.
  - rewrite range_cons by (rewrite np_size_app; unfold np_size; simpl; lia).
    simpl. rewrite getitem_middle. simpl.
    destruct (f s a) as [s1|e]; simpl; [|reflexivity].
    specialize (IH (pre ++ [a]) s1).
    rewrite <- app_assoc in IH. simpl in IH.
    rewrite np_size_app in IH. exact IH.
Qed.

Lemma divide_ok (x d : R) : d <> 0%R -> divide x d = Ok (x / d)%R.
Proof.
  intros H. unfold divide. destruct (Req_dec_T d 0) as [E|_].
  - contradiction.
  - reflexivity.
Qed.

(** ** The reading loop *)

Section Reading.

Context {collab : Collaborators}.

Lemma read_line_nodes_open (st : reader) (line : string) :
  marker_of line = NodesOpen -> read_line st line = Ok (set_node_read st 1).
Proof.
  unfold marker_of, read_line.
  destruct (found "$Nodes" line); [reflexivity|].
  destruct (found "$EndNodes" line); [discriminate|].
  destruct (found "$Elements" line); [discriminate|].
  destruct (found "$EndElements" line); discriminate.
Qed.

Lemma read_line_nodes_close (st : reader) (line : string) :
  marker_of line = NodesClose -> read_line st line = Ok (set_node_read st 0).
Proof.
  unfold marker_of, read_line.
  destruct (found "$Nodes" line); [discriminate|].
  destruct (found "$EndNodes" line); [reflexivity|].
  destruct (found "$Elements" line); [discriminate|].
  destruct (found "$EndElements" line); discriminate.
Qed.

Lemma read_line_elements_open (st : reader) (line : string) :
  marker_of line = ElementsOpen ->
  read_line st line = Ok (set_element_read st 1).
Proof.
  unfold marker_of, read_line.
  destruct (found "$Nodes" line); [discriminate|].
  destruct (found "$EndNodes" line); [discriminate|].
  destruct (found "$Elements" line); [reflexivity|].
  destruct (found "$EndElements" line); discriminate.
Qed.

Lemma read_line_elements_close (st : reader) (line : string) :
  marker_of line = ElementsClose ->
  read_line st line = Ok (set_element_read st 0).
Proof.
  unfold marker_of, read_line.
  destruct (found "$Nodes" line); [discriminate|].
  destruct (found "$EndNodes" line); [discriminate|].
  destruct (found "$Elements" line); [discriminate|].
  destruct (found "$EndElements" line); [reflexivity | discriminate].
Qed.

Lemma read_line_plain (st : reader) (line : string) :
  plain line = true ->
  read_line st line =
  if (node_read st =? 1)%Z then
    Ok (append_node (set_node_read st 2) Placeholder)
  else if (node_read st =? 2)%Z then
    x <- read_node line ;;
    element_part (append_node st (Obj x)) line
  else element_part st line.
Proof.
  unfold plain, marker_of, read_line.
  destruct (found "$Nodes" line); [discriminate|].
  destruct (found "$EndNodes" line); [discriminate|].
  destruct (found "$Elements" line); [discriminate|].
  destruct (found "$EndElements" line); [discriminate | reflexivity].
Qed.

Lemma marker_eqb_eq (a b : marker) : marker_eqb a b = true -> a = b.
Proof.
  destruct a, b; simpl; intros H; try reflexivity; discriminate H.
Qed.

(** What [read_element] returns is a triangle with three corners. *)
Lemma read_element_shape (line : string) (x : ElementVector) :
  read_element line = Ok (Some x) -> triangle_shaped x.
Proof.
  unfold read_element. intros H.
  ok_bind H t0 H0. ok_bind H num I0. ok_bind H t1 H1. ok_bind H ty I1.
  destruct (Z.eqb_spec ty 2) as [Hty|Hty]; [|discriminate H].
  ok_bind H t5 H5. ok_bind H n0 I5. ok_bind H t6 H6. ok_bind H n1 I6.
  ok_bind H t7 H7. ok_bind H n2 I7.
  injection H as <-. split; [exact Hty | reflexivity].
Qed.

Lemma objects_app {A : Type} (l1 l2 : list (entry A)) :
  objects (l1 ++ l2) = objects l1 ++ objects l2.
Proof.
  induction l1 as [|[|a] l1 IH]; simpl; [reflexivity | exact IH |].
  rewrite IH. reflexivity.
Qed.

Lemma placeholder_first_app {A : Type} (l : list (entry A)) (x : entry A) :
  placeholder_first l -> l <> [] -> placeholder_first (l ++ [x]).
Proof.
  destruct l as [|[|a] l]; simpl; intros H Hne; [contradiction | exact I | exact H].
Qed.

Lemma element_part_inv (st st' : reader) (line : string) :
  reader_inv st -> element_part st line = Ok st' -> reader_inv st'.
Proof.
  intros [Hne [Hhd Hsh]]. unfold element_part.
  destruct (Z.eqb_spec (element_read st) 1) as [H1|H1].
  - intros H. injection H as <-.
    unfold reader_inv, append_element, set_element_read. simpl. repeat split.
    + intros _. destruct (element_vector st); discriminate.
    + destruct (element_vector st) as [|[|a] l]; simpl; auto.
    + rewrite objects_app, app_nil_r. exact Hsh.
  - destruct (Z.eqb_spec (element_read st) 2) as [H2|H2].
    + intros H. apply bind_ok_inv in H. destruct H as [r [Hr H]].
      destruct r as [x|]; injection H as <-.
      * unfold reader_inv, append_element. simpl. repeat split.
        -- intros _. destruct (element_vector st); discriminate.
        -- apply placeholder_first_app; auto.
        -- rewrite objects_app. apply Forall_app. split; [exact Hsh|].
           constructor; [|constructor]. exact (read_element_shape _ Hr).
      * repeat split; assumption.
    + intros H. injection H as <-. repeat split; assumption.
Qed.

Lemma read_line_inv (st st' : reader) (line : string) :
  reader_inv st -> read_line st line = Ok st' -> reader_inv st'.
Proof.
  intros Hinv. pose proof Hinv as [Hne [Hhd Hsh]].
  destruct (marker_of line) eqn:M.
  - rewrite (read_line_nodes_open st line M). intros H. injection H as <-.
    exact Hinv.
  - rewrite (read_line_nodes_close st line M). intros H. injection H as <-.
    exact Hinv.
  - rewrite (read_line_elements_open st line M). intros H. injection H as <-.
    unfold reader_inv, set_element_read. simpl.
    repeat split; auto. intros; discriminate.
  - rewrite (read_line_elements_close st line M). intros H. injection H as <-.
    unfold reader_inv, set_element_read. simpl.
    repeat split; auto. intros; discriminate.
  - rewrite read_line_plain by (unfold plain; rewrite M; reflexivity).
    destruct (node_read st =? 1)%Z.
    + intros H. injection H as <-. exact Hinv.
    + destruct (node_read st =? 2)%Z.
      * intros H. apply bind_ok_inv in H. destruct H as [x [_ H]].
        revert H. apply element_part_inv. exact Hinv.
      * apply element_part_inv. exact Hinv.
Qed.

Lemma for_each_read_line_inv (mesh : list string) :
  forall st st', reader_inv st -> for_each read_line mesh st = Ok st' ->
  reader_inv st'.
Proof.
  induction mesh as [|line mesh IH]; intros st st' Hinv H; simpl in H.
  - injection H as <-. exact Hinv.
  - apply bind_ok_inv in H. destruct H as [s1 [H1 H2]].
    exact (IH _ _ (read_line_inv _ Hinv H1) H2).
Qed.

(** The reading loop keeps its invariant. *)
Lemma load_mesh_inv (mesh : list string) (st : reader) :
  load_mesh mesh = Ok st -> reader_inv st.
Proof.
  apply for_each_read_line_inv.
  repeat split; simpl; try constructor. intros; discriminate.
Qed.

(** Outside the sections a plain line changes nothing. *)
Lemma for_each_idle (lines : list string) (nv : list (entry NodeVector))
  (ev : list (entry ElementVector)) :
  forallb plain lines = true ->
  for_each read_line lines (mkReader 0 nv 0 ev) = Ok (mkReader 0 nv 0 ev).
Proof.
  induction lines as [|line lines IH]; simpl; intros H.
  - reflexivity.
  - apply andb_prop in H. destruct H as [Hp Hrest].
    rewrite (read_line_plain _ line Hp). simpl. exact (IH Hrest).
Qed.

(** Inside the node section every accepted record appends its node. *)
Lemma for_each_node_records (records : list string) :
  forall (nv : list (entry NodeVector)) (ev : list (entry ElementVector)),
  forallb node_record records = true ->
  for_each read_line records (mkReader 2 nv 0 ev)
  = Ok (mkReader 2 (nv ++ map Obj (nodes_of records)) 0 ev).
Proof.
  induction records as [|line records IH]; simpl; intros nv ev H.
  - rewrite app_nil_r. reflexivity.
  - apply andb_prop in H. destruct H as [Hrec Hrest].
    unfold node_record in Hrec. apply andb_prop in Hrec.
    destruct Hrec as [Hp Hok].
    rewrite (read_line_plain _ line Hp). simpl.
    destruct (read_node line) as [x|e]; [|discriminate Hok]. simpl.
    unfold element_part, append_node. simpl.
    rewrite IH by exact Hrest. rewrite <- app_assoc. reflexivity.
Qed.

(** Inside the element section every accepted record of type 2 appends its
    triangle, and every other accepted record appends nothing. *)
Lemma for_each_element_records (records : list string) :
  forall (nv : list (entry NodeVector)) (ev : list (entry ElementVector)),
  forallb element_record records = true ->
  for_each read_line records (mkReader 0 nv 2 ev)
  = Ok (mkReader 0 nv 2 (ev ++ map Obj (triangles_of records))).
Proof.
  induction records as [|line records IH]; simpl; intros nv ev H.
  - rewrite app_nil_r. reflexivity.
  - apply andb_prop in H. destruct H as [Hrec Hrest].
    unfold element_record in Hrec. apply andb_prop in Hrec.
    destruct Hrec as [Hp Hok].
    rewrite (read_line_plain _ line Hp). simpl.
    unfold element_part. simpl.
    destruct (read_element line) as [[x|]|e]; [| |discriminate Hok]; simpl.
    + unfold append_element. simpl.
      rewrite IH by exact Hrest. rewrite <- app_assoc. reflexivity.
    + rewrite IH by exact Hrest. reflexivity.
Qed.

(** The reading loop on a well-formed file: it ends normally, with the
    placeholder and the nodes in [node_vector] and the placeholder and the
    triangles in [element_vector]. *)
Lemma load_mesh_well_formed (g : gmsh) :
  well_formed g = true ->
  load_mesh (gmsh_lines g)
  = Ok (mkReader 0 (Placeholder :: map Obj (nodes_of (node_records g))) 0
          (Placeholder :: map Obj (triangles_of (element_records g)))).
Proof.
  unfold well_formed. intros H.
  repeat (apply andb_prop in H; let H' := fresh "W" in destruct H as [H H']).
  apply marker_eqb_eq in W8, W5, W3, W0.
  unfold load_mesh, gmsh_lines, reader_init.
  rewrite for_each_app, for_each_idle by exact H. simpl.
  rewrite (read_line_nodes_open _ _ W8). simpl.
  rewrite (read_line_plain _ _ W7). simpl.
  unfold append_node, set_node_read. simpl.
  rewrite for_each_app, for_each_node_records by exact W6. simpl.
  rewrite (read_line_nodes_close _ _ W5). simpl.
  unfold set_node_read. simpl.
  rewrite for_each_app, for_each_idle by exact W4. simpl.
  rewrite (read_line_elements_open _ _ W3). simpl.
  rewrite (read_line_plain _ _ W2). simpl.
  unfold element_part, append_element, set_element_read. simpl.
  rewrite for_each_app, for_each_element_records by exact W1. simpl.
  rewrite (read_line_elements_close _ _ W0). simpl.
  unfold set_element_read. simpl.
  apply for_each_idle. exact W.
Qed.

(** A closing [$EndElements] at the end of the file only resets
    [element_read]: the tables are those of the file without it. *)
Lemma load_mesh_elements_close (mesh : list string) (line : string) :
  marker_of line = ElementsClose ->
  load_mesh (mesh ++ [line])
  = (st <- load_mesh mesh ;; Ok (set_element_read st 0)).
Proof.
  intros M. unfold load_mesh. rewrite for_each_app.
  destruct (for_each read_line mesh reader_init) as [st|e]; simpl.
  - rewrite (read_line_elements_close st line M). reflexivity.
  - reflexivity.
Qed.

End Reading.

(** ** The normal loop *)

Local Open Scope R_scope.

Lemma element_area_ok (normal : vec3) :
  element_area normal = Ok (area_of normal).
Proof.
  unfold element_area, area_of. apply divide_ok. lra.
Qed.

Lemma contribution_ok (sun_vec : vec3) (irr : R) (normal : vec3) :
  contribution sun_vec irr normal = Ok (raw_contribution sun_vec irr normal).
Proof.
  unfold contribution, raw_contribution. apply divide_ok. lra.
Qed.

Lemma geometry_nil (nodes : list (entry NodeVector)) :
  geometry nodes [] = Ok ([], 0).
Proof. reflexivity. Qed.

(** The normal loop skips slot 0 and visits every later entry in order. *)
Lemma geometry_cons (nodes : list (entry NodeVector))
  (e0 : entry ElementVector) (es : list (entry ElementVector)) :
  geometry nodes (e0 :: es) = for_each (geometry_body nodes) es ([], 0).
Proof.
  exact (for_each_indexes (geometry_body nodes) es [e0] ([], 0)).
Qed.

Lemma for_each_geometry_body (nodes : list (entry NodeVector))
  (es : list (entry ElementVector)) :
  forall (ns0 : list vec3) (a0 : R),
  for_each (geometry_body nodes) es (ns0, a0)
  = (ns <- normals_of nodes es ;;
     Ok (ns0 ++ ns, a0 + Rsum (map area_of ns))).
Proof.
  induction es as [|e es IH]; intros ns0 a0; simpl.
  - rewrite app_nil_r. f_equal. f_equal. lra.
  - unfold geometry_body at 1.
    destruct (element_normal nodes e) as [n|ex]; simpl; [|reflexivity].
    rewrite element_area_ok. simpl. rewrite IH.
    destruct (normals_of nodes es) as [ns|ex]; simpl; [|reflexivity].
    rewrite <- app_assoc. simpl. f_equal. f_equal. lra.
Qed.

(** The normal loop as a whole: one normal per entry after slot 0, and the
    sum of their areas. *)
Lemma geometry_normals (nodes : list (entry NodeVector))
  (e0 : entry ElementVector) (es : list (entry ElementVector)) :
  geometry nodes (e0 :: es)
  = (ns <- normals_of nodes es ;; Ok (ns, Rsum (map area_of ns))).
Proof.
  rewrite geometry_cons, for_each_geometry_body.
  destruct (normals_of nodes es) as [ns|ex]; simpl; [|reflexivity].
  f_equal. f_equal. lra.
Qed.

Lemma element_normal_obj (nodes : list (entry NodeVector))
  (e : entry ElementVector) (n : vec3) :
  element_normal nodes e = Ok n -> exists x, e = Obj x.
Proof.
  destruct e as [|x]; [discriminate | intros _; exists x; reflexivity].
Qed.

Lemma normals_of_ok (nodes : list (entry NodeVector))
  (es : list (entry ElementVector)) :
  forall ns, normals_of nodes es = Ok ns ->
  es = map Obj (objects es) /\
  Forall2 (fun x n => element_normal nodes (Obj x) = Ok n) (objects es) ns.
Proof.
  induction es as [|e es IH]; intros ns H; simpl in H.
  - injection H as <-. split; [reflexivity | constructor].
  - ok_bind H n Hn. ok_bind H rest Hrest. injection H as <-.
    destruct (element_normal_obj _ _ Hn) as [x ->].
    destruct (IH _ Hrest) as [E F]. simpl. split.
    + f_equal. exact E.
    + constructor; assumption.
Qed.

(** A normal loop that ends normally has produced, in order, the normal of
    every object of a table that starts with the placeholder. *)
Lemma geometry_ok (nodes : list (entry NodeVector))
  (elements : list (entry ElementVector)) (ns : list vec3) (area : R) :
  placeholder_first elements ->
  geometry nodes elements = Ok (ns, area) ->
  Forall2 (fun x n => element_normal nodes (Obj x) = Ok n) (objects elements) ns
  /\ area = Rsum (map area_of ns)
  /\ Z.to_nat (np_size elements - 1) = List.length ns.
Proof.
  destruct elements as [|e0 es]; intros Hhd H.
  - rewrite geometry_nil in H. injection H as <- <-.
    repeat split. constructor.
  - rewrite geometry_normals in H.
    apply bind_ok_inv in H. destruct H as [ns' [Hns H]].
    injection H as <- <-.
    destruct (normals_of_ok _ _ Hns) as [E F].
    destruct e0 as [|x0]; [|destruct Hhd]. cbn [objects].
    assert (L : List.length es = List.length ns').
    { rewrite E at 1. rewrite length_map. exact (Forall2_length F). }
    repeat split; [exact F|].
    unfold np_size. simpl List.length. lia.
Qed.

(** ** The flux loop *)

Lemma for_each_flux_body (sun_vec : vec3) (irr : R) (ns : list vec3) :
  forall (f0 : R) (c0 : Z),
  for_each (flux_body sun_vec irr) ns (f0, c0)
  = Ok (f0 + Rsum (map (clamped_contribution sun_vec irr) ns),
        (c0 + Z.of_nat (List.length (shaded sun_vec irr ns)))%Z).
Proof.
  induction ns as [|n ns IH]; intros f0 c0; simpl.
  - f_equal. f_equal; [lra | lia].
  - unfold flux_body at 1. rewrite contribution_ok. simpl.
    unfold clamped_contribution at 1, clamp, negative.
    destruct (Rlt_dec (raw_contribution sun_vec irr n) 0) as [Hneg|Hpos];
      simpl; rewrite IH; f_equal; f_equal; try lra; lia.
Qed.

(** The flux loop reads [normal_vec[0]] up to the last normal when its
    bound, the table size less one, is the number of normals. *)
Lemma flux_sum_all (sun_vec : vec3) (irr : R) (ns : list vec3)
  (elements : list (entry ElementVector)) :
  Z.to_nat (np_size elements - 1) = List.length ns ->
  flux_sum sun_vec irr ns elements
  = Ok (Rsum (map (clamped_contribution sun_vec irr) ns),
        Z.of_nat (List.length (shaded sun_vec irr ns))).
Proof.
  intros Hlen. unfold flux_sum.
  replace (range 0 (np_size elements - 1))
    with (range (np_size (@nil vec3)) (np_size ([] ++ ns))).
  - change (flux_step sun_vec irr ns)
      with (fun s i => x <- getitem ([] ++ ns) i ;; flux_body sun_vec irr s x).
    rewrite for_each_indexes, for_each_flux_body. f_equal. f_equal; lra.
  - unfold range, np_size. simpl. rewrite !Z.sub_0_r, Nat2Z.id.
    unfold np_size in Hlen. rewrite Hlen. reflexivity.
Qed.

Local Close Scope R_scope.

(** ** The whole computation *)

Section Whole.

Context {collab : Collaborators}.

Local Open Scope R_scope.

(** Once the mesh is read and the normals are computed, the flux loop never
    raises, and the four results are as follows. *)
Lemma car_solar_flux_ok (mesh : list string) (lat lon : R)
  (timezone year month day hour : Z) (minute z_rotate : R)
  (st : reader) (ns : list vec3) (area : R) :
  load_mesh mesh = Ok st ->
  geometry (node_vector st) (element_vector st) = Ok (ns, area) ->
  let sun := sun_of lat lon timezone year month day hour minute z_rotate in
  let irr := irr_of lat lon timezone year month day hour minute in
  car_solar_flux mesh lat lon timezone year month day hour minute z_rotate
  = Ok (Rsum (map (clamped_contribution sun irr) ns), area,
        np_size (element_vector st),
        Z.of_nat (List.length (shaded sun irr ns))).
Proof.
  intros Hload Hgeo sun irr. subst sun irr.
  destruct (load_mesh_inv _ Hload) as [_ [Hhd _]].
  destruct (geometry_ok _ _ Hhd Hgeo) as [_ [_ Hlen]].
  unfold car_solar_flux, sun_of, irr_of. rewrite Hload. simpl.
  rewrite Hgeo. simpl.
  destruct (solar_angles lat lon timezone year month day hour minute)
    as [[h_corr azimuth] julian_day].
  rewrite (flux_sum_all _ _ _ _ Hlen). reflexivity.
Qed.

(** A result of [car_solar_flux] comes from a mesh that was read and whose
    normals were computed. *)
Lemma car_solar_flux_inv (mesh : list string) (lat lon : R)
  (timezone year month day hour : Z) (minute z_rotate : R)
  (flux area : R) (ele_count neg_count : Z) :
  car_solar_flux mesh lat lon timezone year month day hour minute z_rotate
  = Ok (flux, area, ele_count, neg_count) ->
  exists st ns,
    load_mesh mesh = Ok st /\
    geometry (node_vector st) (element_vector st) = Ok (ns, area).
Proof.
  unfold car_solar_flux. intros H.
  apply bind_ok_inv in H. destruct H as [st [Hload H]].
  apply bind_ok_inv in H. destruct H as [[ns a] [Hgeo H]].
  exists st, ns. split; [exact Hload|].
  destruct (solar_angles lat lon timezone year month day hour minute)
    as [[h_corr azimuth] julian_day].
  apply bind_ok_inv in H. destruct H as [f [_ H]].
  injection H as _ <- _ _. exact Hgeo.
Qed.

Lemma retained_triangles_loaded (mesh : list string) (st : reader) :
  load_mesh mesh = Ok st ->
  retained_triangles mesh = objects (element_vector st).
Proof.
  intros H. unfold retained_triangles. rewrite H. reflexivity.
Qed.

Lemma clamp_nonneg (t : R) : 0 <= clamp t.
Proof.
  unfold clamp. destruct (Rlt_dec t 0); lra.
Qed.

Lemma Rsum_clamped_nonneg (sun_vec : vec3) (irr : R) (ns : list vec3) :
  0 <= Rsum (map (clamped_contribution sun_vec irr) ns).
Proof.
  induction ns as [|n ns IH]; simpl; [lra|].
  pose proof (clamp_nonneg (raw_contribution sun_vec irr n)).
  unfold clamped_contribution at 1. lra.
Qed.

(** The clamped sum is the sum of the contributions that are not negative. *)
Lemma Rsum_clamped_lit (sun_vec : vec3) (irr : R) (ns : list vec3) :
  Rsum (map (clamped_contribution sun_vec irr) ns)
  = Rsum (map (raw_contribution sun_vec irr) (lit sun_vec irr ns)).
Proof.
  induction ns as [|n ns IH]; simpl; [reflexivity|].
  unfold clamped_contribution at 1, clamp, negative.
  destruct (Rlt_dec (raw_contribution sun_vec irr n) 0); simpl;
    rewrite IH; lra.
Qed.

Lemma shaded_length_le (sun_vec : vec3) (irr : R) (ns : list vec3) :
  (List.length (shaded sun_vec irr ns) <= List.length ns)%nat.
Proof.
  unfold shaded. apply filter_length_le.
Qed.

(** Every normal is shaded or lit, never both. *)
Lemma shaded_lit_length (sun_vec : vec3) (irr : R) (ns : list vec3) :
  (List.length (shaded sun_vec irr ns) + List.length (lit sun_vec irr ns)
   = List.length ns)%nat.
Proof.
  unfold shaded, lit. induction ns as [|n ns IH]; simpl; [reflexivity|].
  destruct (negative (raw_contribution sun_vec irr n)); simpl; lia.
Qed.

End Whole.

(** ** One normal *)

Local Open Scope R_scope.

Lemma vec3_ext (a b c a' b' c' : R) :
  a = a' -> b = b' -> c = c' -> (a, b, c) = (a', b', c').
Proof. intros -> -> ->. reflexivity. Qed.

Lemma canonical_up (normal : vec3) : 0 <= vz normal -> canonical normal = normal.
Proof.
  intros H. unfold canonical. destruct (Rlt_dec (vz normal) 0); [lra | reflexivity].
Qed.

Lemma canonical_down (normal : vec3) :
  vz normal < 0 -> canonical normal = multiply normal (-1).
Proof.
  intros H. unfold canonical. destruct (Rlt_dec (vz normal) 0); [reflexivity | lra].
Qed.

Lemma canonical_vz (normal : vec3) : 0 <= vz (canonical normal).
Proof.
  unfold canonical. destruct (Rlt_dec (vz normal) 0) as [H|H].
  - unfold multiply, vz in *. simpl. lra.
  - lra.
Qed.

Lemma norm_multiply_neg (normal : vec3) : norm (multiply normal (-1)) = norm normal.
Proof.
  unfold norm, multiply, vx, vy, vz. simpl. apply (f_equal sqrt). ring.
Qed.

Lemma norm_canonical (normal : vec3) : norm (canonical normal) = norm normal.
Proof.
  unfold canonical. destruct (Rlt_dec (vz normal) 0).
  - apply norm_multiply_neg.
  - reflexivity.
Qed.

(** The normal of a triangle whose three corners are in the node table. *)
Lemma element_normal_corners (nodes : list (entry NodeVector))
  (x : ElementVector) (n0 n1 n2 : Z) (p0 p1 p2 : vec3) :
  ele_vec x = [n0; n1; n2] ->
  position nodes n0 = Ok p0 ->
  position nodes n1 = Ok p1 ->
  position nodes n2 = Ok p2 ->
  element_normal nodes (Obj x)
  = Ok (canonical (cross (subtract p1 p0) (subtract p2 p0))).
Proof.
  intros Hv H0 H1 H2. unfold element_normal. simpl. rewrite Hv. simpl.
  rewrite H1, H0, H2. reflexivity.
Qed.

(** ** The plate *)

Lemma plate_load (h_corr azimuth julian_day irr : R) :
  load_mesh (collab := fixed_sky h_corr azimuth julian_day irr) plate
  = Ok plate_state.
Proof. reflexivity. Qed.

Lemma plate_normals :
  normals_of (node_vector plate_state) (tl (element_vector plate_state))
  = Ok [(0, 0, 1000000); (0, 0, 1000000)].
Proof.
  unfold plate_state. cbn [normals_of tl element_vector node_vector].
  rewrite (@element_normal_corners _ _ 1%Z 2%Z 3%Z (0, 0, 0) (1000, 0, 0)
             (0, 1000, 0)) by reflexivity.
  rewrite (@element_normal_corners _ _ 2%Z 3%Z 4%Z (1000, 0, 0) (0, 1000, 0)
             (1000, 1000, 0)) by reflexivity.
  simpl.
  rewrite canonical_up by (unfold cross, subtract, vx, vy, vz; simpl; lra).
  rewrite canonical_down by (unfold cross, subtract, vx, vy, vz; simpl; lra).
  unfold multiply, cross, subtract, vx, vy, vz. simpl.
  f_equal. f_equal; [|f_equal]; apply vec3_ext; lra.
Qed.

Lemma plate_triangle_area : area_of (0, 0, 1000000) = 1 / 2.
Proof.
  unfold area_of, norm, vx, vy, vz. simpl.
  replace (0 * 0 + 0 * 0 + 1000000 * 1000000) with (1000000 * 1000000) by lra.
  rewrite sqrt_square by lra. lra.
Qed.

(** The plate has two normals, both (0, 0, 10^6), and one square metre. *)
Lemma plate_geometry :
  geometry (node_vector plate_state) (element_vector plate_state)
  = Ok ([(0, 0, 1000000); (0, 0, 1000000)], 1).
Proof.
  change (element_vector plate_state)
    with (Placeholder :: tl (element_vector plate_state)).
  rewrite geometry_normals, plate_normals. simpl.
  rewrite plate_triangle_area. f_equal. f_equal. lra.
Qed.

Local Close Scope R_scope.

(** ** The plate under a fixed sky *)

Local Open Scope R_scope.

Lemma deg2rad_0 : deg2rad 0 = 0.
Proof. unfold deg2rad. lra. Qed.

Lemma deg2rad_30 : deg2rad 30 = PI / 6.
Proof. unfold deg2rad. lra. Qed.

Lemma deg2rad_90 : deg2rad 90 = PI / 2.
Proof. unfold deg2rad. lra. Qed.

Lemma deg2rad_270 : deg2rad 270 = 3 * (PI / 2).
Proof. unfold deg2rad. lra. Qed.

(** With no heading, the sun vector of [sky_up] is (1/2, 0, 1). *)
Lemma sun_vector_up : sun_vector 30 90 90 0 = (1 / 2, 0, 1).
Proof.
  unfold sun_vector.
  rewrite deg2rad_0, deg2rad_30, deg2rad_90, sin_0, cos_0, sin_PI6, cos_PI2,
    sin_PI2.
  apply vec3_ext; lra.
Qed.

(** With no heading, the sun vector of [sky_down] is (1/2, 0, -1). *)
Lemma sun_vector_down : sun_vector 30 90 270 0 = (1 / 2, 0, -1).
Proof.
  unfold sun_vector.
  rewrite deg2rad_0, deg2rad_30, deg2rad_90, deg2rad_270, sin_0, cos_0,
    sin_PI6, cos_PI2, sin_3PI2.
  apply vec3_ext; lra.
Qed.

Lemma plate_contribution_up :
  raw_contribution (1 / 2, 0, 1) 1000 (0, 0, 1000000) = 239 / 2.
Proof.
  unfold raw_contribution, eff, dot, vx, vy, vz. simpl. lra.
Qed.

Lemma plate_contribution_down :
  raw_contribution (1 / 2, 0, -1) 1000 (0, 0, 1000000) = - (239 / 2).
Proof.
  unfold raw_contribution, eff, dot, vx, vy, vz. simpl. lra.
Qed.

(** The plate under [sky_up]: 239 W from one square metre. *)
Lemma plate_up :
  car_solar_flux (collab := sky_up) plate 43 (-80) (-5) 2017 6 21 12 0 0
  = Ok (239, 1, 3%Z, 0%Z).
Proof.
  rewrite (car_solar_flux_ok (collab := sky_up) plate 43 (-80) (-5) 2017 6 21
             12 0 0 (plate_load _ _ _ _) plate_geometry).
  unfold sun_of, irr_of, sky_up, fixed_sky. cbn [solar_angles irradiance].
  rewrite sun_vector_up.
  unfold shaded, clamped_contribution, clamp, negative.
  cbn [map filter]. rewrite plate_contribution_up.
  destruct (Rlt_dec (239 / 2) 0) as [H|H]; [lra|].
  cbn [Rsum fold_right List.length].
  replace (239 / 2 + (239 / 2 + 0)) with 239 by lra. reflexivity.
Qed.

(** The sky [sky_up] is the same at every place, date and time. *)
Lemma plate_up_anywhere (lat lon : R) (timezone year month day hour : Z)
  (minute : R) :
  car_solar_flux (collab := sky_up) plate lat lon timezone year month day hour
    minute 0
  = Ok (239, 1, 3%Z, 0%Z).
Proof.
  rewrite (car_solar_flux_ok (collab := sky_up) plate lat lon timezone year
             month day hour minute 0 (plate_load _ _ _ _) plate_geometry).
  unfold sun_of, irr_of, sky_up, fixed_sky. cbn [solar_angles irradiance].
  rewrite sun_vector_up.
  unfold shaded, clamped_contribution, clamp, negative.
  cbn [map filter]. rewrite plate_contribution_up.
  destruct (Rlt_dec (239 / 2) 0) as [H|H]; [lra|].
  cbn [Rsum fold_right List.length].
  replace (239 / 2 + (239 / 2 + 0)) with 239 by lra. reflexivity.
Qed.

(** The plate under [sky_down]: both triangles are shaded. *)
Lemma plate_down :
  car_solar_flux (collab := sky_down) plate 43 (-80) (-5) 2017 6 21 12 0 0
  = Ok (0, 1, 3%Z, 2%Z).
Proof.
  rewrite (car_solar_flux_ok (collab := sky_down) plate 43 (-80) (-5) 2017 6
             21 12 0 0 (plate_load _ _ _ _) plate_geometry).
  unfold sun_of, irr_of, sky_down, fixed_sky. cbn [solar_angles irradiance].
  rewrite sun_vector_down.
  unfold shaded, clamped_contribution, clamp, negative.
  cbn [map filter]. rewrite plate_contribution_down.
  destruct (Rlt_dec (- (239 / 2)) 0) as [H|H]; [|lra].
  cbn [Rsum fold_right List.length].
  replace (0 + (0 + 0)) with 0 by lra. reflexivity.
Qed.

Local Close Scope R_scope.

(** ** The flux sum and the counts *)

Section Results.

Context {collab : Collaborators}.

Local Open Scope R_scope.

(** C2. The flux loop visits every retained triangle exactly once.  When
    the mesh has been read and the normal loop has ended, [normal_vec] holds
    in order the normal of each retained triangle, [car_solar_flux] returns
    a result, and its flux is the sum of the clamped contributions of all
    these normals: none is skipped, the first and the last included, and
    none is counted twice. *)
Theorem flux_sums_every_retained_triangle (mesh : list string) (lat lon : R)
  (timezone year month day hour : Z) (minute z_rotate : R)
  (st : reader) (normal_vec : list vec3) (area : R) :
  load_mesh mesh = Ok st ->
  geometry (node_vector st) (element_vector st) = Ok (normal_vec, area) ->
  Forall2 (fun x n => element_normal (node_vector st) (Obj x) = Ok n)
    (retained_triangles mesh) normal_vec
  /\ exists ele_count neg_count,
       car_solar_flux mesh lat lon timezone year month day hour minute z_rotate
       = Ok (Rsum (map (clamped_contribution
                          (sun_of lat lon timezone year month day hour minute
                             z_rotate)
                          (irr_of lat lon timezone year month day hour minute))
                     normal_vec),
             area, ele_count, neg_count).
Proof.
  intros Hload Hgeo. split.
  - rewrite (retained_triangles_loaded _ Hload).
    destruct (load_mesh_inv _ Hload) as [_ [Hhd _]].
    exact (proj1 (geometry_ok _ _ Hhd Hgeo)).
  - eexists. eexists.
    exact (car_solar_flux_ok mesh lat lon timezone year month day hour minute
             z_rotate Hload Hgeo).
Qed.

(** The count returned by [car_solar_flux] is the size of the element
    table, placeholder included: one more than the number of retained
    triangles as soon as the file has an element section with its count
    line. *)
Lemma ele_count_is_table_size (mesh : list string) (lat lon : R)
  (timezone year month day hour : Z) (minute z_rotate : R)
  (flux area : R) (ele_count neg_count : Z) (st : reader) :
  car_solar_flux mesh lat lon timezone year month day hour minute z_rotate
  = Ok (flux, area, ele_count, neg_count) ->
  load_mesh mesh = Ok st ->
  ele_count = np_size (element_vector st) /\
  (element_vector st <> [] ->
   ele_count = (1 + Z.of_nat (List.length (retained_triangles mesh)))%Z).
Proof.
  intros Hres Hload.
  destruct (car_solar_flux_inv _ _ _ _ _ _ _ _ _ _ Hres) as [st' [ns [Hl Hg]]].
  rewrite Hload in Hl. injection Hl as <-.
  rewrite (car_solar_flux_ok mesh lat lon timezone year month day hour minute
             z_rotate Hload Hg) in Hres.
  inversion Hres; subst; clear Hres. split; [reflexivity|].
  intros Hne. rewrite (retained_triangles_loaded _ Hload).
  destruct (load_mesh_inv _ Hload) as [_ [Hhd _]].
  destruct (geometry_ok _ _ Hhd Hg) as [F [_ Hlen]].
  rewrite (Forall2_length F).
  destruct (element_vector st) as [|e0 es]; [contradiction|].
  unfold np_size in *. simpl List.length in *. lia.
Qed.

(** C6. Self-shading rejection.  In the flux loop a normal whose
    contribution is negative adds exactly 0 to the flux and 1 to
    [neg_count]; any other normal adds its contribution and leaves
    [neg_count] as it is.  Hence the returned flux is the sum of the
    contributions that are not negative, and the returned [neg_count] is
    the number of normals whose contribution is negative. *)
Theorem shaded_triangles_add_nothing_and_are_counted (mesh : list string)
  (lat lon : R) (timezone year month day hour : Z) (minute z_rotate : R)
  (st : reader) (normal_vec : list vec3) (area : R) :
  load_mesh mesh = Ok st ->
  geometry (node_vector st) (element_vector st) = Ok (normal_vec, area) ->
  let sun := sun_of lat lon timezone year month day hour minute z_rotate in
  let irr := irr_of lat lon timezone year month day hour minute in
  (forall (normal : vec3) (flux : R) (neg_count : Z),
     (raw_contribution sun irr normal < 0 ->
      flux_body sun irr (flux, neg_count) normal
      = Ok (flux + 0, (neg_count + 1)%Z)) /\
     (~ raw_contribution sun irr normal < 0 ->
      flux_body sun irr (flux, neg_count) normal
      = Ok (flux + raw_contribution sun irr normal, neg_count)))
  /\ exists ele_count,
       car_solar_flux mesh lat lon timezone year month day hour minute z_rotate
       = Ok (Rsum (map (raw_contribution sun irr) (lit sun irr normal_vec)),
             area, ele_count,
             Z.of_nat (List.length (shaded sun irr normal_vec))).
Proof.
  intros Hload Hgeo sun irr. split.
  - intros normal flux neg_count. unfold flux_body.
    rewrite contribution_ok. simpl.
    destruct (Rlt_dec (raw_contribution sun irr normal) 0) as [H|H];
      split; intros H'; try reflexivity; contradiction.
  - eexists. rewrite <- Rsum_clamped_lit.
    exact (car_solar_flux_ok mesh lat lon timezone year month day hour minute
             z_rotate Hload Hgeo).
Qed.

(** The flux is never negative, whatever the irradiance. *)
Lemma flux_nonneg (mesh : list string) (lat lon : R)
  (timezone year month day hour : Z) (minute z_rotate : R)
  (flux area : R) (ele_count neg_count : Z) :
  car_solar_flux mesh lat lon timezone year month day hour minute z_rotate
  = Ok (flux, area, ele_count, neg_count) ->
  0 <= flux.
Proof.
  intros Hres.
  destruct (car_solar_flux_inv _ _ _ _ _ _ _ _ _ _ Hres) as [st [ns [Hl Hg]]].
  rewrite (car_solar_flux_ok mesh lat lon timezone year month day hour minute
             z_rotate Hl Hg) in Hres.
  inversion Hres; subst; clear Hres. apply Rsum_clamped_nonneg.
Qed.

(** Over the reals, the returned flux is not negative and [neg_count] lies
    between 0 and the number of retained triangles; the sign of the
    irradiance plays no part. *)
Lemma flux_and_negative_count_bounds (mesh : list string) (lat lon : R)
  (timezone year month day hour : Z) (minute z_rotate : R)
  (flux area : R) (ele_count neg_count : Z) :
  car_solar_flux mesh lat lon timezone year month day hour minute z_rotate
  = Ok (flux, area, ele_count, neg_count) ->
  0 <= flux /\
  (0 <= neg_count <= Z.of_nat (List.length (retained_triangles mesh)))%Z.
Proof.
  intros Hres. split; [exact (flux_nonneg _ _ _ _ _ _ _ _ _ _ Hres)|].
  destruct (car_solar_flux_inv _ _ _ _ _ _ _ _ _ _ Hres) as [st [ns [Hl Hg]]].
  rewrite (car_solar_flux_ok mesh lat lon timezone year month day hour minute
             z_rotate Hl Hg) in Hres.
  inversion Hres; subst; clear Hres.
  rewrite (retained_triangles_loaded _ Hl).
  destruct (load_mesh_inv _ Hl) as [_ [Hhd _]].
  destruct (geometry_ok _ _ Hhd Hg) as [F _].
  rewrite (Forall2_length F).
  pose proof (shaded_length_le
                (sun_of lat lon timezone year month day hour minute z_rotate)
                (irr_of lat lon timezone year month day hour minute) ns).
  lia.
Qed.

Lemma triangles_of_other (records : list string) :
  forallb other_record records = true -> triangles_of records = [].
Proof.
  induction records as [|line records IH]; simpl; intros H; [reflexivity|].
  apply andb_prop in H. destruct H as [Hrec Hrest].
  unfold other_record in Hrec. apply andb_prop in Hrec. destruct Hrec as [_ Hrec].
  destruct (read_element line) as [[x|]|e]; try discriminate Hrec.
  simpl. exact (IH Hrest).
Qed.

(** C10. A well-formed mesh whose element section holds no record of type 2
    retains no triangle; [car_solar_flux] returns flux 0, area 0 and a
    negative count 0, and an element count of 1: the placeholder stored for
    the count line is the one entry of the table. *)
Theorem mesh_without_triangles_counts_one (g : gmsh) (lat lon : R)
  (timezone year month day hour : Z) (minute z_rotate : R) :
  well_formed g = true ->
  forallb other_record (element_records g) = true ->
  retained_triangles (gmsh_lines g) = [] /\
  car_solar_flux (gmsh_lines g) lat lon timezone year month day hour minute
    z_rotate
  = Ok (0, 0, 1%Z, 0%Z).
Proof.
  intros Hwf Hother.
  pose proof (load_mesh_well_formed g Hwf) as Hload.
  rewrite (triangles_of_other _ Hother) in Hload. simpl in Hload.
  split.
  - rewrite (retained_triangles_loaded _ Hload). reflexivity.
  - rewrite (car_solar_flux_ok (gmsh_lines g) lat lon timezone year month day
               hour minute z_rotate (ns := []) (area := 0) Hload).
    + reflexivity.
    + reflexivity.
Qed.

End Results.

(** ** The area of a triangle *)

Local Open Scope R_scope.

Lemma norm_sq_nonneg (v : vec3) : 0 <= vx v * vx v + vy v * vy v + vz v * vz v.
Proof. nra. Qed.

Lemma norm_sqr (v : vec3) :
  norm v * norm v = vx v * vx v + vy v * vy v + vz v * vz v.
Proof. unfold norm. apply sqrt_sqrt. apply norm_sq_nonneg. Qed.

(** Heron's product in terms of the squared sides. *)
Lemma heron_identity (A B C : R) :
  let s := (A + B + C) / 2 in
  16 * (s * (s - A) * (s - B) * (s - C))
  = 2 * (A * A) * (B * B) + 2 * (B * B) * (C * C) + 2 * (C * C) * (A * A)
    - (A * A) * (A * A) - (B * B) * (B * B) - (C * C) * (C * C).
Proof. intros s. unfold s. field. Qed.

(** The squared cross product of two edges in terms of the squared sides. *)
Lemma lagrange_sides (p0 p1 p2 : vec3) :
  let n := cross (subtract p1 p0) (subtract p2 p0) in
  let a2 := distance p1 p2 * distance p1 p2 in
  let b2 := distance p0 p2 * distance p0 p2 in
  let c2 := distance p0 p1 * distance p0 p1 in
  4 * (vx n * vx n + vy n * vy n + vz n * vz n)
  = 2 * a2 * b2 + 2 * b2 * c2 + 2 * c2 * a2 - a2 * a2 - b2 * b2 - c2 * c2.
Proof.
  intros n a2 b2 c2. subst n a2 b2 c2. unfold distance. rewrite !norm_sqr.
  destruct p0 as [[x0 y0] z0], p1 as [[x1 y1] z1], p2 as [[x2 y2] z2].
  unfold cross, subtract, vx, vy, vz. simpl. ring.
Qed.

(** The cross product of two edges of a triangle has twice its area for
    magnitude. *)
Lemma norm_cross_heron (p0 p1 p2 : vec3) :
  norm (cross (subtract p1 p0) (subtract p2 p0)) = 2 * triangle_area p0 p1 p2.
Proof.
  pose proof (lagrange_sides p0 p1 p2) as L. cbv zeta in L.
  pose proof (heron_identity (distance p1 p2) (distance p0 p2)
                (distance p0 p1)) as H.
  cbv zeta in H. unfold triangle_area.
  set (n := cross (subtract p1 p0) (subtract p2 p0)) in *.
  set (h := (distance p1 p2 + distance p0 p2 + distance p0 p1) / 2 *
            ((distance p1 p2 + distance p0 p2 + distance p0 p1) / 2
             - distance p1 p2) *
            ((distance p1 p2 + distance p0 p2 + distance p0 p1) / 2
             - distance p0 p2) *
            ((distance p1 p2 + distance p0 p2 + distance p0 p1) / 2
             - distance p0 p1)) in *.
  pose proof (norm_sq_nonneg n) as Hn.
  assert (Hh : 0 <= h) by lra.
  unfold norm at 1. apply sqrt_lem_1.
  - exact Hn.
  - pose proof (sqrt_pos h). lra.
  - replace (2 * sqrt h * (2 * sqrt h)) with (4 * (sqrt h * sqrt h)) by ring.
    rewrite sqrt_sqrt by exact Hh. lra.
Qed.

Lemma distance_sym (p q : vec3) : distance p q = distance q p.
Proof.
  unfold distance, norm, subtract, vx, vy, vz. simpl.
  apply (f_equal sqrt). ring.
Qed.

(** The area does not depend on the order of the corners. *)
Lemma triangle_area_swap (p0 p1 p2 : vec3) :
  triangle_area p0 p2 p1 = triangle_area p0 p1 p2.
Proof.
  unfold triangle_area. cbv zeta. rewrite (distance_sym p2 p1).
  apply (f_equal sqrt). field.
Qed.

(** Over the reals, the normal of a retained triangle, after the flip of
    lines 148-149, has a third component that is not negative: the cross
    product of the two edges is negated as a whole when its third component
    is negative and kept otherwise.  In both cases its magnitude is twice
    the area of the triangle (in mm2), whatever the order of the corners. *)
Lemma normal_points_up_with_twice_the_area
  (nodes : list (entry NodeVector)) (x : ElementVector) (n0 n1 n2 : Z)
  (p0 p1 p2 : vec3) :
  ele_vec x = [n0; n1; n2] ->
  position nodes n0 = Ok p0 ->
  position nodes n1 = Ok p1 ->
  position nodes n2 = Ok p2 ->
  let raw := cross (subtract p1 p0) (subtract p2 p0) in
  exists normal : vec3,
    element_normal nodes (Obj x) = Ok normal
    /\ (vz raw < 0 -> normal = multiply raw (-1))
    /\ (~ vz raw < 0 -> normal = raw)
    /\ 0 <= vz normal
    /\ norm normal = 2 * triangle_area p0 p1 p2
    /\ norm normal = 2 * triangle_area p0 p2 p1.
Proof.
  intros Hv H0 H1 H2 raw. exists (canonical raw).
  split; [exact (element_normal_corners _ _ Hv H0 H1 H2)|].
  split; [intros H; apply canonical_down; exact H|].
  split; [intros H; apply canonical_up; lra|].
  split; [apply canonical_vz|].
  rewrite (triangle_area_swap p0 p1 p2), norm_canonical.
  split; apply norm_cross_heron.
Qed.

(** ** Degenerate triangles *)

Lemma cross_collinear (p0 p1 p2 : vec3) :
  collinear p0 p1 p2 -> cross (subtract p1 p0) (subtract p2 p0) = (0, 0, 0).
Proof.
  intros [a [b [Hab [Hx [Hy Hz]]]]].
  destruct p0 as [[x0 y0] z0], p1 as [[x1 y1] z1], p2 as [[x2 y2] z2].
  unfold cross, subtract, vx, vy, vz in *. simpl in *.
  set (ux := x1 - x0) in *. set (uy := y1 - y0) in *. set (uz := z1 - z0) in *.
  set (wx := x2 - x0) in *. set (wy := y2 - y0) in *. set (wz := z2 - z0) in *.
  assert (Ea : a * (uy * wz - uz * wy) = 0 /\ a * (uz * wx - ux * wz) = 0
               /\ a * (ux * wy - uy * wx) = 0).
  { repeat split.
    - replace (a * (uy * wz - uz * wy))
        with ((a * uy + b * wy) * wz - (a * uz + b * wz) * wy) by ring.
      rewrite Hy, Hz. ring.
    - replace (a * (uz * wx - ux * wz))
        with ((a * uz + b * wz) * wx - (a * ux + b * wx) * wz) by ring.
      rewrite Hx, Hz. ring.
    - replace (a * (ux * wy - uy * wx))
        with ((a * ux + b * wx) * wy - (a * uy + b * wy) * wx) by ring.
      rewrite Hx, Hy. ring. }
  assert (Eb : b * (uy * wz - uz * wy) = 0 /\ b * (uz * wx - ux * wz) = 0
               /\ b * (ux * wy - uy * wx) = 0).
  { repeat split.
    - replace (b * (uy * wz - uz * wy))
        with (uy * (a * uz + b * wz) - uz * (a * uy + b * wy)) by ring.
      rewrite Hy, Hz. ring.
    - replace (b * (uz * wx - ux * wz))
        with (uz * (a * ux + b * wx) - ux * (a * uz + b * wz)) by ring.
      rewrite Hx, Hz. ring.
    - replace (b * (ux * wy - uy * wx))
        with (ux * (a * uy + b * wy) - uy * (a * ux + b * wx)) by ring.
      rewrite Hx, Hy. ring. }
  destruct Ea as [Ea1 [Ea2 Ea3]]. destruct Eb as [Eb1 [Eb2 Eb3]].
  apply vec3_ext.
  - destruct Hab as [Ha|Hb].
    + destruct (Rmult_integral _ _ Ea1); [contradiction | assumption].
    + destruct (Rmult_integral _ _ Eb1); [contradiction | assumption].
  - destruct Hab as [Ha|Hb].
    + destruct (Rmult_integral _ _ Ea2); [contradiction | assumption].
    + destruct (Rmult_integral _ _ Eb2); [contradiction | assumption].
  - destruct Hab as [Ha|Hb].
    + destruct (Rmult_integral _ _ Ea3); [contradiction | assumption].
    + destruct (Rmult_integral _ _ Eb3); [contradiction | assumption].
Qed.

Lemma area_of_zero : area_of (0, 0, 0) = 0.
Proof.
  unfold area_of, norm, vx, vy, vz. simpl.
  replace (0 * 0 + 0 * 0 + 0 * 0) with 0 by lra.
  rewrite sqrt_0. lra.
Qed.

Lemma raw_contribution_zero (sun_vec : vec3) (irr : R) :
  raw_contribution sun_vec irr (0, 0, 0) = 0.
Proof.
  unfold raw_contribution, dot, vx, vy, vz. simpl. lra.
Qed.

(** Over the reals, a retained triangle whose three corners lie on one
    line, or coincide, has the null vector for normal; its area is 0 and
    its contribution is 0.  Both divisions end normally, their divisors
    being the constants 2*1000000 and 1000000; the flux loop adds 0 for the
    triangle and does not count it as negative. *)
Lemma degenerate_triangle_contributes_nothing
  (nodes : list (entry NodeVector)) (x : ElementVector) (n0 n1 n2 : Z)
  (p0 p1 p2 : vec3) (sun_vec : vec3) (irr : R) :
  ele_vec x = [n0; n1; n2] ->
  position nodes n0 = Ok p0 ->
  position nodes n1 = Ok p1 ->
  position nodes n2 = Ok p2 ->
  collinear p0 p1 p2 ->
  element_normal nodes (Obj x) = Ok (0, 0, 0)
  /\ element_area (0, 0, 0) = Ok 0
  /\ contribution sun_vec irr (0, 0, 0) = Ok 0
  /\ (forall (s : list vec3 * R),
        geometry_body nodes s (Obj x) = Ok (fst s ++ [(0, 0, 0)], snd s + 0))
  /\ (forall (flux : R) (neg_count : Z),
        flux_body sun_vec irr (flux, neg_count) (0, 0, 0)
        = Ok (flux + 0, neg_count)).
Proof.
  intros Hv H0 H1 H2 Hc.
  assert (Hn : element_normal nodes (Obj x) = Ok (0, 0, 0)).
  { rewrite (element_normal_corners _ _ Hv H0 H1 H2), (cross_collinear Hc).
    rewrite canonical_up by (unfold vz; simpl; lra). reflexivity. }
  assert (Ha : element_area (0, 0, 0) = Ok 0).
  { rewrite element_area_ok, area_of_zero. reflexivity. }
  assert (Hk : contribution sun_vec irr (0, 0, 0) = Ok 0).
  { rewrite contribution_ok, raw_contribution_zero. reflexivity. }
  repeat split; try assumption.
  - intros s. unfold geometry_body. rewrite Hn. simpl. rewrite Ha. reflexivity.
  - intros flux neg_count. unfold flux_body. rewrite Hk. simpl.
    destruct (Rlt_dec 0 0) as [H|H]; [lra | reflexivity].
Qed.

(** ** The sun vector *)

(** The second component of the sun vector is computed from the first
    component as line 170 has just stored it. *)
Lemma sun_vector_components (h_corr azimuth julian_day z_rotate : R) :
  let raw_x := sin (deg2rad h_corr) in
  let raw_y := cos (deg2rad azimuth) in
  let c := cos (deg2rad z_rotate) in
  let s := sin (deg2rad z_rotate) in
  sun_vector h_corr azimuth julian_day z_rotate
  = (raw_x * c - raw_y * s,
     (raw_x * c - raw_y * s) * s + raw_y * c,
     sin (deg2rad julian_day)).
Proof. reflexivity. Qed.

(** With no heading the sun vector is the raw one. *)
Lemma sun_vector_no_heading (h_corr azimuth julian_day : R) :
  sun_vector h_corr azimuth julian_day 0
  = (sin (deg2rad h_corr), cos (deg2rad azimuth), sin (deg2rad julian_day)).
Proof.
  rewrite sun_vector_components. cbv zeta.
  rewrite deg2rad_0, sin_0, cos_0. apply vec3_ext; lra.
Qed.

(** C1, at the sun of [sky_up] and a heading of 90 degrees.  The raw sun
    vector is (1/2, 0, 1); a turn by 90 degrees gives (0, 1/2, 1), with
    raw.x*sin(heading) + raw.y*cos(heading) = 1/2 for second component;
    [sun_vector] has 0 for second component and returns (0, 0, 1). *)
Theorem sun_vector_second_component_reuses_rotated_first :
  sun_vector 30 90 90 0 = (1 / 2, 0, 1)
  /\ rotated_y 30 90 90 = 1 / 2
  /\ rotate_z 90 (sun_vector 30 90 90 0) = (0, 1 / 2, 1)
  /\ sun_vector 30 90 90 90 = (0, 0, 1)
  /\ vy (sun_vector 30 90 90 90) <> rotated_y 30 90 90.
Proof.
  assert (E : sun_vector 30 90 90 90 = (0, 0, 1)).
  { unfold sun_vector.
    rewrite deg2rad_30, deg2rad_90, sin_PI6, cos_PI2, sin_PI2.
    apply vec3_ext; lra. }
  assert (Y : rotated_y 30 90 90 = 1 / 2).
  { unfold rotated_y.
    rewrite deg2rad_30, deg2rad_90, sin_PI6, cos_PI2, sin_PI2. lra. }
  split; [exact sun_vector_up|].
  split; [exact Y|].
  split.
  - rewrite sun_vector_up. unfold rotate_z, vx, vy, vz. simpl.
    rewrite deg2rad_90, cos_PI2, sin_PI2. apply vec3_ext; lra.
  - split; [exact E|]. rewrite E, Y. unfold vy. simpl. lra.
Qed.

Local Close Scope R_scope.

(** ** Element records *)

Section Records.

Context {collab : Collaborators}.

Lemma getitem_some {A : Type} (l : list A) (k : nat) (a : A) :
  nth_error l k = Some a -> getitem l (Z.of_nat k) = Ok a.
Proof.
  intros H. rewrite getitem_nat, H. reflexivity.
Qed.

Lemma py_int_some (tok : string) (z : Z) :
  int_of_string tok = Some z -> py_int tok = Ok z.
Proof.
  intros H. unfold py_int. rewrite H. reflexivity.
Qed.

(** C7. Inside the element section, a record whose type field (field 1) is
    2 appends one element to [element_vector], with the record number of
    field 0 and the three corners read from the fields 5, 6 and 7 of the
    split line: the new [element_vector] is the old one followed by that
    element, and the flags and [node_vector] are as before.  A record of
    any other type is read and leaves [element_vector], and the whole
    reader state, as it was. *)
Theorem only_type_2_records_are_retained (st : reader) (line : string)
  (t0 t1 : string) (num ty : Z) :
  plain line = true ->
  node_read st = 0%Z ->
  element_read st = 2%Z ->
  nth_error (split line) 0 = Some t0 ->
  int_of_string t0 = Some num ->
  nth_error (split line) 1 = Some t1 ->
  int_of_string t1 = Some ty ->
  (ty <> 2%Z -> read_line st line = Ok st)
  /\ (ty = 2%Z ->
      forall (t5 t6 t7 : string) (n0 n1 n2 : Z),
        nth_error (split line) 5 = Some t5 ->
        int_of_string t5 = Some n0 ->
        nth_error (split line) 6 = Some t6 ->
        int_of_string t6 = Some n1 ->
        nth_error (split line) 7 = Some t7 ->
        int_of_string t7 = Some n2 ->
        read_line st line
        = Ok (mkReader (node_read st) (node_vector st) (element_read st)
                (element_vector st ++ [Obj (mkElement num 2 [n0; n1; n2])]))).
Proof.
  intros Hp Hn He H0 I0 H1 I1.
  rewrite (read_line_plain st line Hp), Hn. simpl.
  unfold element_part. rewrite He. simpl.
  unfold read_element.
  rewrite (getitem_some _ 0 H0 : getitem (split line) 0 = Ok t0). simpl.
  rewrite (py_int_some _ I0). simpl.
  rewrite (getitem_some _ 1 H1 : getitem (split line) 1 = Ok t1). simpl.
  rewrite (py_int_some _ I1). simpl.
  split.
  - intros Hty. destruct (Z.eqb_spec ty 2) as [E|E]; [contradiction|].
    reflexivity.
  - intros -> t5 t6 t7 n0 n1 n2 H5 I5 H6 I6 H7 I7. simpl.
    rewrite (getitem_some _ 5 H5 : getitem (split line) 5 = Ok t5). simpl.
    rewrite (py_int_some _ I5). simpl.
    rewrite (getitem_some _ 6 H6 : getitem (split line) 6 = Ok t6). simpl.
    rewrite (py_int_some _ I6). simpl.
    rewrite (getitem_some _ 7 H7 : getitem (split line) 7 = Ok t7). simpl.
    rewrite (py_int_some _ I7). simpl. unfold append_element.
    rewrite Hn, He. reflexivity.
Qed.

End Records.

(** ** Faulty meshes *)

Section Faults.

Context {collab : Collaborators}.

Lemma bind_raise_inv {A B : Type} (m : result A) (k : A -> result B) (e : exn) :
  bind m k = Raise e -> m = Raise e \/ exists a, m = Ok a /\ k a = Raise e.
Proof.
  destruct m as [a|e']; simpl; intros H.
  - right. exists a. split; [reflexivity | exact H].
  - left. injection H as ->. reflexivity.
Qed.

(** A node record without its four numeric fields makes [read_node] raise:
    [IndexError] for a missing field, [ValueError] for a field that is not
    a number. *)
Lemma read_node_without_fields (line : string) :
  ~ node_fields line ->
  read_node line = Raise IndexError \/ read_node line = Raise ValueError.
Proof.
  intros Hno. unfold read_node, py_int, py_float.
  destruct (split line) as [|t0 l0] eqn:E; [left; reflexivity|]. simpl.
  destruct (int_of_string t0) eqn:I0; simpl; [|right; reflexivity].
  destruct l0 as [|t1 l1]; [left; reflexivity|]. simpl.
  destruct (float_of_string t1) eqn:F1; simpl; [|right; reflexivity].
  destruct l1 as [|t2 l2]; [left; reflexivity|]. simpl.
  destruct (float_of_string t2) eqn:F2; simpl; [|right; reflexivity].
  destruct l2 as [|t3 rest]; [left; reflexivity|]. simpl.
  destruct (float_of_string t3) eqn:F3; simpl; [|right; reflexivity].
  exfalso. apply Hno. exists t0, t1, t2, t3, rest.
  repeat split; congruence.
Qed.

(** An element record without its numeric fields makes [read_element]
    raise in the same way. *)
Lemma read_element_without_fields (line : string) :
  ~ element_fields line ->
  read_element line = Raise IndexError \/ read_element line = Raise ValueError.
Proof.
  intros Hno. unfold read_element, py_int.
  destruct (split line) as [|t0 l0] eqn:E; [left; reflexivity|]. simpl.
  destruct (int_of_string t0) eqn:I0; simpl; [|right; reflexivity].
  destruct l0 as [|t1 l1]; [left; reflexivity|]. simpl.
  destruct (int_of_string t1) as [ty|] eqn:I1; simpl; [|right; reflexivity].
  destruct (Z.eqb_spec ty 2) as [Hty|Hty].
  - destruct l1 as [|t2 [|t3 [|t4 [|t5 l5]]]]; try (left; reflexivity). simpl.
    destruct (int_of_string t5) eqn:I5; simpl; [|right; reflexivity].
    destruct l5 as [|t6 l6]; [left; reflexivity|]. simpl.
    destruct (int_of_string t6) eqn:I6; simpl; [|right; reflexivity].
    destruct l6 as [|t7 rest]; [left; reflexivity|]. simpl.
    destruct (int_of_string t7) eqn:I7; simpl; [|right; reflexivity].
    exfalso. apply Hno.
    exists t0, t1, (t2 :: t3 :: t4 :: t5 :: t6 :: t7 :: rest), ty.
    repeat split; try congruence.
    intros _. exists t2, t3, t4, t5, t6, t7, rest. repeat split; congruence.
  - exfalso. apply Hno. exists t0, t1, l1, ty.
    repeat split; congruence.
Qed.

(** The reading loop stops at the first line that raises. *)
Lemma load_mesh_raise (pre post : list string) (line : string) (st : reader)
  (e : exn) :
  load_mesh pre = Ok st -> read_line st line = Raise e ->
  load_mesh (pre ++ line :: post) = Raise e.
Proof.
  unfold load_mesh. intros Hpre Hline.
  rewrite for_each_app, Hpre. simpl. rewrite Hline. reflexivity.
Qed.

Lemma car_solar_flux_load_raise (mesh : list string) (lat lon : R)
  (timezone year month day hour : Z) (minute z_rotate : R) (e : exn) :
  load_mesh mesh = Raise e ->
  car_solar_flux mesh lat lon timezone year month day hour minute z_rotate
  = Raise e.
Proof.
  intros H. unfold car_solar_flux. rewrite H. reflexivity.
Qed.

(** The file with and without a closing [$EndElements] as last line. *)
Lemma car_solar_flux_elements_close (mesh : list string) (line : string)
  (lat lon : R) (timezone year month day hour : Z) (minute z_rotate : R) :
  marker_of line = ElementsClose ->
  car_solar_flux (mesh ++ [line]) lat lon timezone year month day hour minute
    z_rotate
  = car_solar_flux mesh lat lon timezone year month day hour minute z_rotate.
Proof.
  intros M. unfold car_solar_flux.
  rewrite (load_mesh_elements_close mesh line M).
  destruct (load_mesh mesh) as [st|e]; reflexivity.
Qed.

Lemma getitem_raise {A : Type} (l : list A) (i : Z) (e : exn) :
  getitem l i = Raise e -> e = IndexError.
Proof.
  unfold getitem.
  destruct ((if (i <? 0)%Z then (np_size l + i)%Z else i) <? 0)%Z.
  - intros H. injection H as <-. reflexivity.
  - destruct (nth_error l _); [discriminate|].
    intros H. injection H as <-. reflexivity.
Qed.

Lemma getitem_ok_range {A : Type} (l : list A) (i : Z) (a : A) :
  getitem l i = Ok a -> (- np_size l <= i < np_size l)%Z.
Proof.
  unfold getitem, np_size.
  destruct (Z.ltb_spec i 0) as [Hi|Hi].
  - destruct (Z.ltb_spec (Z.of_nat (List.length l) + i) 0) as [Hj|Hj];
      [discriminate|].
    intros _. lia.
  - destruct (Z.ltb_spec i 0) as [Hj|Hj]; [discriminate|].
    destruct (nth_error l (Z.to_nat i)) eqn:E; [|discriminate].
    intros _.
    assert (Hlt : (Z.to_nat i < List.length l)%nat).
    { apply nth_error_Some. rewrite E. discriminate. }
    lia.
Qed.

Lemma position_raise (nodes : list (entry NodeVector)) (n : Z) (e : exn) :
  position nodes n = Raise e -> e = IndexError \/ e = AttributeError.
Proof.
  unfold position. intros H. apply bind_raise_inv in H.
  destruct H as [H | [x [_ H]]].
  - left. exact (getitem_raise _ _ H).
  - right. destruct x; [|discriminate]. injection H as <-. reflexivity.
Qed.

Lemma position_ok_range (nodes : list (entry NodeVector)) (n : Z) (p : vec3) :
  position nodes n = Ok p -> (- np_size nodes <= n < np_size nodes)%Z.
Proof.
  unfold position. intros H. apply bind_ok_inv in H.
  destruct H as [x [H _]]. exact (getitem_ok_range _ _ H).
Qed.

(** The normal loop raises nothing but [IndexError] and [AttributeError]. *)
Lemma element_normal_raise (nodes : list (entry NodeVector))
  (x : entry ElementVector) (e : exn) :
  element_normal nodes x = Raise e -> e = IndexError \/ e = AttributeError.
Proof.
  unfold element_normal. intros H.
  repeat (apply bind_raise_inv in H;
          destruct H as [H | [? [_ H]]];
          [ first [ left; exact (getitem_raise _ _ H)
                  | exact (position_raise _ _ H)
                  | right; destruct x; [|discriminate];
                    injection H as <-; reflexivity ] |]).
  discriminate H.
Qed.

Lemma normals_of_raise (nodes : list (entry NodeVector))
  (es : list (entry ElementVector)) (e : exn) :
  normals_of nodes es = Raise e -> e = IndexError \/ e = AttributeError.
Proof.
  induction es as [|x es IH]; simpl; intros H; [discriminate|].
  apply bind_raise_inv in H. destruct H as [H | [n [_ H]]].
  - exact (element_normal_raise _ _ H).
  - apply bind_raise_inv in H. destruct H as [H | [ns [_ H]]].
    + exact (IH H).
    + discriminate H.
Qed.

Lemma geometry_raise (nodes : list (entry NodeVector))
  (elements : list (entry ElementVector)) (e : exn) :
  geometry nodes elements = Raise e -> e = IndexError \/ e = AttributeError.
Proof.
  destruct elements as [|e0 es].
  - rewrite geometry_nil. discriminate.
  - rewrite geometry_normals. intros H.
    apply bind_raise_inv in H. destruct H as [H | [ns [_ H]]].
    + exact (normals_of_raise _ _ H).
    + discriminate H.
Qed.

(** A normal that was computed has its three corners in the node table. *)
Lemma element_normal_ok_range (nodes : list (entry NodeVector))
  (x : ElementVector) (normal : vec3) (n : Z) :
  element_normal nodes (Obj x) = Ok normal ->
  triangle_shaped x ->
  In n (ele_vec x) ->
  (- np_size nodes <= n < np_size nodes)%Z.
Proof.
  intros H [_ Hlen] Hin.
  destruct (ele_vec x) as [|n0 [|n1 [|n2 [|n3 rest]]]] eqn:Ev;
    try discriminate Hlen.
  unfold element_normal in H. simpl in H. rewrite Ev in H. simpl in H.
  ok_bind H p1 H1. ok_bind H p0 H0. ok_bind H p2 H2.
  destruct Hin as [<- | [<- | [<- | []]]].
  - exact (position_ok_range _ _ H0).
  - exact (position_ok_range _ _ H1).
  - exact (position_ok_range _ _ H2).
Qed.

Lemma Forall2_In_l {A B : Type} (P : A -> B -> Prop) (l1 : list A)
  (l2 : list B) (a : A) :
  Forall2 P l1 l2 -> In a l1 -> exists b, P a b.
Proof.
  induction 1 as [|x y l1' l2' Hxy _ IH]; intros Hin.
  - destruct Hin.
  - destruct Hin as [<- | Hin]; [exists y; exact Hxy | exact (IH Hin)].
Qed.

(** A retained triangle with a corner index outside the node table makes
    the normal loop, and so the whole computation, raise. *)
Lemma car_solar_flux_corner_out_of_range (mesh : list string) (lat lon : R)
  (timezone year month day hour : Z) (minute z_rotate : R)
  (st : reader) (x : ElementVector) (n : Z) :
  load_mesh mesh = Ok st ->
  In x (retained_triangles mesh) ->
  In n (ele_vec x) ->
  (np_size (node_vector st) <= n \/ n < - np_size (node_vector st))%Z ->
  car_solar_flux mesh lat lon timezone year month day hour minute z_rotate
  = Raise IndexError
  \/ car_solar_flux mesh lat lon timezone year month day hour minute z_rotate
     = Raise AttributeError.
Proof.
  intros Hload Hx Hn Hout.
  rewrite (retained_triangles_loaded _ Hload) in Hx.
  destruct (load_mesh_inv _ Hload) as [_ [Hhd Hsh]].
  destruct (geometry (node_vector st) (element_vector st)) as [[ns area]|e]
    eqn:G.
  - exfalso.
    destruct (geometry_ok _ _ Hhd G) as [F _].
    destruct (@Forall2_In_l _ _ _ _ _ x F Hx) as [normal Hnormal].
    rewrite Forall_forall in Hsh.
    pose proof (element_normal_ok_range _ _ Hnormal (Hsh x Hx) Hn). lia.
  - assert (E : car_solar_flux mesh lat lon timezone year month day hour
                  minute z_rotate = Raise e).
    { unfold car_solar_flux. rewrite Hload. simpl. rewrite G. reflexivity. }
    rewrite E. destruct (geometry_raise _ _ G) as [-> | ->]; auto.
Qed.

(** C4, as the code has it.  The reading loop does not check the section
    markers: a file and the same file without its last line [$EndElements]
    give the same result.  A record of the node section without its four
    numeric fields, and a record of the element section without its numeric
    fields, stop the computation at that line with [IndexError] (missing
    field) or [ValueError] (field that is not a number).  A retained
    triangle with a corner index outside the node table stops the
    computation in the normal loop with [IndexError] or [AttributeError].
    In each of these cases no result is returned. *)
Theorem faulty_meshes_as_the_code_treats_them (lat lon : R)
  (timezone year month day hour : Z) (minute z_rotate : R) :
  let run := fun mesh =>
    car_solar_flux mesh lat lon timezone year month day hour minute z_rotate in
  (forall (mesh : list string) (line : string),
     marker_of line = ElementsClose -> run (mesh ++ [line]) = run mesh)
  /\ (forall (pre post : list string) (line : string) (st : reader),
        load_mesh pre = Ok st ->
        plain line = true ->
        node_read st = 2%Z ->
        ~ node_fields line ->
        run (pre ++ line :: post) = Raise IndexError
        \/ run (pre ++ line :: post) = Raise ValueError)
  /\ (forall (pre post : list string) (line : string) (st : reader),
        load_mesh pre = Ok st ->
        plain line = true ->
        node_read st = 0%Z ->
        element_read st = 2%Z ->
        ~ element_fields line ->
        run (pre ++ line :: post) = Raise IndexError
        \/ run (pre ++ line :: post) = Raise ValueError)
  /\ (forall (mesh : list string) (st : reader) (x : ElementVector) (n : Z),
        load_mesh mesh = Ok st ->
        In x (retained_triangles mesh) ->
        In n (ele_vec x) ->
        (np_size (node_vector st) <= n \/ n < - np_size (node_vector st))%Z ->
        run mesh = Raise IndexError \/ run mesh = Raise AttributeError).
Proof.
  intros run. subst run. cbv beta. repeat split.
  - intros mesh line M. apply car_solar_flux_elements_close. exact M.
  - intros pre post line st Hpre Hp Hn Hno.
    assert (Hline : read_line st line = Raise IndexError
                    \/ read_line st line = Raise ValueError).
    { rewrite (read_line_plain st line Hp), Hn. simpl.
      destruct (read_node_without_fields Hno) as [-> | ->]; auto. }
    destruct Hline as [H|H]; [left | right];
      apply car_solar_flux_load_raise;
      exact (@load_mesh_raise pre post line st _ Hpre H).
  - intros pre post line st Hpre Hp Hn He Hno.
    assert (Hline : read_line st line = Raise IndexError
                    \/ read_line st line = Raise ValueError).
    { rewrite (read_line_plain st line Hp), Hn. simpl.
      unfold element_part. rewrite He. simpl.
      destruct (read_element_without_fields Hno) as [-> | ->]; auto. }
    destruct Hline as [H|H]; [left | right];
      apply car_solar_flux_load_raise;
      exact (@load_mesh_raise pre post line st _ Hpre H).
  - intros mesh st x n. apply car_solar_flux_corner_out_of_range.
Qed.

End Faults.

(** ** Well-formed meshes *)

Section WellFormed.

Context {collab : Collaborators}.

Lemma retained_triangles_well_formed (g : gmsh) :
  well_formed g = true ->
  retained_triangles (gmsh_lines g) = triangles_of (element_records g).
Proof.
  intros Hwf. rewrite (retained_triangles_loaded _ (load_mesh_well_formed g Hwf)).
  simpl. induction (triangles_of (element_records g)) as [|x l IH];
    simpl; [reflexivity | rewrite IH; reflexivity].
Qed.

Lemma triangles_of_shaped (records : list string) :
  Forall triangle_shaped (triangles_of records).
Proof.
  induction records as [|line records IH]; simpl; [constructor|].
  destruct (read_element line) as [[x|]|e] eqn:E; simpl; try exact IH.
  constructor; [exact (read_element_shape _ E) | exact IH].
Qed.

(** The node at position [n] of a table made of the placeholder and [k]
    nodes, for [n] from 1 to [k]. *)
Lemma position_in_table (ns : list NodeVector) (n : Z) :
  (1 <= n <= Z.of_nat (List.length ns))%Z ->
  exists p, position (Placeholder :: map Obj ns) n = Ok p.
Proof.
  intros Hn. unfold position, getitem.
  destruct (Z.ltb_spec n 0) as [H|H]; [lia|].
  destruct (Z.ltb_spec n 0) as [H'|H']; [lia|].
  destruct (Z.to_nat n) as [|m] eqn:Em; [lia|]. simpl.
  destruct (nth_error ns m) as [a|] eqn:Ea.
  - rewrite (map_nth_error Obj _ _ Ea). simpl. exists (node_vec a). reflexivity.
  - apply nth_error_None in Ea. lia.
Qed.

Lemma normals_of_in_table (ns : list NodeVector) (xs : list ElementVector) :
  Forall triangle_shaped xs ->
  (forall x, In x xs -> forall n, In n (ele_vec x) ->
     (1 <= n <= Z.of_nat (List.length ns))%Z) ->
  exists normal_vec,
    normals_of (Placeholder :: map Obj ns) (map Obj xs) = Ok normal_vec.
Proof.
  induction xs as [|x xs IH]; intros Hsh Hin.
  - exists []. reflexivity.
  - inversion Hsh as [|? ? [_ Hlen] Hsh']; subst.
    destruct IH as [rest Hrest]; [exact Hsh' | |].
    { intros y Hy. apply Hin. right. exact Hy. }
    destruct (ele_vec x) as [|n0 [|n1 [|n2 [|n3 l]]]] eqn:Ev;
      try discriminate Hlen.
    assert (Hc : forall n, In n [n0; n1; n2] ->
                 (1 <= n <= Z.of_nat (List.length ns))%Z).
    { intros n Hn. apply (Hin x); [left; reflexivity | rewrite Ev; exact Hn]. }
    destruct (position_in_table ns (Hc n0 (or_introl eq_refl))) as [p0 H0].
    destruct (position_in_table ns (Hc n1 (or_intror (or_introl eq_refl))))
      as [p1 H1].
    destruct (position_in_table ns
                (Hc n2 (or_intror (or_intror (or_introl eq_refl)))))
      as [p2 H2].
    exists (canonical (cross (subtract p1 p0) (subtract p2 p0)) :: rest).
    cbn [map normals_of].
    rewrite (element_normal_corners _ _ Ev H0 H1 H2). simpl.
    rewrite Hrest. reflexivity.
Qed.

(** On a well-formed mesh whose triangles name nodes of the file,
    [car_solar_flux] returns a result; its count is the number of triangles
    of the file plus one. *)
Lemma car_solar_flux_well_formed (g : gmsh) (lat lon : R)
  (timezone year month day hour : Z) (minute z_rotate : R) :
  well_formed g = true ->
  corners_in_table g ->
  exists (flux area : R) (neg_count : Z),
    car_solar_flux (gmsh_lines g) lat lon timezone year month day hour minute
      z_rotate
    = Ok (flux, area,
          (1 + Z.of_nat (List.length (triangles_of (element_records g))))%Z,
          neg_count).
Proof.
  intros Hwf Hc.
  pose proof (load_mesh_well_formed g Hwf) as Hload.
  destruct (normals_of_in_table (nodes_of (node_records g))
              (triangles_of_shaped (element_records g)) Hc) as [ns Hns].
  assert (Hgeo : geometry
                   (Placeholder :: map Obj (nodes_of (node_records g)))
                   (Placeholder :: map Obj (triangles_of (element_records g)))
                 = Ok (ns, Rsum (map area_of ns))).
  { rewrite geometry_normals, Hns. reflexivity. }
  rewrite (car_solar_flux_ok (gmsh_lines g) lat lon timezone year month day
             hour minute z_rotate Hload Hgeo).
  do 3 eexists. f_equal. f_equal. f_equal.
  cbn [element_vector]. unfold np_size. cbn [List.length].
  rewrite length_map. lia.
Qed.

End WellFormed.

(** ** Turns of the sun vector *)

Local Open Scope R_scope.

Lemma deg2rad_360 : deg2rad 360 = 2 * PI.
Proof. unfold deg2rad. lra. Qed.

Lemma deg2rad_plus (a b : R) : deg2rad (a + b) = deg2rad a + deg2rad b.
Proof. unfold deg2rad. lra. Qed.

(** A heading of 360 degrees gives the sun vector of the heading 0. *)
Lemma sun_vector_full_turn (h_corr azimuth julian_day : R) :
  sun_vector h_corr azimuth julian_day 360
  = sun_vector h_corr azimuth julian_day 0.
Proof.
  rewrite sun_vector_no_heading, sun_vector_components. cbv zeta.
  rewrite deg2rad_360, sin_2PI, cos_2PI. apply vec3_ext; lra.
Qed.

(** The rotation of the spec composes: a turn by [t1] then by [t2] is the
    turn by [t1 + t2]. *)
Lemma rotate_z_compose (t1 t2 : R) (v : vec3) :
  rotate_z t2 (rotate_z t1 v) = rotate_z (t1 + t2) v.
Proof.
  unfold rotate_z, vx, vy, vz. simpl.
  rewrite deg2rad_plus, cos_plus, sin_plus. apply vec3_ext; ring.
Qed.

(** The sun vector is the turned raw vector exactly when the second
    components agree; its first and third components always do. *)
Lemma sun_vector_first_third (h_corr azimuth julian_day z_rotate : R) :
  let turned := rotate_z z_rotate (sun_vector h_corr azimuth julian_day 0) in
  vx (sun_vector h_corr azimuth julian_day z_rotate) = vx turned
  /\ vz (sun_vector h_corr azimuth julian_day z_rotate) = vz turned
  /\ vy turned = rotated_y h_corr azimuth z_rotate.
Proof.
  cbv zeta. rewrite sun_vector_no_heading.
  unfold sun_vector, rotate_z, rotated_y, vx, vy, vz. simpl.
  repeat split; reflexivity.
Qed.

Local Close Scope R_scope.

(** ** Concrete meshes *)

Local Open Scope R_scope.

(** C3, on the plate.  The file has four elements, of which two triangles
    are retained; [car_solar_flux] returns 3 for element count, the size of
    [element_vector] with its placeholder. *)
Theorem ele_count_counts_the_placeholder :
  car_solar_flux (collab := sky_up) plate 43 (-80) (-5) 2017 6 21 12 0 0
  = Ok (239, 1, 3%Z, 0%Z)
  /\ List.length (retained_triangles (collab := sky_up) plate) = 2%nat.
Proof.
  split; [exact plate_up | reflexivity].
Qed.

Lemma renumbered_load (h_corr azimuth julian_day irr : R) :
  load_mesh (collab := fixed_sky h_corr azimuth julian_day irr) renumbered
  = Ok renumbered_state.
Proof. reflexivity. Qed.

Lemma renumbered_geometry :
  geometry (node_vector renumbered_state) (element_vector renumbered_state)
  = Ok ([(0, 0, 1000000)], 1 / 2).
Proof.
  change (element_vector renumbered_state)
    with (Placeholder :: tl (element_vector renumbered_state)).
  rewrite geometry_normals.
  unfold renumbered_state. cbn [normals_of tl element_vector node_vector].
  rewrite (@element_normal_corners _ _ 1%Z 2%Z 3%Z (0, 0, 0) (1000, 0, 0)
             (0, 1000, 0)) by reflexivity.
  rewrite canonical_up by (unfold cross, subtract, vx, vy, vz; simpl; lra).
  replace (cross (subtract (1000, 0, 0) (0, 0, 0))
             (subtract (0, 1000, 0) (0, 0, 0)))
    with ((0, 0, 1000000) : vec3)
    by (unfold cross, subtract, vx, vy, vz; simpl; apply vec3_ext; lra).
  simpl. rewrite plate_triangle_area. f_equal. f_equal. lra.
Qed.

Lemma renumbered_up :
  car_solar_flux (collab := sky_up) renumbered 43 (-80) (-5) 2017 6 21 12 0 0
  = Ok (239 / 2, 1 / 2, 2%Z, 0%Z).
Proof.
  rewrite (car_solar_flux_ok (collab := sky_up) renumbered 43 (-80) (-5) 2017
             6 21 12 0 0 (renumbered_load _ _ _ _) renumbered_geometry).
  unfold sun_of, irr_of, sky_up, fixed_sky. cbn [solar_angles irradiance].
  rewrite sun_vector_up.
  unfold shaded, clamped_contribution, clamp, negative.
  cbn [map filter]. rewrite plate_contribution_up.
  destruct (Rlt_dec (239 / 2) 0) as [H|H]; [lra|].
  cbn [Rsum fold_right List.length].
  replace (239 / 2 + 0) with (239 / 2) by lra. reflexivity.
Qed.

Lemma plate_last_line : plate = plate_open ++ [last plate EmptyString].
Proof. reflexivity. Qed.

(** C4 fails on two files.  The plate without its line [$EndElements], a
    file in which no line holds that marker, is read and gives the result
    of the plate.  The file [renumbered], whose nodes are numbered 10, 20
    and 30 and whose triangle names the nodes 1, 2 and 3, is read and gives
    a result too: a corner is looked up by position in the node table, not
    by node identifier. *)
Lemma unclosed_and_renumbered_meshes_are_accepted :
  (existsb (found "$EndElements") plate_open = false
   /\ car_solar_flux (collab := sky_up) plate_open 43 (-80) (-5) 2017 6 21 12
        0 0
      = Ok (239, 1, 3%Z, 0%Z))
  /\ (map node_num (objects (node_vector renumbered_state))
      = [10; 20; 30]%Z
      /\ map ele_vec (retained_triangles (collab := sky_up) renumbered)
         = [[1; 2; 3]%Z]
      /\ car_solar_flux (collab := sky_up) renumbered 43 (-80) (-5) 2017 6 21
           12 0 0
         = Ok (239 / 2, 1 / 2, 2%Z, 0%Z)).
Proof.
  split; [split | split; [|split]].
  - reflexivity.
  - rewrite <- plate_up, plate_last_line.
    symmetry. apply car_solar_flux_elements_close. reflexivity.
  - reflexivity.
  - reflexivity.
  - exact renumbered_up.
Qed.

Local Close Scope R_scope.

(** ** The theorems at concrete inputs *)

Local Open Scope R_scope.

(** C2 on the plate under [sky_up]. *)
Lemma flux_sums_every_retained_triangle_plate :
  Forall2 (fun x n => element_normal (node_vector plate_state) (Obj x) = Ok n)
    (retained_triangles (collab := sky_up) plate)
    [(0, 0, 1000000); (0, 0, 1000000)]
  /\ exists ele_count neg_count,
       car_solar_flux (collab := sky_up) plate 43 (-80) (-5) 2017 6 21 12 0 0
       = Ok (Rsum (map (clamped_contribution
                          (sun_of (collab := sky_up) 43 (-80) (-5) 2017 6 21
                             12 0 0)
                          (irr_of (collab := sky_up) 43 (-80) (-5) 2017 6 21
                             12 0))
                     [(0, 0, 1000000); (0, 0, 1000000)]),
             1, ele_count, neg_count).
Proof.
  exact (flux_sums_every_retained_triangle (collab := sky_up) plate 43 (-80)
           (-5) 2017 6 21 12 0 0 (plate_load _ _ _ _) plate_geometry).
Defined.

(** C6 on the plate under [sky_down]. *)
Lemma shaded_triangles_add_nothing_and_are_counted_plate :
  let sun := sun_of (collab := sky_down) 43 (-80) (-5) 2017 6 21 12 0 0 in
  let irr := irr_of (collab := sky_down) 43 (-80) (-5) 2017 6 21 12 0 in
  exists ele_count,
    car_solar_flux (collab := sky_down) plate 43 (-80) (-5) 2017 6 21 12 0 0
    = Ok (Rsum (map (raw_contribution sun irr)
                  (lit sun irr [(0, 0, 1000000); (0, 0, 1000000)])),
          1, ele_count,
          Z.of_nat (List.length
                      (shaded sun irr [(0, 0, 1000000); (0, 0, 1000000)]))).
Proof.
  exact (proj2 (shaded_triangles_add_nothing_and_are_counted
                  (collab := sky_down) plate 43 (-80) (-5) 2017 6 21 12 0 0
                  (plate_load _ _ _ _) plate_geometry)).
Defined.

(** C10 on the mesh [wire]. *)
Lemma mesh_without_triangles_counts_one_wire :
  retained_triangles (collab := sky_up) (gmsh_lines wire) = [] /\
  car_solar_flux (collab := sky_up) (gmsh_lines wire) 43 (-80) (-5) 2017 6 21
    12 0 0
  = Ok (0, 0, 1%Z, 0%Z).
Proof.
  apply (mesh_without_triangles_counts_one (collab := sky_up) wire);
    reflexivity.
Defined.

(** C7 on a triangle record and on a point record. *)
Lemma only_type_2_records_are_retained_examples :
  read_line (collab := sky_up) in_elements "4 2 2 0 1 2 3 4"
  = Ok (mkReader 0 [] 2 [Placeholder; Obj (mkElement 4 2 [2; 3; 4]%Z)])
  /\ read_line (collab := sky_up) in_elements "1 15 2 0 1 1" = Ok in_elements.
Proof.
  split.
  - apply (proj2 (@only_type_2_records_are_retained sky_up in_elements
                    "4 2 2 0 1 2 3 4" "4" "2" 4 2 eq_refl eq_refl eq_refl
                    eq_refl eq_refl eq_refl eq_refl) eq_refl
             "2"%string "3"%string "4"%string);
      reflexivity.
  - apply (proj1 (@only_type_2_records_are_retained sky_up in_elements
                    "1 15 2 0 1 1" "1" "15" 1 15 eq_refl eq_refl eq_refl
                    eq_refl eq_refl eq_refl eq_refl)).
    discriminate.
Defined.

(** C4 as amended, on four files: the plate without its last line, a node
    record of three fields, a triangle record of seven fields, and a
    triangle that names a ninth node among three. *)
Lemma faulty_meshes_examples :
  let run := fun mesh =>
    car_solar_flux (collab := sky_up) mesh 43 (-80) (-5) 2017 6 21 12 0 0 in
  run (plate_open ++ [last plate EmptyString]) = run plate_open
  /\ (run ["$Nodes"; "2"; "1 0 0"; "2 1000 0 0"; "$EndNodes"]%string
      = Raise IndexError
      \/ run ["$Nodes"; "2"; "1 0 0"; "2 1000 0 0"; "$EndNodes"]%string
         = Raise ValueError)
  /\ (run ["$Elements"; "1"; "1 2 2 0 1 1 2"; "$EndElements"]%string
      = Raise IndexError
      \/ run ["$Elements"; "1"; "1 2 2 0 1 1 2"; "$EndElements"]%string
         = Raise ValueError)
  /\ (run dangling = Raise IndexError \/ run dangling = Raise AttributeError).
Proof.
  intros run.
  destruct (faulty_meshes_as_the_code_treats_them (collab := sky_up) 43 (-80)
              (-5) 2017 6 21 12 0 0) as [A [B [C D]]].
  split; [|split; [|split]].
  - apply A. reflexivity.
  - apply (B ["$Nodes"; "2"]%string ["2 1000 0 0"; "$EndNodes"]%string
             "1 0 0"%string (mkReader 2 [Placeholder] 0 []));
      try reflexivity.
    intros [t0 [t1 [t2 [t3 [rest [E _]]]]]]. discriminate E.
  - apply (C ["$Elements"; "1"]%string ["$EndElements"]%string
             "1 2 2 0 1 1 2"%string (mkReader 0 [] 2 [Placeholder]));
      try reflexivity.
    intros [t0 [t1 [rest [ty [E [_ [I1 H]]]]]]].
    injection E as <- <- <-. injection I1 as <-.
    destruct (H eq_refl) as [t2 [t3 [t4 [t5 [t6 [t7 [rest' [E' _]]]]]]]].
    discriminate E'.
  - apply (D dangling
             (mkReader 0
                [Placeholder; Obj (mkNode 1 (0, 0, 0));
                 Obj (mkNode 2 (1000, 0, 0)); Obj (mkNode 3 (0, 1000, 0))]
                0 [Placeholder; Obj (mkElement 1 2 [1; 2; 9]%Z)])
             (mkElement 1 2 [1; 2; 9]%Z) 9%Z).
    + reflexivity.
    + left. reflexivity.
    + right. right. left. reflexivity.
    + left. unfold np_size. simpl. lia.
Defined.

Local Close Scope R_scope.

(** * Rounding, infinities and NaN

    The statements above on normals, areas and flux are statements on real
    numbers.  This part gives what holds of them on the binary64 numbers of
    the code, and inputs on which the rest fails there. *)

Section Binary64Facts.

Import PrimFloat SpecFloat.

(** ** Signs of rounded results *)

Lemma shr_1_nonneg (mrs : shr_record) :
  (0 <= shr_m mrs)%Z -> (0 <= shr_m (shr_1 mrs))%Z.
Proof.
  destruct mrs as [m r s]. simpl.
  destruct m as [|p|p]; [simpl; lia | | lia].
  destruct p; simpl; lia.
Qed.

Lemma iter_pos_shr_1_nonneg (p : positive) (mrs : shr_record) :
  (0 <= shr_m mrs)%Z -> (0 <= shr_m (iter_pos shr_1 p mrs))%Z.
Proof.
  revert mrs. induction p as [p IH|p IH|]; intros mrs H; simpl.
  - apply IH, IH, shr_1_nonneg, H.
  - apply IH, IH, H.
  - apply shr_1_nonneg, H.
Qed.

Lemma shr_fexp_nonneg (m e : Z) (l : location) :
  (0 <= m)%Z ->
  (0 <= shr_m (fst (shr_fexp FloatOps.prec FloatOps.emax m e l)))%Z.
Proof.
  intros H. unfold shr_fexp, shr.
  assert (H0 : (0 <= shr_m (shr_record_of_loc m l))%Z).
  { destruct l as [|[| |]]; simpl; exact H. }
  destruct (fexp FloatOps.prec FloatOps.emax (Zdigits2 m + e) - e)%Z;
    simpl; try exact H0.
  apply iter_pos_shr_1_nonneg, H0.
Qed.

Lemma round_nearest_even_nonneg (m : Z) (l : location) :
  (0 <= m)%Z -> (0 <= round_nearest_even m l)%Z.
Proof.
  intros H. destruct l as [|[| |]]; simpl; try lia.
  destruct (Z.even m); lia.
Qed.

Lemma binary_round_aux_at_least_zero (m e : Z) (l : location) :
  (0 <= m)%Z ->
  Binary64.at_least_zero
    (binary_round_aux FloatOps.prec FloatOps.emax false m e l).
Proof.
  intros H. unfold binary_round_aux.
  pose proof (shr_fexp_nonneg e l H) as H1.
  destruct (shr_fexp FloatOps.prec FloatOps.emax m e l) as [mrs' e'].
  simpl in H1.
  pose proof (shr_fexp_nonneg e' loc_Exact
                (round_nearest_even_nonneg (loc_of_shr_record mrs') H1)) as H2.
  destruct (shr_fexp FloatOps.prec FloatOps.emax
              (round_nearest_even (shr_m mrs') (loc_of_shr_record mrs')) e'
              loc_Exact) as [mrs'' e''].
  simpl in H2.
  destruct (shr_m mrs'') as [|p|p]; [exact I | | lia].
  destruct (e'' <=? FloatOps.emax - FloatOps.prec)%Z; reflexivity.
Qed.

Lemma binary_normalize_at_least_zero (m e : Z) :
  (0 <= m)%Z ->
  Binary64.at_least_zero
    (binary_normalize FloatOps.prec FloatOps.emax m e false).
Proof.
  intros H. unfold binary_normalize.
  destruct m as [|p|p]; [exact I | | lia].
  unfold binary_round.
  destruct (shl_align p e _) as [mz ez].
  apply binary_round_aux_at_least_zero. lia.
Qed.

Lemma SFadd_at_least_zero (x y : spec_float) :
  Binary64.at_least_zero x -> Binary64.at_least_zero y ->
  Binary64.at_least_zero (SFadd FloatOps.prec FloatOps.emax x y).
Proof.
  destruct x as [sx|sx| |sx mx ex], y as [sy|sy| |sy my ey]; simpl;
    intros Hx Hy; subst; try contradiction; try exact I; try reflexivity.
  - destruct sx, sy; exact I.
  - apply binary_normalize_at_least_zero. simpl. lia.
Qed.

Lemma SFmul_below_zero (x y : spec_float) :
  Binary64.below_zero x -> Binary64.below_zero y ->
  Binary64.at_least_zero (SFmul FloatOps.prec FloatOps.emax x y).
Proof.
  destruct x as [sx|sx| |sx mx ex], y as [sy|sy| |sy my ey]; simpl;
    intros Hx Hy; subst; try contradiction; try reflexivity.
  apply binary_round_aux_at_least_zero. lia.
Qed.

Lemma leb_zero (x : float) :
  (0 <=? x)%float = true <-> Binary64.at_least_zero (FloatOps.Prim2SF x).
Proof.
  rewrite FloatAxioms.leb_spec.
  change (FloatOps.Prim2SF 0%float) with (S754_zero false).
  destruct (FloatOps.Prim2SF x) as [s|s| |s m e]; simpl;
    try (destruct s); simpl; split; intros H; try reflexivity;
    try discriminate; try exact I; try contradiction.
Qed.

Lemma ltb_zero (x : float) :
  (x <? 0)%float = true <-> Binary64.below_zero (FloatOps.Prim2SF x).
Proof.
  rewrite FloatAxioms.ltb_spec.
  change (FloatOps.Prim2SF 0%float) with (S754_zero false).
  destruct (FloatOps.Prim2SF x) as [s|s| |s m e]; simpl;
    try (destruct s); simpl; split; intros H; try reflexivity;
    try discriminate; try exact I; try contradiction.
Qed.

Lemma is_nan_false (x : float) :
  is_nan x = false -> FloatOps.Prim2SF x <> S754_nan.
Proof.
  unfold is_nan. rewrite FloatAxioms.eqb_spec. intros H E.
  rewrite E in H. discriminate H.
Qed.

Lemma sign_cases (x : float) :
  is_nan x = false -> (x <? 0)%float = false -> (0 <=? x)%float = true.
Proof.
  intros Hn Hl. apply leb_zero. pose proof (is_nan_false _ Hn) as Hn'.
  assert (Hb : ~ Binary64.below_zero (FloatOps.Prim2SF x)).
  { intros Hb. apply ltb_zero in Hb. rewrite Hb in Hl. discriminate Hl. }
  destruct (FloatOps.Prim2SF x) as [s|s| |s m e]; simpl in *;
    try exact I; try (destruct s; [exfalso; apply Hb; reflexivity|reflexivity]).
  contradiction.
Qed.

Lemma flip_at_least_zero (x : float) :
  (x <? 0)%float = true -> (0 <=? x * (-1))%float = true.
Proof.
  intros H. apply leb_zero. rewrite FloatAxioms.mul_spec.
  apply SFmul_below_zero; [apply ltb_zero, H|].
  vm_compute. reflexivity.
Qed.

Lemma add_at_least_zero (x y : float) :
  (0 <=? x)%float = true -> (0 <=? y)%float = true ->
  (0 <=? x + y)%float = true.
Proof.
  intros Hx Hy. apply leb_zero. rewrite FloatAxioms.add_spec.
  apply SFadd_at_least_zero; apply leb_zero; assumption.
Qed.


Lemma SFcompare_refl (x : spec_float) :
  x <> S754_nan -> SFcompare x x = Some Eq.
Proof.
  destruct x as [s|s| |s m e]; simpl; intros H.
  - reflexivity.
  - destruct s; reflexivity.
  - contradiction.
  - rewrite Z.compare_refl, Pos.compare_cont_refl. destruct s; reflexivity.
Qed.

Lemma is_nan_true (x : float) :
  is_nan x = true <-> FloatOps.Prim2SF x = S754_nan.
Proof.
  unfold is_nan. rewrite FloatAxioms.eqb_spec. unfold SFeqb. split.
  - intros H. destruct (FloatOps.Prim2SF x) as [s|s| |s m e] eqn:E;
      try reflexivity; rewrite SFcompare_refl in H by discriminate;
      discriminate H.
  - intros ->. reflexivity.
Qed.

Lemma at_least_zero_not_nan (x : float) :
  (0 <=? x)%float = true -> is_nan x = false.
Proof.
  intros H. apply leb_zero in H.
  destruct (is_nan x) eqn:E; [|reflexivity].
  apply is_nan_true in E. rewrite E in H. contradiction.
Qed.

Lemma add_nan_l (x y : float) : is_nan x = true -> is_nan (x + y) = true.
Proof.
  intros H. apply is_nan_true in H. apply is_nan_true.
  rewrite FloatAxioms.add_spec, H. reflexivity.
Qed.

Lemma add_nan_r (x y : float) : is_nan y = true -> is_nan (x + y) = true.
Proof.
  intros H. apply is_nan_true in H. apply is_nan_true.
  rewrite FloatAxioms.add_spec, H.
  destruct (FloatOps.Prim2SF x); reflexivity.
Qed.

(** ** The flux loop on binary64 numbers *)

Lemma for_each_flux_body_binary64 (sun_vec : Binary64.vec) (irr : float)
  (ns : list Binary64.vec) :
  forall (f0 : float) (c0 : Z),
  for_each (Binary64.flux_body sun_vec irr) ns (f0, c0)
  = Ok (fold_left (Binary64.add_contribution sun_vec irr) ns f0,
        (c0 + Z.of_nat
                (List.length
                   (filter
                      (fun n =>
                         (Binary64.contribution sun_vec irr n <? 0)%float)
                      ns)))%Z).
Proof.
  induction ns as [|n ns IH]; intros f0 c0.
  - simpl. rewrite Z.add_0_r. reflexivity.
  - cbn [for_each fold_left filter]. unfold Binary64.flux_body at 1.
    unfold Binary64.add_contribution at 2. cbv zeta.
      destruct (Binary64.contribution sun_vec irr n <? 0)%float;
      cbn [bind fst snd]; rewrite IH; cbn [List.length]; f_equal; f_equal; lia.
Qed.

Lemma flux_sum_binary64_all (sun_vec : Binary64.vec) (irr : float)
  (ns : list Binary64.vec) :
  Binary64.flux_sum sun_vec irr ns (Z.of_nat (List.length ns) + 1)
  = Ok (fold_left (Binary64.add_contribution sun_vec irr) ns 0%float,
        Z.of_nat
          (List.length
             (filter
                (fun n => (Binary64.contribution sun_vec irr n <? 0)%float)
                ns))).
Proof.
  unfold Binary64.flux_sum.
  replace (range 0 (Z.of_nat (List.length ns) + 1 - 1))
    with (range (np_size (@nil Binary64.vec)) (np_size ([] ++ ns)))
    by (unfold np_size; simpl; f_equal; lia).
  change (Binary64.flux_step sun_vec irr ns)
    with (fun s i => x <- getitem ([] ++ ns) i ;;
                     Binary64.flux_body sun_vec irr s x).
  rewrite for_each_indexes. apply for_each_flux_body_binary64.
Qed.

Lemma fold_at_least_zero (sun_vec : Binary64.vec) (irr : float)
  (ns : list Binary64.vec) :
  forall f0 : float,
  (0 <=? f0)%float = true ->
  (forall n, In n ns ->
     is_nan (Binary64.contribution sun_vec irr n) = false) ->
  (0 <=? fold_left (Binary64.add_contribution sun_vec irr) ns f0)%float = true.
Proof.
  induction ns as [|n ns IH]; intros f0 H0 Hn; simpl; [exact H0|].
  apply IH; [|intros k Hk; apply Hn; right; exact Hk].
  unfold Binary64.add_contribution. cbv zeta.
  destruct (Binary64.contribution sun_vec irr n <? 0)%float eqn:E.
  - apply add_at_least_zero; [exact H0 | reflexivity].
  - apply add_at_least_zero; [exact H0|].
    apply sign_cases; [apply Hn; left; reflexivity | exact E].
Qed.

Lemma fold_nan_start (sun_vec : Binary64.vec) (irr : float)
  (ns : list Binary64.vec) :
  forall f0 : float,
  is_nan f0 = true ->
  is_nan (fold_left (Binary64.add_contribution sun_vec irr) ns f0) = true.
Proof.
  induction ns as [|n ns IH]; intros f0 H0; simpl; [exact H0|].
  apply IH. unfold Binary64.add_contribution. cbv zeta.
  destruct (_ <? _)%float; apply add_nan_l, H0.
Qed.

Lemma ltb_nan_l (x y : float) : is_nan x = true -> (x <? y)%float = false.
Proof.
  intros H. apply is_nan_true in H. rewrite FloatAxioms.ltb_spec, H.
  reflexivity.
Qed.

Lemma fold_nan_term (sun_vec : Binary64.vec) (irr : float)
  (ns : list Binary64.vec) :
  forall (f0 : float) (n : Binary64.vec),
  In n ns -> is_nan (Binary64.contribution sun_vec irr n) = true ->
  is_nan (fold_left (Binary64.add_contribution sun_vec irr) ns f0) = true.
Proof.
  induction ns as [|k ns IH]; intros f0 n Hin Hn; simpl; [contradiction|].
  destruct Hin as [->|Hin].
  - apply fold_nan_start. unfold Binary64.add_contribution. cbv zeta.
      rewrite (@ltb_nan_l _ 0%float Hn). apply add_nan_r, Hn.
  - exact (IH _ n Hin Hn).
Qed.

Lemma filter_length_le {A : Type} (f : A -> bool) (l : list A) :
  (List.length (filter f l) <= List.length l)%nat.
Proof.
  induction l as [|a l IH]; simpl; [lia|]. destruct (f a); simpl; lia.
Qed.

Lemma flux_loop_binary64 (sun_vec : Binary64.vec) (irr : float)
  (normal_vec : list Binary64.vec) :
  exists flux : float,
    Binary64.flux_sum sun_vec irr normal_vec
      (Z.of_nat (List.length normal_vec) + 1)
    = Ok (flux,
          Z.of_nat
            (List.length
               (filter
                  (fun normal =>
                     (Binary64.contribution sun_vec irr normal <? 0)%float)
                  normal_vec)))
    /\ ((0 <=? flux)%float = true <->
        forall normal, In normal normal_vec ->
          is_nan (Binary64.contribution sun_vec irr normal) = false).
Proof.
  eexists. split; [apply flux_sum_binary64_all|]. split.
  - intros H n Hin.
    destruct (is_nan (Binary64.contribution sun_vec irr n)) eqn:E;
      [|reflexivity].
    pose proof (fold_nan_term sun_vec irr normal_vec 0%float n Hin E) as Hf.
    rewrite (at_least_zero_not_nan H) in Hf. discriminate Hf.
  - intros H. apply fold_at_least_zero; [reflexivity | exact H].
Qed.


(** ** Coincident corners on binary64 numbers *)

Lemma is_finite_cases (x : float) :
  is_finite x = true ->
  match FloatOps.Prim2SF x with
  | S754_zero _ | S754_finite _ _ _ => True
  | _ => False
  end.
Proof.
  unfold is_finite, is_infinity, is_nan. intros H.
  apply negb_true_iff, orb_false_iff in H. destruct H as [Hn Hi].
  rewrite FloatAxioms.eqb_spec in Hn.
  rewrite FloatAxioms.eqb_spec, FloatAxioms.abs_spec in Hi.
  change (FloatOps.Prim2SF infinity) with (S754_infinity false) in Hi.
  destruct (FloatOps.Prim2SF x) as [s|s| |s m e]; try exact I.
  - discriminate Hi.
  - discriminate Hn.
Qed.

Lemma sub_self (x : float) : is_finite x = true -> (x - x)%float = 0%float.
Proof.
  intros H. apply is_finite_cases in H. apply FloatAxioms.Prim2SF_inj.
  rewrite FloatAxioms.sub_spec.
  change (FloatOps.Prim2SF 0%float) with (S754_zero false).
  destruct (FloatOps.Prim2SF x) as [s|s| |s m e]; try contradiction.
  - destruct s; reflexivity.
  - unfold FloatAxioms.SF64sub, SFsub. cbv zeta. rewrite Z.sub_diag.
    reflexivity.
Qed.

Lemma normal_of_coincident (p : Binary64.vec) :
  is_finite (Binary64.fx p) = true ->
  is_finite (Binary64.fy p) = true ->
  is_finite (Binary64.fz p) = true ->
  Binary64.normal_of p p p = (0, 0, 0)%float.
Proof.
  intros Hx Hy Hz. unfold Binary64.normal_of, Binary64.subtract.
  rewrite (sub_self _ Hx), (sub_self _ Hy), (sub_self _ Hz).
  vm_compute. reflexivity.
Qed.

Lemma SFmul_zero_r (x : spec_float) (s : bool) :
  Binary64.zero_or_nan (SFmul FloatOps.prec FloatOps.emax x (S754_zero s)).
Proof. destruct x; exact I. Qed.

Lemma SFmul_zero_or_nan_r (x y : spec_float) :
  Binary64.zero_or_nan y ->
  Binary64.zero_or_nan (SFmul FloatOps.prec FloatOps.emax x y).
Proof.
  destruct x, y; simpl; intros H; try contradiction; exact I.
Qed.

Lemma SFadd_zero_or_nan (x y : spec_float) :
  Binary64.zero_or_nan x -> Binary64.zero_or_nan y ->
  Binary64.zero_or_nan (SFadd FloatOps.prec FloatOps.emax x y).
Proof.
  destruct x as [sx| | |], y as [sy| | |]; simpl; intros Hx Hy;
    try contradiction; try exact I.
  destruct sx, sy; exact I.
Qed.

Lemma SFdiv_zero_or_nan (x y : spec_float) :
  Binary64.zero_or_nan x ->
  Binary64.zero_or_nan (SFdiv FloatOps.prec FloatOps.emax x y).
Proof.
  destruct x, y; simpl; intros H; try contradiction; exact I.
Qed.

Lemma contribution_null_normal (sun_vec : Binary64.vec) (irr : float) :
  Binary64.zero_or_nan
    (FloatOps.Prim2SF (Binary64.contribution sun_vec irr (0, 0, 0)%float)).
Proof.
  unfold Binary64.contribution, Binary64.dot, Binary64.fx, Binary64.fy,
    Binary64.fz. cbn [fst snd].
  rewrite FloatAxioms.div_spec. apply SFdiv_zero_or_nan.
  rewrite FloatAxioms.mul_spec. apply SFmul_zero_or_nan_r.
  rewrite !FloatAxioms.add_spec, !FloatAxioms.mul_spec.
  change (FloatOps.Prim2SF 0%float) with (S754_zero false).
  repeat apply SFadd_zero_or_nan; apply SFmul_zero_r.
Qed.

Lemma zero_or_nan_signs (x : float) :
  Binary64.zero_or_nan (FloatOps.Prim2SF x) ->
  (x <? 0)%float = false /\ (0 <? x)%float = false.
Proof.
  rewrite !FloatAxioms.ltb_spec.
  change (FloatOps.Prim2SF 0%float) with (S754_zero false).
  destruct (FloatOps.Prim2SF x); simpl; intros H; try contradiction;
    split; reflexivity.
Qed.

Lemma leb_nan_r (x y : float) : is_nan y = true -> (x <=? y)%float = false.
Proof.
  intros H. apply is_nan_true in H. rewrite FloatAxioms.leb_spec, H.
  destruct (FloatOps.Prim2SF x); reflexivity.
Qed.

(** ** The claims on both kinds of numbers *)

Local Open Scope R_scope.

(** C5, as amended.  Over the reals, the normal of a retained triangle,
    after the flip of lines 148-149, has a third component that is not
    negative: the cross product of the two edges is negated as a whole
    when its third component is negative and kept otherwise, and in both
    cases its magnitude is twice the area of the triangle (in mm2),
    whatever the order of the corners.  On binary64 numbers the cross
    product is negated, component by component, exactly when its computed
    third component is below 0; the third component of the normal is then
    at least 0 whenever that of the cross product is not NaN, and a NaN is
    kept, so that the comparison with 0 fails. *)
Theorem normal_flip_reals_and_binary64 :
  (forall (nodes : list (entry NodeVector)) (x : ElementVector)
     (n0 n1 n2 : Z) (p0 p1 p2 : vec3),
     ele_vec x = [n0; n1; n2] ->
     position nodes n0 = Ok p0 ->
     position nodes n1 = Ok p1 ->
     position nodes n2 = Ok p2 ->
     let raw := cross (subtract p1 p0) (subtract p2 p0) in
     exists normal : vec3,
       element_normal nodes (Obj x) = Ok normal
       /\ (vz raw < 0 -> normal = multiply raw (-1))
       /\ (~ vz raw < 0 -> normal = raw)
       /\ 0 <= vz normal
       /\ norm normal = 2 * triangle_area p0 p1 p2
       /\ norm normal = 2 * triangle_area p0 p2 p1)
  /\ (forall p0 p1 p2 : Binary64.vec,
        let raw :=
          Binary64.cross (Binary64.subtract p1 p0) (Binary64.subtract p2 p0) in
        let normal := Binary64.normal_of p0 p1 p2 in
        ((Binary64.fz raw <? 0)%float = true ->
         normal = (Binary64.fx raw * -1, Binary64.fy raw * -1,
                   Binary64.fz raw * -1)%float)
        /\ ((Binary64.fz raw <? 0)%float = false -> normal = raw)
        /\ (is_nan (Binary64.fz raw) = false ->
            (0 <=? Binary64.fz normal)%float = true)
        /\ (is_nan (Binary64.fz raw) = true ->
            (0 <=? Binary64.fz normal)%float = false)).
Proof.
  split.
  - intros nodes x n0 n1 n2 p0 p1 p2 Hv H0 H1 H2.
    exact (normal_points_up_with_twice_the_area nodes x Hv H0 H1 H2).
  - intros p0 p1 p2 raw normal. subst normal.
    unfold Binary64.normal_of. fold raw. unfold Binary64.canonical.
    repeat split.
    + intros H. rewrite H. reflexivity.
    + intros H. rewrite H. reflexivity.
    + intros Hn. destruct (Binary64.fz raw <? 0)%float eqn:E.
      * unfold Binary64.multiply, Binary64.fz at 1. cbn [snd].
        apply flip_at_least_zero, E.
      * apply sign_cases; assumption.
    + intros Hn. rewrite (@ltb_nan_l _ 0%float Hn). apply leb_nan_r, Hn.
Qed.

(** C8, as amended.  Over the reals, a retained triangle whose three
    corners lie on one line, or coincide, has the null vector for normal;
    its area is 0 and its contribution is 0, both divisions ending
    normally, their divisors being the constants 2*1000000 and 1000000;
    the flux loop adds 0 for the triangle and does not count it as
    negative.  On binary64 numbers this holds of three corners that are
    one and the same finite position: the normal is (0, 0, 0) and the area
    0, and the contribution, a zero or a NaN, is neither below nor above
    0, so that the flux loop adds it without counting the triangle as
    negative. *)
Theorem degenerate_triangle_reals_and_binary64 :
  (forall (nodes : list (entry NodeVector)) (x : ElementVector)
     (n0 n1 n2 : Z) (p0 p1 p2 : vec3) (sun_vec : vec3) (irr : R),
     ele_vec x = [n0; n1; n2] ->
     position nodes n0 = Ok p0 ->
     position nodes n1 = Ok p1 ->
     position nodes n2 = Ok p2 ->
     collinear p0 p1 p2 ->
     element_normal nodes (Obj x) = Ok (0, 0, 0)
     /\ element_area (0, 0, 0) = Ok 0
     /\ contribution sun_vec irr (0, 0, 0) = Ok 0
     /\ (forall (s : list vec3 * R),
           geometry_body nodes s (Obj x)
           = Ok (fst s ++ [(0, 0, 0)], snd s + 0))
     /\ (forall (flux : R) (neg_count : Z),
           flux_body sun_vec irr (flux, neg_count) (0, 0, 0)
           = Ok (flux + 0, neg_count)))
  /\ (forall (p sun_vec : Binary64.vec) (irr : float),
        is_finite (Binary64.fx p) = true ->
        is_finite (Binary64.fy p) = true ->
        is_finite (Binary64.fz p) = true ->
        let temp := Binary64.contribution sun_vec irr (0, 0, 0)%float in
        Binary64.normal_of p p p = (0, 0, 0)%float
        /\ Binary64.element_area (0, 0, 0)%float = 0%float
        /\ (temp <? 0)%float = false
        /\ (0 <? temp)%float = false
        /\ (forall (flux : float) (neg_count : Z),
              Binary64.flux_body sun_vec irr (flux, neg_count)
                (0, 0, 0)%float
              = Ok ((flux + temp)%float, neg_count))).
Proof.
  split.
  - intros nodes x n0 n1 n2 p0 p1 p2 sun_vec irr Hv H0 H1 H2 Hc.
    exact (@degenerate_triangle_contributes_nothing nodes x n0 n1 n2 p0 p1
             p2 sun_vec irr Hv H0 H1 H2 Hc).
  - intros p sun_vec irr Hx Hy Hz temp.
    destruct (@zero_or_nan_signs _ (contribution_null_normal sun_vec irr))
      as [Hlt Hgt].
    fold temp in Hlt, Hgt.
    split; [exact (normal_of_coincident p Hx Hy Hz)|].
    split; [vm_compute; reflexivity|].
    split; [exact Hlt|]. split; [exact Hgt|].
    intros flux neg_count. unfold Binary64.flux_body. cbv zeta.
    fold temp. rewrite Hlt. reflexivity.
Qed.

(** C9, as amended.  Over the reals, the flux that [car_solar_flux]
    returns is not negative, whatever the sign of the irradiance, and
    [neg_count] lies between 0 and the number of retained triangles.  On
    binary64 numbers the flux loop, run on a table of one placeholder and
    one element per normal, returns; [neg_count] is the number of normals
    whose contribution is below 0, between 0 and the number of normals;
    and the flux is at least 0 exactly when no contribution is NaN. *)
Theorem flux_bounds_reals_and_binary64 :
  (forall (collab : Collaborators) (mesh : list string) (lat lon : R)
     (timezone year month day hour : Z) (minute z_rotate : R)
     (flux area : R) (ele_count neg_count : Z),
     car_solar_flux mesh lat lon timezone year month day hour minute z_rotate
     = Ok (flux, area, ele_count, neg_count) ->
     0 <= flux /\
     (0 <= neg_count <= Z.of_nat (List.length (retained_triangles mesh)))%Z)
  /\ (forall (sun_vec : Binary64.vec) (irr : float)
        (normal_vec : list Binary64.vec),
        exists (flux : float) (neg_count : Z),
          Binary64.flux_sum sun_vec irr normal_vec
            (Z.of_nat (List.length normal_vec) + 1)
          = Ok (flux, neg_count)
          /\ neg_count
             = Z.of_nat
                 (List.length
                    (filter
                       (fun normal =>
                          (Binary64.contribution sun_vec irr normal <? 0)%float)
                       normal_vec))
          /\ (0 <= neg_count <= Z.of_nat (List.length normal_vec))%Z
          /\ ((0 <=? flux)%float = true <->
              forall normal, In normal normal_vec ->
                is_nan (Binary64.contribution sun_vec irr normal) = false)).
Proof.
  split.
  - intros collab mesh lat lon timezone year month day hour minute z_rotate
      flux area ele_count neg_count Hres.
    exact (flux_and_negative_count_bounds _ _ _ _ _ _ _ _ _ _ Hres).
  - intros sun_vec irr normal_vec.
    destruct (flux_loop_binary64 sun_vec irr normal_vec) as [flux [Hf Hn]].
    exists flux. eexists. split; [exact Hf|].
    split; [reflexivity|]. split; [|exact Hn].
    pose proof (filter_length_le
                  (fun normal =>
                     (Binary64.contribution sun_vec irr normal <? 0)%float)
                  normal_vec).
    lia.
Qed.

(** ** The amended claims at concrete inputs *)

(** C5 as amended, on the second triangle of the plate, whose cross product
    points down, on the reals and on binary64 numbers. *)
Lemma normal_flip_reals_and_binary64_plate :
  (let p0 : vec3 := (1000, 0, 0) in
   let p1 : vec3 := (0, 1000, 0) in
   let p2 : vec3 := (1000, 1000, 0) in
   let raw := cross (subtract p1 p0) (subtract p2 p0) in
   exists normal : vec3,
     element_normal (node_vector plate_state)
       (Obj (mkElement 4 2 [2; 3; 4]%Z))
     = Ok normal
     /\ (vz raw < 0 -> normal = multiply raw (-1))
     /\ (~ vz raw < 0 -> normal = raw)
     /\ 0 <= vz normal
     /\ norm normal = 2 * triangle_area p0 p1 p2
     /\ norm normal = 2 * triangle_area p0 p2 p1)
  /\ Binary64.normal_of Binary64.plate1 Binary64.plate2 Binary64.plate3
     = (-0, -0, 1000000)%float
  /\ (0 <=? Binary64.fz
              (Binary64.normal_of Binary64.plate1 Binary64.plate2
                 Binary64.plate3))%float = true.
Proof.
  split.
  - exact (proj1 normal_flip_reals_and_binary64 (node_vector plate_state)
             (mkElement 4 2 [2; 3; 4]%Z) 2%Z 3%Z 4%Z (1000, 0, 0)
             (0, 1000, 0) (1000, 1000, 0) eq_refl eq_refl eq_refl eq_refl).
  - pose proof (proj2 normal_flip_reals_and_binary64 Binary64.plate1
                  Binary64.plate2 Binary64.plate3) as H.
    cbv zeta in H. destruct H as [Hflip [_ [Hup _]]]. split.
    + rewrite Hflip by (vm_compute; reflexivity). vm_compute. reflexivity.
    + apply Hup. vm_compute. reflexivity.
Defined.

(** C8 as amended, on three nodes of the x axis over the reals, and on
    three corners at the binary64 position (1000, 0, 0). *)
Lemma degenerate_triangle_reals_and_binary64_examples :
  (element_normal sliver_nodes (Obj sliver) = Ok (0, 0, 0)
   /\ element_area (0, 0, 0) = Ok 0
   /\ contribution (1 / 2, 0, 1) 1000 (0, 0, 0) = Ok 0
   /\ (forall (s : list vec3 * R),
         geometry_body sliver_nodes s (Obj sliver)
         = Ok (fst s ++ [(0, 0, 0)], snd s + 0))
   /\ (forall (flux : R) (neg_count : Z),
         flux_body (1 / 2, 0, 1) 1000 (flux, neg_count) (0, 0, 0)
         = Ok (flux + 0, neg_count)))
  /\ Binary64.normal_of Binary64.plate1 Binary64.plate1 Binary64.plate1
     = (0, 0, 0)%float
  /\ Binary64.flux_body Binary64.sun_up 1000%float (0%float, 0%Z)
       (0, 0, 0)%float
     = Ok (0%float, 0%Z).
Proof.
  split.
  - apply (proj1 degenerate_triangle_reals_and_binary64 sliver_nodes sliver
             1%Z 2%Z 3%Z (0, 0, 0) (1000, 0, 0) (2000, 0, 0) (1 / 2, 0, 1)
             1000);
      try reflexivity.
    exists 2, (-1). unfold vx, vy, vz. simpl.
    split; [left; lra|]. repeat split; lra.
  - pose proof (proj2 degenerate_triangle_reals_and_binary64 Binary64.plate1
                  Binary64.sun_up 1000%float eq_refl eq_refl eq_refl) as H.
    cbv zeta in H. destruct H as [Hn [_ [_ [_ Hb]]]].
    split; [exact Hn|]. rewrite Hb. vm_compute. reflexivity.
Defined.

(** C9 as amended, on the plate under [sky_down] over the reals, and on
    the two normals of the plate under the sun vector (1/2, 0, 1) on
    binary64 numbers. *)
Lemma flux_bounds_reals_and_binary64_plate :
  (0 <= 0 /\
   (0 <= 2 <= Z.of_nat (List.length (retained_triangles (collab := sky_down)
                                       plate)))%Z)
  /\ (exists flux : float,
        Binary64.flux_sum Binary64.sun_up 1000%float
          [(-0, -0, 1000000)%float; (-0, -0, 1000000)%float] 3
        = Ok (flux, 0%Z)
        /\ flux = 239%float
        /\ (0 <=? flux)%float = true).
Proof.
  split.
  - exact (proj1 flux_bounds_reals_and_binary64 sky_down plate 43 (-80)
             (-5)%Z 2017%Z 6%Z 21%Z 12%Z 0 0 0 1 3%Z 2%Z plate_down).
  - destruct (proj2 flux_bounds_reals_and_binary64 Binary64.sun_up
                1000%float
                [(-0, -0, 1000000)%float; (-0, -0, 1000000)%float])
      as [flux [neg_count [Hf [Hn [_ Hiff]]]]].
    exists flux. split; [|split].
    + rewrite Hn in Hf. exact Hf.
    + assert (E : Binary64.flux_sum Binary64.sun_up 1000%float
                    [(-0, -0, 1000000)%float; (-0, -0, 1000000)%float] 3
                  = Ok (239%float, 0%Z)) by (vm_compute; reflexivity).
      change (Z.of_nat
                (List.length
                   [(-0, -0, 1000000)%float; (-0, -0, 1000000)%float]) + 1)%Z
        with 3%Z in Hf.
      rewrite E in Hf. inversion Hf. reflexivity.
    + apply Hiff. intros normal [<-|[<-|[]]]; vm_compute; reflexivity.
Defined.

(** ** Inputs on which the claims fail on binary64 numbers *)

(** C5 fails on binary64 numbers.  The triangle (0, 0, 0),
    (1e200, 1e200, 0), (1e200, 2e200, 0) has finite corners; the two
    products of the third component of its cross product overflow, their
    difference is NaN, NaN is not below 0, and the normal keeps it: its
    third component is not at least 0. *)
Lemma overflowing_cross_product_gives_nan_normal :
  is_finite Binary64.big = true
  /\ is_finite Binary64.big2 = true
  /\ Binary64.cross (Binary64.subtract Binary64.far1 Binary64.far0)
       (Binary64.subtract Binary64.far2 Binary64.far0)
     = (0, 0, nan)%float
  /\ Binary64.normal_of Binary64.far0 Binary64.far1 Binary64.far2
     = (0, 0, nan)%float
  /\ (0 <=? Binary64.fz
              (Binary64.normal_of Binary64.far0 Binary64.far1
                 Binary64.far2))%float = false.
Proof. vm_compute. repeat split. Qed.

(** C8 fails on binary64 numbers.  The positions (0, 1 + 2^-52, 0),
    (3, 0, 0) and (-9, 4 + 2^-50, 0) lie exactly on one line: three times the first edge plus the second is the
    null vector.  The rounded products leave 2^-49 in the third component
    of the cross product: the area and the contribution are not 0, and
    under a sun vector that points down the flux loop counts the triangle
    as negative. *)
Lemma collinear_floats_leave_a_residue :
  Binary64.collinear (-52) Binary64.line0 Binary64.line1 Binary64.line2
  /\ let normal :=
       Binary64.normal_of Binary64.line0 Binary64.line1 Binary64.line2 in
     normal = (-0, -0, 0x1p-49)%float
     /\ (0 <? Binary64.element_area normal)%float = true
     /\ (0 <? Binary64.contribution Binary64.sun_up 1000 normal)%float = true
     /\ (Binary64.contribution Binary64.sun_down 1000 normal <? 0)%float
        = true
     /\ Binary64.flux_sum Binary64.sun_down 1000%float [normal] 2
        = Ok (0%float, 1%Z).
Proof.
  split.
  - unfold Binary64.collinear.
    replace (Binary64.scaled_vec (-52) Binary64.line0)
      with (Some (0, 4503599627370497, 0)%Z) by (vm_compute; reflexivity).
    replace (Binary64.scaled_vec (-52) Binary64.line1)
      with (Some (13510798882111488, 0, 0)%Z) by (vm_compute; reflexivity).
    replace (Binary64.scaled_vec (-52) Binary64.line2)
      with (Some (-40532396646334464, 18014398509481988, 0)%Z)
      by (vm_compute; reflexivity).
    exists 3%Z, 1%Z. split; [left; discriminate|]. repeat split.
  - vm_compute. repeat split.
Qed.

(** C9 fails on binary64 numbers.  With an irradiance of 1000, the flux
    loop on the NaN normal of the triangle (0, 0, 0), (1e200, 1e200, 0), (1e200, 2e200, 0) returns a NaN
    flux, which is not at least 0; the triangle is not counted as
    negative. *)
Lemma nan_normal_gives_nan_flux :
  (0 <=? 1000)%float = true
  /\ Binary64.flux_sum Binary64.sun_up 1000%float
       [Binary64.normal_of Binary64.far0 Binary64.far1 Binary64.far2] 2
     = Ok (nan, 0%Z)
  /\ (0 <=? nan)%float = false.
Proof. vm_compute. repeat split. Qed.

End Binary64Facts.

(** * Further properties of the reading loop *)

Section ReadingMore.

Context {collab : Collaborators}.

Lemma element_part_tables (st st' : reader) (line : string) :
  element_part st line = Ok st' ->
  node_read st' = node_read st /\ node_vector st' = node_vector st
  /\ (flag (element_read st) -> flag (element_read st')).
Proof.
  unfold element_part.
  destruct (element_read st =? 1)%Z.
  - intros H. injection H as <-. simpl. repeat split. intros _. right. right.
    reflexivity.
  - destruct (element_read st =? 2)%Z.
    + intros H. ok_bind H r Hr. destruct r; injection H as <-; simpl; auto.
    + intros H. injection H as <-. auto.
Qed.

(** One line keeps the flags among 0, 1, 2 and the placeholder at the head
    of the node table. *)
Lemma read_line_flags (st st' : reader) (line : string) :
  flag (node_read st) /\ flag (element_read st)
  /\ placeholder_first (node_vector st)
  /\ (node_read st = 2%Z -> node_vector st <> []) ->
  read_line st line = Ok st' ->
  flag (node_read st') /\ flag (element_read st')
  /\ placeholder_first (node_vector st')
  /\ (node_read st' = 2%Z -> node_vector st' <> []).
Proof.
  intros [Fn [Fe [Hhd Hne]]].
  destruct (marker_of line) eqn:M.
  - rewrite (read_line_nodes_open st line M). intros H. injection H as <-.
    unfold set_node_read. simpl. repeat split; auto.
    + right. left. reflexivity.
    + intros; discriminate.
  - rewrite (read_line_nodes_close st line M). intros H. injection H as <-.
    unfold set_node_read. simpl. repeat split; auto.
    + left. reflexivity.
    + intros; discriminate.
  - rewrite (read_line_elements_open st line M). intros H. injection H as <-.
    unfold set_element_read. simpl. repeat split; auto.
    right. left. reflexivity.
  - rewrite (read_line_elements_close st line M). intros H. injection H as <-.
    unfold set_element_read. simpl. repeat split; auto.
    left. reflexivity.
  - rewrite read_line_plain by (unfold plain; rewrite M; reflexivity).
    destruct (Z.eqb_spec (node_read st) 1) as [H1|H1].
    + intros H. injection H as <-. unfold append_node, set_node_read. simpl.
      repeat split; auto.
      * right. right. reflexivity.
      * destruct (node_vector st) as [|[|a] l]; simpl; auto.
      * intros _. destruct (node_vector st); discriminate.
    + destruct (Z.eqb_spec (node_read st) 2) as [H2|H2].
      * intros H. ok_bind H x Hx.
        destruct (element_part_tables _ _ H) as [En [Ev Ef]].
        rewrite En, Ev. unfold append_node. simpl. repeat split; auto.
        -- apply placeholder_first_app; auto.
        -- intros _. destruct (node_vector st); discriminate.
      * intros H. destruct (element_part_tables _ _ H) as [En [Ev Ef]].
        rewrite En, Ev. repeat split; auto.
Qed.

Lemma for_each_read_line_flags (mesh : list string) :
  forall st st',
  flag (node_read st) /\ flag (element_read st)
  /\ placeholder_first (node_vector st)
  /\ (node_read st = 2%Z -> node_vector st <> []) ->
  for_each read_line mesh st = Ok st' ->
  flag (node_read st') /\ flag (element_read st')
  /\ placeholder_first (node_vector st')
  /\ (node_read st' = 2%Z -> node_vector st' <> []).
Proof.
  induction mesh as [|line mesh IH]; intros st st' Hinv H; simpl in H.
  - injection H as <-. exact Hinv.
  - ok_bind H s1 H1. exact (IH _ _ (@read_line_flags st s1 line Hinv H1) H).
Qed.

(** X1. Whatever the lines of the file, a reading loop that ends leaves
    both flags among 0, 1 and 2, both tables empty or headed by the
    placeholder, and in [element_vector] only elements of type 2 with
    exactly three corners. *)
Theorem loaded_tables_shape (mesh : list string) (st : reader) :
  load_mesh mesh = Ok st ->
  flag (node_read st) /\ flag (element_read st)
  /\ placeholder_first (node_vector st)
  /\ placeholder_first (element_vector st)
  /\ Forall triangle_shaped (retained_triangles mesh).
Proof.
  intros H.
  destruct (load_mesh_inv _ H) as [_ [Hhd Hsh]].
  assert (F : flag (node_read st) /\ flag (element_read st)
              /\ placeholder_first (node_vector st)
              /\ (node_read st = 2%Z -> node_vector st <> [])).
  { apply (for_each_read_line_flags mesh reader_init); [|exact H].
    simpl. repeat split; try (left; reflexivity). intros; discriminate. }
  destruct F as [Fn [Fe [Hn _]]].
  rewrite (retained_triangles_loaded _ H). auto.
Qed.

(** X2. Lines without a marker are ignored outside the sections: such lines
    before the first marker of the file, and such lines after a file that
    ends with both sections closed, change nothing to the result, be it a
    tuple or an exception. *)
Theorem lines_outside_sections_are_ignored (mesh before after : list string)
  (lat lon : R) (timezone year month day hour : Z) (minute z_rotate : R) :
  forallb plain before = true ->
  forallb plain after = true ->
  (forall st, load_mesh mesh = Ok st ->
     node_read st = 0%Z /\ element_read st = 0%Z) ->
  car_solar_flux (before ++ mesh ++ after) lat lon timezone year month day
    hour minute z_rotate
  = car_solar_flux mesh lat lon timezone year month day hour minute z_rotate.
Proof.
  intros Hb Ha Hclosed.
  assert (E : load_mesh (before ++ mesh ++ after) = load_mesh mesh).
  { unfold load_mesh, reader_init.
    rewrite for_each_app, for_each_idle by exact Hb. simpl.
    rewrite for_each_app.
    destruct (for_each read_line mesh (mkReader 0 [] 0 [])) as [st|e] eqn:L;
      simpl; [|reflexivity].
    destruct (Hclosed st L) as [Hn He].
    destruct st as [nr nv er ev]. simpl in Hn, He. subst nr er.
    apply for_each_idle. exact Ha. }
  unfold car_solar_flux. rewrite E. reflexivity.
Qed.

Lemma well_formed_with_counts (g : gmsh) (ncount ecount : string) :
  well_formed g = true -> plain ncount = true -> plain ecount = true ->
  well_formed (with_counts g ncount ecount) = true.
Proof.
  unfold well_formed. intros H Hn He.
  repeat (apply andb_prop in H; let H' := fresh "W" in destruct H as [H H']).
  simpl. rewrite H, W8, Hn, W6, W5, W4, W3, He, W1, W0, W. reflexivity.
Qed.

(** X3. The count lines are skipped, not read: a well-formed file gives the
    same result with any other lines without marker in their place, so the
    counts a file declares are never compared with its records. *)
Theorem count_lines_are_not_read (g : gmsh) (ncount ecount : string)
  (lat lon : R) (timezone year month day hour : Z) (minute z_rotate : R) :
  well_formed g = true ->
  plain ncount = true ->
  plain ecount = true ->
  car_solar_flux (gmsh_lines (with_counts g ncount ecount)) lat lon timezone
    year month day hour minute z_rotate
  = car_solar_flux (gmsh_lines g) lat lon timezone year month day hour minute
      z_rotate.
Proof.
  intros Hwf Hn He.
  pose proof (load_mesh_well_formed _
                (@well_formed_with_counts g ncount ecount Hwf Hn He))
    as L1.
  pose proof (load_mesh_well_formed g Hwf) as L2.
  unfold car_solar_flux. rewrite L1, L2. reflexivity.
Qed.

(** X4. In a well-formed file the corner index [k] stands for the [k]-th
    record of the node section, counted from 1, whatever node number that
    record carries in its first field. *)
Theorem corner_index_is_record_position (g : gmsh) (k : nat) (x : NodeVector) :
  well_formed g = true ->
  nth_error (nodes_of (node_records g)) k = Some x ->
  exists st,
    load_mesh (gmsh_lines g) = Ok st
    /\ position (node_vector st) (Z.of_nat (S k)) = Ok (node_vec x).
Proof.
  intros Hwf Hk. eexists. split; [exact (load_mesh_well_formed g Hwf)|].
  cbn [node_vector]. unfold position. rewrite getitem_nat.
  cbn [nth_error]. rewrite (map_nth_error Obj _ _ Hk). reflexivity.
Qed.

Lemma read_line_no_elements (st st' : reader) (line : string) :
  negb (marker_eqb (marker_of line) ElementsOpen) = true ->
  element_read st = 0%Z -> element_vector st = [] ->
  read_line st line = Ok st' ->
  element_read st' = 0%Z /\ element_vector st' = [].
Proof.
  intros Hline He Hv H. destruct st as [nr nv er ev]. simpl in He, Hv.
  subst er ev.
  destruct (marker_of line) eqn:M; try discriminate Hline.
  - rewrite (read_line_nodes_open _ line M) in H. injection H as <-. auto.
  - rewrite (read_line_nodes_close _ line M) in H. injection H as <-. auto.
  - rewrite (read_line_elements_close _ line M) in H. injection H as <-. auto.
  - rewrite read_line_plain in H by (unfold plain; rewrite M; reflexivity).
    simpl in H. destruct (nr =? 1)%Z; [injection H as <-; auto|].
    destruct (nr =? 2)%Z.
    + ok_bind H x Hx. injection H as <-. auto.
    + injection H as <-. auto.
Qed.

Lemma for_each_no_elements (mesh : list string) :
  forall st st',
  no_elements_open mesh = true ->
  element_read st = 0%Z -> element_vector st = [] ->
  for_each read_line mesh st = Ok st' ->
  element_read st' = 0%Z /\ element_vector st' = [].
Proof.
  induction mesh as [|line mesh IH]; intros st st' Hno He Hv H; simpl in H.
  - injection H as <-. auto.
  - simpl in Hno. apply andb_prop in Hno. destruct Hno as [Hline Hno].
    ok_bind H s1 H1.
    destruct (@read_line_no_elements st s1 line Hline He Hv H1) as [He1 Hv1].
    exact (IH _ _ Hno He1 Hv1 H).
Qed.

(** X5. A file that is read to its end and in which no line opens an
    element section, the empty file among them, gives flux 0, area 0, a
    negative count 0 and an element count 0: without count line there is no
    placeholder to count. *)
Theorem mesh_without_element_section (mesh : list string) (st : reader)
  (lat lon : R) (timezone year month day hour : Z) (minute z_rotate : R) :
  no_elements_open mesh = true ->
  load_mesh mesh = Ok st ->
  car_solar_flux mesh lat lon timezone year month day hour minute z_rotate
  = Ok (0%R, 0%R, 0%Z, 0%Z).
Proof.
  intros Hno Hload.
  destruct (@for_each_no_elements mesh reader_init st Hno eq_refl eq_refl
              Hload)
    as [_ Hv].
  rewrite (car_solar_flux_ok mesh lat lon timezone year month day hour minute
             z_rotate (ns := []) (area := 0%R) Hload).
  - rewrite Hv. reflexivity.
  - rewrite Hv. reflexivity.
Qed.

End ReadingMore.

(** * Further properties of unbalanced sections *)

Section Unbalanced.

Context {collab : Collaborators}.

(** X6. A node section left open swallows the element section: when the
    line [$EndNodes] is missing, the count line of the element section is
    read as a node record, and the computation stops there with
    [IndexError] or [ValueError] unless that line has the four numeric
    fields of a node. *)
Theorem missing_end_nodes_stops_at_element_count
  (before records rest : list string)
  (opening ncount eopening ecount : string)
  (lat lon : R) (timezone year month day hour : Z) (minute z_rotate : R) :
  forallb plain before = true ->
  marker_of opening = NodesOpen ->
  plain ncount = true ->
  forallb node_record records = true ->
  marker_of eopening = ElementsOpen ->
  plain ecount = true ->
  ~ node_fields ecount ->
  let mesh := before ++ opening :: ncount :: records
              ++ eopening :: ecount :: rest in
  car_solar_flux mesh lat lon timezone year month day hour minute z_rotate
  = Raise IndexError
  \/ car_solar_flux mesh lat lon timezone year month day hour minute z_rotate
     = Raise ValueError.
Proof.
  intros Hb Mo Hn Hr Me He Hno mesh.
  set (st := mkReader 2 (Placeholder :: map Obj (nodes_of records)) 1 []).
  assert (Hpre : load_mesh (before ++ opening :: ncount :: records
                            ++ [eopening]) = Ok st).
  { unfold load_mesh, reader_init.
    rewrite for_each_app, for_each_idle by exact Hb. simpl.
    rewrite (read_line_nodes_open _ _ Mo). simpl.
    rewrite (read_line_plain _ _ Hn). simpl.
    unfold append_node, set_node_read. simpl.
    rewrite for_each_app, for_each_node_records by exact Hr. simpl.
    rewrite (read_line_elements_open _ _ Me). reflexivity. }
  assert (Hline : read_line st ecount = Raise IndexError
                  \/ read_line st ecount = Raise ValueError).
  { rewrite (read_line_plain st ecount He). simpl.
    destruct (read_node_without_fields Hno) as [-> | ->]; auto. }
  assert (Emesh : mesh = (before ++ opening :: ncount :: records
                          ++ [eopening]) ++ ecount :: rest).
  { unfold mesh. rewrite <- app_assoc. simpl. rewrite <- app_assoc.
    reflexivity. }
  rewrite Emesh.
  destruct Hline as [H|H]; [left | right];
    apply car_solar_flux_load_raise;
    exact (@load_mesh_raise _ _ rest ecount st _ Hpre H).
Qed.

Lemma normals_of_placeholder (nodes : list (entry NodeVector))
  (es rest : list (entry ElementVector)) (ns : list vec3) :
  normals_of nodes es = Ok ns ->
  normals_of nodes (es ++ Placeholder :: rest) = Raise AttributeError.
Proof.
  revert ns. induction es as [|e es IH]; intros ns H; simpl in *.
  - reflexivity.
  - ok_bind H n Hn. ok_bind H r Hr. rewrite Hn. simpl.
    rewrite (IH _ Hr). reflexivity.
Qed.

(** X7. An element section opened a second time stores a second
    placeholder, in the middle of [element_vector].  Take a file that gives
    a result and whose reading ends outside the node section ([node_read]
    is 0) with an element section already opened ([element_vector] holds
    at least its placeholder).  Once a second element section with its
    count line, and any records, is appended, the file no longer gives a
    result: the normal loop reaches the second placeholder and stops with
    [AttributeError]. *)
Theorem second_element_section_raises (mesh records : list string)
  (eopening ecount : string) (st : reader)
  (lat lon : R) (timezone year month day hour : Z) (minute z_rotate : R)
  (flux area : R) (ele_count neg_count : Z) :
  car_solar_flux mesh lat lon timezone year month day hour minute z_rotate
  = Ok (flux, area, ele_count, neg_count) ->
  load_mesh mesh = Ok st ->
  node_read st = 0%Z ->
  element_vector st <> [] ->
  marker_of eopening = ElementsOpen ->
  plain ecount = true ->
  forallb element_record records = true ->
  car_solar_flux (mesh ++ eopening :: ecount :: records) lat lon timezone year
    month day hour minute z_rotate
  = Raise AttributeError.
Proof.
  intros Hres Hload Hn Hne Mo Hc Hr.
  destruct (car_solar_flux_inv _ _ _ _ _ _ _ _ _ _ Hres) as [st' [ns [Hl Hg]]].
  rewrite Hload in Hl. injection Hl as <-.
  destruct st as [nr nv er ev]. simpl in Hn, Hne, Hg. subst nr.
  destruct ev as [|e0 es]; [contradiction|].
  rewrite geometry_normals in Hg. ok_bind Hg ns' Hns. clear Hg.
  assert (L : load_mesh (mesh ++ eopening :: ecount :: records)
              = Ok (mkReader 0 nv 2
                      (((e0 :: es) ++ [Placeholder])
                       ++ map Obj (triangles_of records)))).
  { unfold load_mesh in *. rewrite for_each_app, Hload. simpl.
    rewrite (read_line_elements_open _ _ Mo). simpl.
    rewrite (read_line_plain _ _ Hc). simpl.
    unfold element_part, append_element, set_element_read. simpl.
    apply for_each_element_records. exact Hr. }
  unfold car_solar_flux. rewrite L. simpl.
  rewrite <- app_assoc. simpl.
  rewrite geometry_normals.
  rewrite (@normals_of_placeholder nv es _ ns' Hns). reflexivity.
Qed.

End Unbalanced.

(** * Further properties of the normals and the area *)

Local Open Scope R_scope.

Lemma Rsum_area_nonneg (ns : list vec3) : 0 <= Rsum (map area_of ns).
Proof.
  induction ns as [|n ns IH]; simpl; [lra|].
  assert (0 <= area_of n).
  { unfold area_of. pose proof (sqrt_pos (vx n * vx n + vy n * vy n
                                          + vz n * vz n)) as Hs.
    unfold norm. lra. }
  lra.
Qed.

(** X8. For a triangle with its three corners in the node table, one turn
    of the normal loop appends the normal and adds to [area] the area of
    the triangle, computed from its side lengths in mm, divided by 10^6. *)
Theorem normal_loop_adds_the_triangle_area
  (nodes : list (entry NodeVector)) (x : ElementVector) (n0 n1 n2 : Z)
  (p0 p1 p2 : vec3) (s : list vec3 * R) :
  ele_vec x = [n0; n1; n2] ->
  position nodes n0 = Ok p0 ->
  position nodes n1 = Ok p1 ->
  position nodes n2 = Ok p2 ->
  geometry_body nodes s (Obj x)
  = Ok (fst s ++ [canonical (cross (subtract p1 p0) (subtract p2 p0))],
        snd s + triangle_area p0 p1 p2 / 1000000).
Proof.
  intros Hv H0 H1 H2. unfold geometry_body.
  rewrite (element_normal_corners _ _ Hv H0 H1 H2). simpl.
  rewrite element_area_ok. simpl. f_equal. f_equal. f_equal.
  unfold area_of. rewrite norm_canonical, norm_cross_heron. field.
Qed.

Section AreaMore.

Context {collab : Collaborators}.

(** X9. Over the reals, the area [car_solar_flux] returns is the sum, over
    the normals of the retained triangles, of the magnitude of the normal
    divided by 2*10^6; it is never negative. *)
Theorem area_sums_every_retained_triangle (mesh : list string) (lat lon : R)
  (timezone year month day hour : Z) (minute z_rotate : R)
  (flux area : R) (ele_count neg_count : Z) :
  car_solar_flux mesh lat lon timezone year month day hour minute z_rotate
  = Ok (flux, area, ele_count, neg_count) ->
  exists (st : reader) (normal_vec : list vec3),
    load_mesh mesh = Ok st
    /\ Forall2 (fun x n => element_normal (node_vector st) (Obj x) = Ok n)
         (retained_triangles mesh) normal_vec
    /\ area = Rsum (map area_of normal_vec)
    /\ 0 <= area.
Proof.
  intros Hres.
  destruct (car_solar_flux_inv _ _ _ _ _ _ _ _ _ _ Hres) as [st [ns [Hl Hg]]].
  destruct (load_mesh_inv _ Hl) as [_ [Hhd _]].
  destruct (geometry_ok _ _ Hhd Hg) as [F [Ha _]].
  exists st, ns. rewrite (retained_triangles_loaded _ Hl).
  repeat split; try assumption. rewrite Ha. apply Rsum_area_nonneg.
Qed.

(** X10. The heading decides neither whether the computation fails, nor
    with which exception, nor the area, nor the element count.  Two calls
    on the same file that both return, whatever the place, the date, the
    time and the heading of each, return the same area and the same
    element count. *)
Theorem area_and_count_ignore_the_sky (mesh : list string) :
  (forall (lat lon : R) (timezone year month day hour : Z)
     (minute z_rotate z_rotate' : R),
     match
       car_solar_flux mesh lat lon timezone year month day hour minute
         z_rotate,
       car_solar_flux mesh lat lon timezone year month day hour minute
         z_rotate'
     with
     | Ok (_, area, ele_count, _), Ok (_, area', ele_count', _) =>
         area = area' /\ ele_count = ele_count'
     | Raise e, Raise e' => e = e'
     | _, _ => False
     end)
  /\ (forall (lat lon : R) (timezone year month day hour : Z)
        (minute z_rotate : R)
        (lat' lon' : R) (timezone' year' month' day' hour' : Z)
        (minute' z_rotate' : R)
        (flux area : R) (ele_count neg_count : Z)
        (flux' area' : R) (ele_count' neg_count' : Z),
        car_solar_flux mesh lat lon timezone year month day hour minute
          z_rotate
        = Ok (flux, area, ele_count, neg_count) ->
        car_solar_flux mesh lat' lon' timezone' year' month' day' hour'
          minute' z_rotate'
        = Ok (flux', area', ele_count', neg_count') ->
        area = area' /\ ele_count = ele_count').
Proof.
  split.
  - intros lat lon timezone year month day hour minute z_rotate z_rotate'.
    destruct (load_mesh mesh) as [st|e] eqn:Hl.
    + destruct (geometry (node_vector st) (element_vector st)) as [[ns a]|e]
        eqn:Hg.
      * rewrite (car_solar_flux_ok mesh lat lon timezone year month day hour
                   minute z_rotate Hl Hg).
        rewrite (car_solar_flux_ok mesh lat lon timezone year month day hour
                   minute z_rotate' Hl Hg).
        split; reflexivity.
      * unfold car_solar_flux. rewrite Hl. simpl. rewrite Hg. simpl.
        reflexivity.
    + unfold car_solar_flux. rewrite Hl. simpl. reflexivity.
  - intros lat lon timezone year month day hour minute z_rotate
      lat' lon' timezone' year' month' day' hour' minute' z_rotate'
      flux area ele_count neg_count flux' area' ele_count' neg_count' H H'.
    destruct (car_solar_flux_inv _ _ _ _ _ _ _ _ _ _ H) as [st [ns [Hl Hg]]].
    rewrite (car_solar_flux_ok mesh lat lon timezone year month day hour
               minute z_rotate Hl Hg) in H.
    rewrite (car_solar_flux_ok mesh lat' lon' timezone' year' month' day'
               hour' minute' z_rotate' Hl Hg) in H'.
    inversion H; subst. inversion H'; subst. split; reflexivity.
Qed.

Lemma Rsum_clamped_zero_irradiance (sun_vec : vec3) (ns : list vec3) :
  Rsum (map (clamped_contribution sun_vec 0) ns) = 0
  /\ shaded sun_vec 0 ns = [].
Proof.
  induction ns as [|n ns [IH1 IH2]]; simpl; [split; reflexivity|].
  assert (E : raw_contribution sun_vec 0 n = 0).
  { unfold raw_contribution. field. }
  unfold clamped_contribution at 1, clamp, negative. rewrite E.
  destruct (Rlt_dec 0 0) as [H|H]; [lra|]. split; [lra | exact IH2].
Qed.

(** X11. Over the reals, with an irradiance of 0 the flux is 0 and no
    triangle is counted as negative, whatever the mesh and the sun
    vector. *)
Theorem no_irradiance_no_flux (mesh : list string) (lat lon : R)
  (timezone year month day hour : Z) (minute z_rotate : R)
  (flux area : R) (ele_count neg_count : Z) :
  car_solar_flux mesh lat lon timezone year month day hour minute z_rotate
  = Ok (flux, area, ele_count, neg_count) ->
  irr_of lat lon timezone year month day hour minute = 0 ->
  flux = 0 /\ neg_count = 0%Z.
Proof.
  intros Hres Hirr.
  destruct (car_solar_flux_inv _ _ _ _ _ _ _ _ _ _ Hres) as [st [ns [Hl Hg]]].
  rewrite (car_solar_flux_ok mesh lat lon timezone year month day hour minute
             z_rotate Hl Hg) in Hres.
  rewrite Hirr in Hres.
  destruct (Rsum_clamped_zero_irradiance
              (sun_of lat lon timezone year month day hour minute z_rotate)
              ns) as [E1 E2].
  rewrite E1, E2 in Hres. inversion Hres; subst. split; reflexivity.
Qed.

End AreaMore.

(** The dot product is at most the product of the magnitudes. *)
Lemma dot_le_norm (a b : vec3) : dot a b <= norm a * norm b.
Proof.
  pose proof (norm_sq_nonneg a) as Ha. pose proof (norm_sq_nonneg b) as Hb.
  destruct (Rle_dec (dot a b) 0) as [Hd|Hd].
  - pose proof (sqrt_pos (vx a * vx a + vy a * vy a + vz a * vz a)).
    pose proof (sqrt_pos (vx b * vx b + vy b * vy b + vz b * vz b)).
    unfold norm. nra.
  - unfold norm. rewrite <- sqrt_mult by assumption.
    rewrite <- (sqrt_square (dot a b)) at 1 by lra.
    apply sqrt_le_1.
    + nra.
    + nra.
    + destruct a as [[a1 a2] a3], b as [[b1 b2] b3].
      unfold dot, vx, vy, vz. simpl.
      assert (L : (a1 * a1 + a2 * a2 + a3 * a3) * (b1 * b1 + b2 * b2 + b3 * b3)
                  - (a1 * b1 + a2 * b2 + a3 * b3) * (a1 * b1 + a2 * b2 + a3 * b3)
                  = (a2 * b3 - a3 * b2) * (a2 * b3 - a3 * b2)
                    + (a3 * b1 - a1 * b3) * (a3 * b1 - a1 * b3)
                    + (a1 * b2 - a2 * b1) * (a1 * b2 - a2 * b1)) by ring.
      pose proof (Rle_0_sqr (a2 * b3 - a3 * b2)) as S1.
      pose proof (Rle_0_sqr (a3 * b1 - a1 * b3)) as S2.
      pose proof (Rle_0_sqr (a1 * b2 - a2 * b1)) as S3.
      unfold Rsqr in S1, S2, S3. apply Rminus_le. lra.
Qed.

Lemma clamped_contribution_le (sun_vec : vec3) (irr : R) (n : vec3) :
  0 <= irr ->
  clamped_contribution sun_vec irr n <= eff * irr * norm sun_vec * area_of n.
Proof.
  intros Hirr.
  pose proof (dot_le_norm sun_vec n) as Hd.
  assert (Hs : 0 <= norm sun_vec) by (unfold norm; apply sqrt_pos).
  assert (Hn : 0 <= norm n) by (unfold norm; apply sqrt_pos).
  assert (Hk : 0 <= eff * irr) by (unfold eff; nra).
  assert (Hp : 0 <= norm sun_vec * norm n) by nra.
  unfold clamped_contribution, clamp, raw_contribution, area_of.
  destruct (Rlt_dec (eff * irr * (5 / 10) * dot sun_vec n / 1000000) 0).
  - replace (eff * irr * norm sun_vec * (norm n / (2 * 1000000)))
      with ((eff * irr) * (norm sun_vec * norm n) / 2000000) by field.
    nra.
  - replace (eff * irr * (5 / 10) * dot sun_vec n / 1000000)
      with ((eff * irr) * dot sun_vec n / 2000000) by field.
    replace (eff * irr * norm sun_vec * (norm n / (2 * 1000000)))
      with ((eff * irr) * (norm sun_vec * norm n) / 2000000) by field.
    pose proof (Rmult_le_compat_l (eff * irr) _ _ Hk Hd). lra.
Qed.

Section BoundMore.

Context {collab : Collaborators}.

(** X12. When the irradiance is not negative, the flux is at most the
    efficiency 0.239 times the irradiance times the magnitude of the sun
    vector times the area returned. *)
Theorem flux_at_most_irradiance_on_area (mesh : list string) (lat lon : R)
  (timezone year month day hour : Z) (minute z_rotate : R)
  (flux area : R) (ele_count neg_count : Z) :
  car_solar_flux mesh lat lon timezone year month day hour minute z_rotate
  = Ok (flux, area, ele_count, neg_count) ->
  0 <= irr_of lat lon timezone year month day hour minute ->
  flux <= eff * irr_of lat lon timezone year month day hour minute
          * norm (sun_of lat lon timezone year month day hour minute z_rotate)
          * area.
Proof.
  intros Hres Hirr.
  destruct (car_solar_flux_inv _ _ _ _ _ _ _ _ _ _ Hres) as [st [ns [Hl Hg]]].
  destruct (load_mesh_inv _ Hl) as [_ [Hhd _]].
  destruct (geometry_ok _ _ Hhd Hg) as [_ [Ha _]].
  rewrite (car_solar_flux_ok mesh lat lon timezone year month day hour minute
             z_rotate Hl Hg) in Hres.
  inversion Hres; subst. clear Hres.
  set (sun := sun_of lat lon timezone year month day hour minute z_rotate).
  set (irr := irr_of lat lon timezone year month day hour minute) in *.
  clear Hg Hl Hhd. induction ns as [|n ns IH]; simpl; [lra|].
  pose proof (clamped_contribution_le sun n Hirr). lra.
Qed.

End BoundMore.

Local Close Scope R_scope.

(** * Further properties of the sun vector *)

Local Open Scope R_scope.

Lemma sin_deg_period (x : R) : sin (deg2rad (x + 360)) = sin (deg2rad x).
Proof.
  rewrite deg2rad_plus, deg2rad_360, sin_plus, sin_2PI, cos_2PI. ring.
Qed.

Lemma cos_deg_period (x : R) : cos (deg2rad (x + 360)) = cos (deg2rad x).
Proof.
  rewrite deg2rad_plus, deg2rad_360, cos_plus, sin_2PI, cos_2PI. ring.
Qed.

(** X13. The sun vector takes each of its four angles modulo 360 degrees,
    and its third component does not depend on the heading. *)
Theorem sun_vector_periodic (h_corr azimuth julian_day z_rotate : R) :
  sun_vector (h_corr + 360) azimuth julian_day z_rotate
  = sun_vector h_corr azimuth julian_day z_rotate
  /\ sun_vector h_corr (azimuth + 360) julian_day z_rotate
     = sun_vector h_corr azimuth julian_day z_rotate
  /\ sun_vector h_corr azimuth (julian_day + 360) z_rotate
     = sun_vector h_corr azimuth julian_day z_rotate
  /\ sun_vector h_corr azimuth julian_day (z_rotate + 360)
     = sun_vector h_corr azimuth julian_day z_rotate
  /\ vz (sun_vector h_corr azimuth julian_day z_rotate)
     = sin (deg2rad julian_day).
Proof.
  unfold sun_vector.
  repeat split; rewrite ?sin_deg_period, ?cos_deg_period; reflexivity.
Qed.

(** X14. The sun vector is the raw vector turned by the heading exactly
    when sin(heading) = 0 or raw.x*(1 - cos(heading)) + raw.y*sin(heading)
    = 0; its second component differs from the turned one by
    -sin(heading) times that quantity. *)
Theorem sun_vector_is_a_turn_iff (h_corr azimuth julian_day z_rotate : R) :
  let raw_x := sin (deg2rad h_corr) in
  let raw_y := cos (deg2rad azimuth) in
  let c := cos (deg2rad z_rotate) in
  let s := sin (deg2rad z_rotate) in
  vy (sun_vector h_corr azimuth julian_day z_rotate)
  - rotated_y h_corr azimuth z_rotate
  = - s * (raw_x * (1 - c) + raw_y * s)
  /\ (sun_vector h_corr azimuth julian_day z_rotate
      = rotate_z z_rotate (sun_vector h_corr azimuth julian_day 0)
      <-> s = 0 \/ raw_x * (1 - c) + raw_y * s = 0).
Proof.
  cbv zeta. rewrite sun_vector_no_heading.
  unfold sun_vector, rotate_z, rotated_y, vx, vy, vz. cbn [fst snd].
  set (x := sin (deg2rad h_corr)). set (y := cos (deg2rad azimuth)).
  set (c := cos (deg2rad z_rotate)). set (s := sin (deg2rad z_rotate)).
  split; [ring|]. split.
  - intros E. injection E as E.
    assert (P : s * (x * (1 - c) + y * s) = 0) by lra.
    destruct (Rmult_integral _ _ P); auto.
  - intros H. apply vec3_ext; try reflexivity.
    assert (P : s * (x * (1 - c) + y * s) = 0).
    { destruct H as [-> | ->]; ring. }
    lra.
Qed.

(** * Further properties of one normal *)

Lemma cross_cyclic (p0 p1 p2 : vec3) :
  cross (subtract p2 p1) (subtract p0 p1)
  = cross (subtract p1 p0) (subtract p2 p0).
Proof.
  destruct p0 as [[x0 y0] z0], p1 as [[x1 y1] z1], p2 as [[x2 y2] z2].
  unfold cross, subtract, vx, vy, vz. simpl. apply vec3_ext; ring.
Qed.

Lemma cross_reverse (p0 p1 p2 : vec3) :
  cross (subtract p2 p0) (subtract p1 p0)
  = multiply (cross (subtract p1 p0) (subtract p2 p0)) (-1).
Proof.
  destruct p0 as [[x0 y0] z0], p1 as [[x1 y1] z1], p2 as [[x2 y2] z2].
  unfold multiply, cross, subtract, vx, vy, vz. simpl. apply vec3_ext; ring.
Qed.

Lemma multiply_neg_twice (v : vec3) : multiply (multiply v (-1)) (-1) = v.
Proof.
  destruct v as [[a b] c]. unfold multiply, vx, vy, vz. simpl.
  apply vec3_ext; ring.
Qed.

Lemma vz_multiply_neg (v : vec3) : vz (multiply v (-1)) = - vz v.
Proof.
  destruct v as [[a b] c]. unfold multiply, vx, vy, vz. simpl. ring.
Qed.

(** X15. The order of the corners of a triangle, over the reals.  Starting
    the same turn at another corner gives the same normal.  Turning the
    other way gives the same normal too when the cross product of the edges
    has a third component other than 0; when that component is 0 nothing is
    flipped and the two orders give opposite normals. *)
Theorem normal_and_corner_order (nodes : list (entry NodeVector))
  (x shifted reversed : ElementVector) (n0 n1 n2 : Z) (p0 p1 p2 : vec3) :
  ele_vec x = [n0; n1; n2] ->
  ele_vec shifted = [n1; n2; n0] ->
  ele_vec reversed = [n0; n2; n1] ->
  position nodes n0 = Ok p0 ->
  position nodes n1 = Ok p1 ->
  position nodes n2 = Ok p2 ->
  let raw := cross (subtract p1 p0) (subtract p2 p0) in
  element_normal nodes (Obj shifted) = element_normal nodes (Obj x)
  /\ (vz raw <> 0 ->
      element_normal nodes (Obj reversed) = element_normal nodes (Obj x))
  /\ (vz raw = 0 ->
      element_normal nodes (Obj x) = Ok raw
      /\ element_normal nodes (Obj reversed) = Ok (multiply raw (-1))).
Proof.
  intros Hx Hs Hr H0 H1 H2 raw.
  rewrite (element_normal_corners _ _ Hx H0 H1 H2).
  rewrite (element_normal_corners _ _ Hs H1 H2 H0).
  rewrite (element_normal_corners _ _ Hr H0 H2 H1).
  rewrite (cross_cyclic p0 p1 p2), (cross_reverse p0 p1 p2). fold raw.
  split; [reflexivity|]. split.
  - intros Hz. f_equal. unfold canonical. rewrite vz_multiply_neg.
    destruct (Rlt_dec (- vz raw) 0) as [A|A];
      destruct (Rlt_dec (vz raw) 0) as [B|B]; try lra.
    + apply multiply_neg_twice.
    + reflexivity.
  - intros Hz. split; f_equal.
    + apply canonical_up. lra.
    + apply canonical_up. rewrite vz_multiply_neg. lra.
Qed.

Lemma subtract_translate (t p q : vec3) :
  subtract (translate t p) (translate t q) = subtract p q.
Proof.
  unfold subtract, translate, vx, vy, vz. simpl. apply vec3_ext; ring.
Qed.

(** X16. Moving the whole mesh changes no normal: a triangle whose corners
    are all moved by the same vector keeps its normal, hence its area and
    its contribution. *)
Theorem normal_ignores_translation (nodes moved : list (entry NodeVector))
  (x : ElementVector) (n0 n1 n2 : Z) (p0 p1 p2 t : vec3) :
  ele_vec x = [n0; n1; n2] ->
  position nodes n0 = Ok p0 ->
  position nodes n1 = Ok p1 ->
  position nodes n2 = Ok p2 ->
  position moved n0 = Ok (translate t p0) ->
  position moved n1 = Ok (translate t p1) ->
  position moved n2 = Ok (translate t p2) ->
  element_normal moved (Obj x) = element_normal nodes (Obj x).
Proof.
  intros Hx H0 H1 H2 M0 M1 M2.
  rewrite (element_normal_corners _ _ Hx H0 H1 H2).
  rewrite (element_normal_corners _ _ Hx M0 M1 M2).
  rewrite !subtract_translate. reflexivity.
Qed.

Lemma cross_scale (k : R) (p0 p1 p2 : vec3) :
  cross (subtract (scale k p1) (scale k p0))
    (subtract (scale k p2) (scale k p0))
  = multiply (cross (subtract p1 p0) (subtract p2 p0)) (k * k).
Proof.
  destruct p0 as [[x0 y0] z0], p1 as [[x1 y1] z1], p2 as [[x2 y2] z2].
  unfold multiply, cross, subtract, scale, vx, vy, vz. simpl.
  apply vec3_ext; ring.
Qed.

Lemma canonical_multiply_sq (v : vec3) (k : R) :
  canonical (multiply v (k * k)) = multiply (canonical v) (k * k).
Proof.
  destruct v as [[a b] c]. unfold canonical, multiply, vx, vy, vz. simpl.
  pose proof (Rle_0_sqr k) as Hk. unfold Rsqr in Hk.
  destruct (Rlt_dec (c * (k * k)) 0) as [A|A];
    destruct (Rlt_dec c 0) as [B|B]; simpl.
  - apply vec3_ext; ring.
  - exfalso. nra.
  - assert (E : k * k = 0) by nra. rewrite E. apply vec3_ext; ring.
  - reflexivity.
Qed.

Lemma area_of_multiply_sq (v : vec3) (k : R) :
  area_of (multiply v (k * k)) = k * k * area_of v.
Proof.
  destruct v as [[a b] c]. unfold area_of, norm, multiply, vx, vy, vz. simpl.
  pose proof (Rle_0_sqr k) as Hk. unfold Rsqr in Hk.
  replace (a * (k * k) * (a * (k * k)) + b * (k * k) * (b * (k * k))
           + c * (k * k) * (c * (k * k)))
    with ((k * k) * (k * k) * (a * a + b * b + c * c)) by ring.
  rewrite sqrt_mult by nra. rewrite sqrt_square by exact Hk. field.
Qed.

(** X17. Scaling the whole mesh by [k] multiplies every normal, and every
    triangle area, by [k*k]: a mesh given in metres instead of millimetres
    has its area divided by 10^6. *)
Theorem normal_and_area_scale (nodes scaled : list (entry NodeVector))
  (x : ElementVector) (n0 n1 n2 : Z) (p0 p1 p2 : vec3) (k : R) :
  ele_vec x = [n0; n1; n2] ->
  position nodes n0 = Ok p0 ->
  position nodes n1 = Ok p1 ->
  position nodes n2 = Ok p2 ->
  position scaled n0 = Ok (scale k p0) ->
  position scaled n1 = Ok (scale k p1) ->
  position scaled n2 = Ok (scale k p2) ->
  exists normal : vec3,
    element_normal nodes (Obj x) = Ok normal
    /\ element_normal scaled (Obj x) = Ok (multiply normal (k * k))
    /\ element_area (multiply normal (k * k)) = Ok (k * k * area_of normal).
Proof.
  intros Hx H0 H1 H2 S0 S1 S2.
  exists (canonical (cross (subtract p1 p0) (subtract p2 p0))).
  rewrite (element_normal_corners _ _ Hx H0 H1 H2).
  rewrite (element_normal_corners _ _ Hx S0 S1 S2).
  rewrite (cross_scale k p0 p1 p2), canonical_multiply_sq.
  repeat split. rewrite element_area_ok, area_of_multiply_sq. reflexivity.
Qed.

Local Close Scope R_scope.

(** * Further properties of the corner indexes *)

(** The normal of a triangle in terms of its three corner indexes, in the
    order in which lines 145-146 look the corners up. *)
Lemma element_normal_lookups (nodes : list (entry NodeVector))
  (x : ElementVector) (n0 n1 n2 : Z) :
  ele_vec x = [n0; n1; n2] ->
  element_normal nodes (Obj x)
  = (p1 <- position nodes n1 ;;
     p0 <- position nodes n0 ;;
     p2 <- position nodes n2 ;;
     p0' <- position nodes n0 ;;
     Ok (canonical (cross (subtract p1 p0) (subtract p2 p0')))).
Proof.
  intros Hv. unfold element_normal. simpl. rewrite Hv. reflexivity.
Qed.

Lemma position_in_range (nodes : list (entry NodeVector)) (n : Z) :
  (0 <= n < np_size nodes)%Z ->
  (exists p, position nodes n = Ok p) \/ position nodes n = Raise AttributeError.
Proof.
  intros Hn. unfold position, getitem, np_size in *.
  destruct (Z.ltb_spec n 0) as [H|H]; [lia|].
  destruct (Z.ltb_spec n 0) as [H'|H']; [lia|].
  destruct (nth_error nodes (Z.to_nat n)) as [[|a]|] eqn:E; simpl.
  - right. reflexivity.
  - left. exists (node_vec a). reflexivity.
  - apply nth_error_None in E. lia.
Qed.

(** X18. The index 0 names no node.  In a node table headed by the
    placeholder, a triangle whose corner indexes all lie between 0 and the
    last position and one of which is 0 stops the normal loop with
    [AttributeError]. *)
Theorem corner_zero_raises (nodes : list (entry NodeVector))
  (x : ElementVector) (n0 n1 n2 : Z) :
  ele_vec x = [n0; n1; n2] ->
  nodes <> [] ->
  placeholder_first nodes ->
  (0 <= n0 < np_size nodes)%Z ->
  (0 <= n1 < np_size nodes)%Z ->
  (0 <= n2 < np_size nodes)%Z ->
  n0 = 0%Z \/ n1 = 0%Z \/ n2 = 0%Z ->
  element_normal nodes (Obj x) = Raise AttributeError.
Proof.
  intros Hv Hne Hhd R0 R1 R2 Hz.
  assert (Z0 : position nodes 0 = Raise AttributeError).
  { destruct nodes as [|[|a] l]; [contradiction | reflexivity | destruct Hhd]. }
  rewrite (element_normal_lookups nodes x Hv).
  destruct (position_in_range nodes R1) as [[p1 P1] | P1];
    rewrite P1; simpl; [|reflexivity].
  destruct (position_in_range nodes R0) as [[p0 P0] | P0];
    rewrite P0; simpl; [|reflexivity].
  destruct (position_in_range nodes R2) as [[p2 P2] | P2];
    rewrite P2; simpl; [|reflexivity].
  destruct Hz as [-> | [-> | ->]]; congruence.
Qed.

Lemma getitem_wrap {A : Type} (l : list A) (i : Z) :
  (- np_size l <= i)%Z -> getitem l i = getitem l (wrap (np_size l) i).
Proof.
  intros H. unfold getitem. cbv zeta.
  replace (if (wrap (np_size l) i <? 0)%Z
           then (np_size l + wrap (np_size l) i)%Z
           else wrap (np_size l) i)
    with (if (i <? 0)%Z then (np_size l + i)%Z else i); [reflexivity|].
  unfold wrap. destruct (Z.ltb_spec i 0) as [Hi|Hi].
  - destruct (Z.ltb_spec (np_size l + i) 0) as [Hj|Hj]; [lia | reflexivity].
  - destruct (Z.ltb_spec i 0) as [Hj|Hj]; [lia | reflexivity].
Qed.

(** X19. A negative corner index counts from the end of the node table: as
    long as it does not reach before the first slot, the corner [-k] is
    the corner at [size - k], so a triangle may name the last node as -1.
    The normal, or the exception, is that of the triangle with the indexes
    so replaced. *)
Theorem negative_corner_counts_from_the_end
  (nodes : list (entry NodeVector)) (x y : ElementVector) (n0 n1 n2 : Z) :
  ele_vec x = [n0; n1; n2] ->
  ele_vec y = [wrap (np_size nodes) n0; wrap (np_size nodes) n1;
               wrap (np_size nodes) n2] ->
  (- np_size nodes <= n0)%Z ->
  (- np_size nodes <= n1)%Z ->
  (- np_size nodes <= n2)%Z ->
  element_normal nodes (Obj x) = element_normal nodes (Obj y).
Proof.
  intros Hx Hy R0 R1 R2.
  rewrite (element_normal_lookups nodes x Hx).
  rewrite (element_normal_lookups nodes y Hy).
  unfold position.
  rewrite <- (getitem_wrap nodes R0), <- (getitem_wrap nodes R1),
    <- (getitem_wrap nodes R2).
  reflexivity.
Qed.

(** * Further properties: what the loops read of the tables *)

Lemma getitem_map {A B : Type} (f : A -> B) (l : list A) (i : Z) :
  getitem (map f l) i
  = match getitem l i with
    | Ok a => Ok (f a)
    | Raise e => Raise e
    end.
Proof.
  unfold getitem, np_size. rewrite length_map.
  destruct ((if (i <? 0)%Z then (Z.of_nat (List.length l) + i)%Z else i) <? 0)%Z;
    [reflexivity|].
  rewrite nth_error_map.
  destruct (nth_error l _); reflexivity.
Qed.

Lemma position_coords (nodes : list (entry NodeVector)) (n : Z) :
  position nodes n
  = match getitem (map coords_of nodes) n with
    | Ok (Some p) => Ok p
    | Ok None => Raise AttributeError
    | Raise e => Raise e
    end.
Proof.
  unfold position. rewrite getitem_map.
  destruct (getitem nodes n) as [[|a]|e]; reflexivity.
Qed.

Lemma element_normal_reads (nodes nodes' : list (entry NodeVector))
  (e e' : entry ElementVector) :
  map coords_of nodes = map coords_of nodes' ->
  corners_of e = corners_of e' ->
  element_normal nodes e = element_normal nodes' e'.
Proof.
  intros Hn He.
  assert (P : forall n, position nodes n = position nodes' n).
  { intros n. rewrite !position_coords, Hn. reflexivity. }
  destruct e as [|x], e' as [|x']; simpl in He; try discriminate He.
  - reflexivity.
  - injection He as He. unfold element_normal. simpl. rewrite He.
    destruct (getitem (ele_vec x') 0); simpl; [|reflexivity].
    destruct (getitem (ele_vec x') 1); simpl; [|reflexivity].
    destruct (getitem (ele_vec x') 2); simpl; [|reflexivity].
    rewrite !P. reflexivity.
Qed.

Lemma normals_of_reads (nodes nodes' : list (entry NodeVector))
  (es : list (entry ElementVector)) :
  map coords_of nodes = map coords_of nodes' ->
  forall es', map corners_of es = map corners_of es' ->
  normals_of nodes es = normals_of nodes' es'.
Proof.
  intros Hn. induction es as [|e es IH]; intros [|e' es'] H;
    simpl in H; try discriminate H.
  - reflexivity.
  - injection H as He Hes. simpl.
    rewrite (element_normal_reads nodes nodes' e e' Hn He), (IH _ Hes).
    reflexivity.
Qed.

(** X20. After the file is read, node numbers, element numbers and element
    types are never looked at: two pairs of tables with the same coordinates
    and the same corner indexes, slot by slot, give the same normals and
    area or the same exception, and the same flux loop. *)
Theorem loops_ignore_identifiers (nodes nodes' : list (entry NodeVector))
  (elements elements' : list (entry ElementVector)) :
  map coords_of nodes = map coords_of nodes' ->
  map corners_of elements = map corners_of elements' ->
  geometry nodes elements = geometry nodes' elements'
  /\ forall (sun_vec : vec3) (irr : R) (normal_vec : list vec3),
       flux_sum sun_vec irr normal_vec elements
       = flux_sum sun_vec irr normal_vec elements'.
Proof.
  intros Hn He. split.
  - destruct elements as [|e0 es], elements' as [|e0' es'];
      simpl in He; try discriminate He.
    + reflexivity.
    + injection He as _ Hes.
      rewrite !geometry_normals, (normals_of_reads nodes nodes' es Hn _ Hes).
      reflexivity.
  - intros sun_vec irr normal_vec. unfold flux_sum, np_size.
    rewrite <- (length_map corners_of elements), He, length_map.
    reflexivity.
Qed.

(** * Well-formed meshes give a result *)

Section TotalMore.

Context {collab : Collaborators}.

(** X21. On a well-formed file whose triangles name positions of node
    records, the retained triangles are the records of type 2 in file order
    and [car_solar_flux] returns a result, with the number of these
    records plus one for element count. *)
Theorem well_formed_mesh_gives_a_result (g : gmsh) (lat lon : R)
  (timezone year month day hour : Z) (minute z_rotate : R) :
  well_formed g = true ->
  corners_in_table g ->
  retained_triangles (gmsh_lines g) = triangles_of (element_records g)
  /\ exists (flux area : R) (neg_count : Z),
       car_solar_flux (gmsh_lines g) lat lon timezone year month day hour
         minute z_rotate
       = Ok (flux, area,
             (1 + Z.of_nat (List.length (triangles_of (element_records g))))%Z,
             neg_count).
Proof.
  intros Hwf Hc. split.
  - exact (retained_triangles_well_formed g Hwf).
  - apply car_solar_flux_well_formed; assumption.
Qed.

End TotalMore.

(** * The further properties at concrete inputs *)

Local Open Scope R_scope.

Lemma plate_dark :
  car_solar_flux (collab := sky_dark) plate 43 (-80) (-5) 2017 6 21 12 0 0
  = Ok (0, 1, 3%Z, 0%Z).
Proof.
  rewrite (car_solar_flux_ok (collab := sky_dark) plate 43 (-80) (-5) 2017 6
             21 12 0 0 (plate_load _ _ _ _) plate_geometry).
  change (irr_of (collab := sky_dark) 43 (-80) (-5) 2017 6 21 12 0) with 0.
  destruct (Rsum_clamped_zero_irradiance
              (sun_of (collab := sky_dark) 43 (-80) (-5) 2017 6 21 12 0 0)
              [(0, 0, 1000000); (0, 0, 1000000)]) as [E1 E2].
  rewrite E1, E2. reflexivity.
Qed.

Lemma plate_gmsh_corners : corners_in_table (collab := sky_up) plate_gmsh.
Proof.
  intros x Hx n Hn. simpl in Hx.
  destruct Hx as [<- | [<- | []]]; simpl in Hn;
    destruct Hn as [<- | [<- | [<- | []]]]; simpl; lia.
Qed.

(** X1 on the plate. *)
Lemma loaded_tables_shape_plate :
  flag (node_read plate_state) /\ flag (element_read plate_state)
  /\ placeholder_first (node_vector plate_state)
  /\ placeholder_first (element_vector plate_state)
  /\ Forall triangle_shaped (retained_triangles (collab := sky_up) plate).
Proof.
  exact (loaded_tables_shape (collab := sky_up) plate (plate_load _ _ _ _)).
Defined.

(** X2 on the plate between a comment line and two more lines. *)
Lemma lines_outside_sections_are_ignored_plate :
  car_solar_flux (collab := sky_up)
    (["a square plate"]%string ++ plate ++ ["$Comments"; "end"]%string)
    43 (-80) (-5) 2017 6 21 12 0 0
  = car_solar_flux (collab := sky_up) plate 43 (-80) (-5) 2017 6 21 12 0 0.
Proof.
  apply (lines_outside_sections_are_ignored (collab := sky_up)); try reflexivity.
  intros st H.
  assert (E : Ok st = Ok plate_state)
    by (rewrite <- H; exact (plate_load 30 90 90 1000)).
  injection E as ->. split; reflexivity.
Defined.

(** X3 on the plate, with count lines that are no numbers. *)
Lemma count_lines_are_not_read_plate :
  car_solar_flux (collab := sky_up)
    (gmsh_lines (with_counts plate_gmsh "many" "a few")) 43 (-80) (-5) 2017 6
    21 12 0 0
  = car_solar_flux (collab := sky_up) (gmsh_lines plate_gmsh) 43 (-80) (-5)
      2017 6 21 12 0 0.
Proof.
  apply (count_lines_are_not_read (collab := sky_up)); reflexivity.
Defined.

(** X4 on the plate: the corner index 2 is the second node record. *)
Lemma corner_index_is_record_position_plate :
  exists st,
    load_mesh (collab := sky_up) (gmsh_lines plate_gmsh) = Ok st
    /\ position (node_vector st) 2 = Ok (1000, 0, 0).
Proof.
  exact (corner_index_is_record_position (collab := sky_up) plate_gmsh 1
           (x := mkNode 2 (1000, 0, 0)) eq_refl eq_refl).
Defined.

(** X5 on a file with a node section only. *)
Lemma mesh_without_element_section_nodes_only :
  car_solar_flux (collab := sky_up) nodes_only 43 (-80) (-5) 2017 6 21 12 0 0
  = Ok (0, 0, 0%Z, 0%Z).
Proof.
  exact (mesh_without_element_section (collab := sky_up) nodes_only
           (st := nodes_only_state) 43 (-80) (-5) 2017 6 21 12 0 0 eq_refl
           eq_refl).
Defined.

(** X6 on the plate without its line [$EndNodes]. *)
Lemma missing_end_nodes_stops_at_element_count_plate :
  let mesh := "$Nodes"%string :: "4"%string :: node_records plate_gmsh
              ++ "$Elements"%string :: "4"%string
                 :: element_records plate_gmsh in
  car_solar_flux (collab := sky_up) mesh 43 (-80) (-5) 2017 6 21 12 0 0
  = Raise IndexError
  \/ car_solar_flux (collab := sky_up) mesh 43 (-80) (-5) 2017 6 21 12 0 0
     = Raise ValueError.
Proof.
  apply (@missing_end_nodes_stops_at_element_count sky_up []
           (node_records plate_gmsh) (element_records plate_gmsh) "$Nodes"
           "4" "$Elements" "4"); try reflexivity.
  intros [t0 [t1 [t2 [t3 [rest [E _]]]]]]. discriminate E.
Defined.

(** X7 on the plate followed by a second element section. *)
Lemma second_element_section_raises_plate :
  car_solar_flux (collab := sky_up)
    (plate ++ ["$Elements"; "1"; "5 2 2 0 1 1 2 3"]%string)
    43 (-80) (-5) 2017 6 21 12 0 0
  = Raise AttributeError.
Proof.
  apply (@second_element_section_raises sky_up plate
           ["5 2 2 0 1 1 2 3"]%string "$Elements" "1" plate_state
           43 (-80) (-5)%Z 2017%Z 6%Z 21%Z 12%Z 0 0 239 1 3%Z 0%Z plate_up
           (plate_load _ _ _ _));
    try reflexivity.
  discriminate.
Defined.

(** X8 on the first triangle of the plate. *)
Lemma normal_loop_adds_the_triangle_area_plate :
  geometry_body (node_vector plate_state) ([], 0)
    (Obj (mkElement 3 2 [1; 2; 3]%Z))
  = Ok ([] ++ [canonical (cross (subtract (1000, 0, 0) (0, 0, 0))
                            (subtract (0, 1000, 0) (0, 0, 0)))],
        0 + triangle_area (0, 0, 0) (1000, 0, 0) (0, 1000, 0) / 1000000).
Proof.
  exact (normal_loop_adds_the_triangle_area (node_vector plate_state)
           (mkElement 3 2 [1; 2; 3]%Z) (n0 := 1) (n1 := 2) (n2 := 3)
           ([], 0) eq_refl eq_refl eq_refl eq_refl).
Defined.

(** X9 on the plate under [sky_up]. *)
Lemma area_sums_every_retained_triangle_plate :
  exists (st : reader) (normal_vec : list vec3),
    load_mesh (collab := sky_up) plate = Ok st
    /\ Forall2 (fun x n => element_normal (node_vector st) (Obj x) = Ok n)
         (retained_triangles (collab := sky_up) plate) normal_vec
    /\ 1 = Rsum (map area_of normal_vec)
    /\ 0 <= 1.
Proof.
  exact (area_sums_every_retained_triangle (collab := sky_up) plate 43 (-80)
           (-5) 2017 6 21 12 0 0 plate_up).
Defined.

(** X10 on the plate under [sky_up], at two places, dates and times. *)
Lemma area_and_count_ignore_the_sky_plate : 1 = 1 /\ 3%Z = 3%Z.
Proof.
  exact (proj2 (area_and_count_ignore_the_sky (collab := sky_up) plate)
           43 (-80) (-5)%Z 2017%Z 6%Z 21%Z 12%Z 0 0
           10 20 1%Z 2020%Z 1%Z 2%Z 8%Z 30 0
           239 1 3%Z 0%Z 239 1 3%Z 0%Z
           plate_up (plate_up_anywhere 10 20 1 2020 1 2 8 30)).
Defined.

(** X11 on the plate under [sky_dark]. *)
Lemma no_irradiance_no_flux_plate : 0 = 0 /\ 0%Z = 0%Z.
Proof.
  apply (no_irradiance_no_flux (collab := sky_dark) plate 43 (-80) (-5) 2017
           6 21 12 0 0 plate_dark).
  reflexivity.
Defined.

(** X12 on the plate under [sky_up]. *)
Lemma flux_at_most_irradiance_on_area_plate :
  239 <= eff * irr_of (collab := sky_up) 43 (-80) (-5) 2017 6 21 12 0
         * norm (sun_of (collab := sky_up) 43 (-80) (-5) 2017 6 21 12 0 0)
         * 1.
Proof.
  apply (flux_at_most_irradiance_on_area (collab := sky_up) plate 43 (-80)
           (-5) 2017 6 21 12 0 0 plate_up).
  unfold irr_of, sky_up, fixed_sky. simpl. lra.
Defined.

(** X14 at the heading 0, where the sun vector is the turned raw vector. *)
Lemma sun_vector_is_a_turn_iff_no_heading :
  sun_vector 30 90 90 0 = rotate_z 0 (sun_vector 30 90 90 0).
Proof.
  apply (proj2 (sun_vector_is_a_turn_iff 30 90 90 0)).
  left. rewrite deg2rad_0. exact sin_0.
Defined.

(** X15 on the first triangle of the plate. *)
Lemma normal_and_corner_order_plate :
  let nodes := node_vector plate_state in
  let raw := cross (subtract (1000, 0, 0) (0, 0, 0))
               (subtract (0, 1000, 0) (0, 0, 0)) in
  element_normal nodes (Obj (mkElement 3 2 [2; 3; 1]%Z))
  = element_normal nodes (Obj (mkElement 3 2 [1; 2; 3]%Z))
  /\ (vz raw <> 0 ->
      element_normal nodes (Obj (mkElement 3 2 [1; 3; 2]%Z))
      = element_normal nodes (Obj (mkElement 3 2 [1; 2; 3]%Z)))
  /\ (vz raw = 0 ->
      element_normal nodes (Obj (mkElement 3 2 [1; 2; 3]%Z)) = Ok raw
      /\ element_normal nodes (Obj (mkElement 3 2 [1; 3; 2]%Z))
         = Ok (multiply raw (-1))).
Proof.
  exact (normal_and_corner_order (node_vector plate_state)
           (mkElement 3 2 [1; 2; 3]%Z) (mkElement 3 2 [2; 3; 1]%Z)
           (mkElement 3 2 [1; 3; 2]%Z) (n0 := 1) (n1 := 2) (n2 := 3)
           eq_refl eq_refl eq_refl eq_refl eq_refl eq_refl).
Defined.

(** X16 on the first triangle of the plate, moved by (10, 20, 30). *)
Lemma normal_ignores_translation_plate :
  element_normal moved_nodes (Obj (mkElement 3 2 [1; 2; 3]%Z))
  = element_normal (node_vector plate_state) (Obj (mkElement 3 2 [1; 2; 3]%Z)).
Proof.
  exact (normal_ignores_translation (node_vector plate_state) moved_nodes
           (mkElement 3 2 [1; 2; 3]%Z) (n0 := 1) (n1 := 2) (n2 := 3)
           (t := (10, 20, 30)) eq_refl eq_refl eq_refl eq_refl eq_refl eq_refl
           eq_refl).
Defined.

(** X17 on the first triangle of the plate, from millimetres to metres. *)
Lemma normal_and_area_scale_plate :
  exists normal : vec3,
    element_normal (node_vector plate_state) (Obj (mkElement 3 2 [1; 2; 3]%Z))
    = Ok normal
    /\ element_normal scaled_nodes (Obj (mkElement 3 2 [1; 2; 3]%Z))
       = Ok (multiply normal (1 / 1000 * (1 / 1000)))
    /\ element_area (multiply normal (1 / 1000 * (1 / 1000)))
       = Ok (1 / 1000 * (1 / 1000) * area_of normal).
Proof.
  exact (normal_and_area_scale (node_vector plate_state) scaled_nodes
           (mkElement 3 2 [1; 2; 3]%Z) (n0 := 1) (n1 := 2) (n2 := 3)
           (k := 1 / 1000) eq_refl eq_refl eq_refl eq_refl eq_refl eq_refl
           eq_refl).
Defined.

(** X18 on the plate, for a triangle that names the node 0. *)
Lemma corner_zero_raises_plate :
  element_normal (node_vector plate_state) (Obj (mkElement 5 2 [0; 1; 2]%Z))
  = Raise AttributeError.
Proof.
  apply (@corner_zero_raises (node_vector plate_state)
           (mkElement 5 2 [0; 1; 2]%Z) 0 1 2);
    try reflexivity; try (unfold np_size; simpl; lia).
  discriminate.
Defined.

(** X19 on the plate: the corner -1 is the fourth node. *)
Lemma negative_corner_counts_from_the_end_plate :
  element_normal (node_vector plate_state) (Obj (mkElement 5 2 [1; 2; -1]%Z))
  = element_normal (node_vector plate_state) (Obj (mkElement 5 2 [1; 2; 4]%Z)).
Proof.
  apply (@negative_corner_counts_from_the_end (node_vector plate_state)
           (mkElement 5 2 [1; 2; -1]%Z) (mkElement 5 2 [1; 2; 4]%Z)
           1 2 (-1));
    try reflexivity; unfold np_size; simpl; lia.
Defined.

(** X20 on the tables of [renumbered] and the same tables numbered anew. *)
Lemma loops_ignore_identifiers_renumbered :
  let nodes' := [Placeholder; Obj (mkNode 1 (0, 0, 0));
                 Obj (mkNode 2 (1000, 0, 0)); Obj (mkNode 3 (0, 1000, 0))] in
  let elements' := [Placeholder; Obj (mkElement 7 2 [1; 2; 3]%Z)] in
  geometry (node_vector renumbered_state) (element_vector renumbered_state)
  = geometry nodes' elements'
  /\ forall (sun_vec : vec3) (irr : R) (normal_vec : list vec3),
       flux_sum sun_vec irr normal_vec (element_vector renumbered_state)
       = flux_sum sun_vec irr normal_vec elements'.
Proof.
  exact (@loops_ignore_identifiers (node_vector renumbered_state) _
           (element_vector renumbered_state) _ eq_refl eq_refl).
Defined.

(** X21 on the plate. *)
Lemma well_formed_mesh_gives_a_result_plate :
  retained_triangles (collab := sky_up) (gmsh_lines plate_gmsh)
  = triangles_of (element_records plate_gmsh)
  /\ exists (flux area : R) (neg_count : Z),
       car_solar_flux (collab := sky_up) (gmsh_lines plate_gmsh) 43 (-80) (-5)
         2017 6 21 12 0 0
       = Ok (flux, area,
             (1 + Z.of_nat (List.length
                              (triangles_of (element_records plate_gmsh))))%Z,
             neg_count).
Proof.
  apply (well_formed_mesh_gives_a_result (collab := sky_up)
           (g := plate_gmsh)).
  - reflexivity.
  - exact plate_gmsh_corners.
Defined.

Local Close Scope R_scope.

(** * Further properties of the record fields *)

Section FieldsMore.

Context {collab : Collaborators}.

Lemma getitem_nth {A : Type} (l l' : list A) (k : nat) :
  nth_error l k = nth_error l' k ->
  getitem l (Z.of_nat k) = getitem l' (Z.of_nat k).
Proof.
  intros H. rewrite !getitem_nat, H. reflexivity.
Qed.

(** X22. A record is read at fixed fields only.  A node record is read at
    its fields 0 to 3; an element record at its fields 0 and 1, and 5 to 7:
    the fields 2 to 4, among them the number of tags, are never looked at,
    and the corners are the fields 5 to 7 however many tags the record
    announces.  Two lines that agree on these fields are read alike. *)
Theorem records_are_read_at_fixed_fields (line line' : string) :
  ((forall k, (k < 4)%nat ->
      nth_error (split line) k = nth_error (split line') k) ->
   read_node line = read_node line')
  /\ ((forall k, (k < 2)%nat \/ (5 <= k < 8)%nat ->
        nth_error (split line) k = nth_error (split line') k) ->
      read_element line = read_element line').
Proof.
  split; intros H.
  - pose proof (@getitem_nth _ _ _ _ (H 0%nat ltac:(lia))) as G0.
    pose proof (@getitem_nth _ _ _ _ (H 1%nat ltac:(lia))) as G1.
    pose proof (@getitem_nth _ _ _ _ (H 2%nat ltac:(lia))) as G2.
    pose proof (@getitem_nth _ _ _ _ (H 3%nat ltac:(lia))) as G3.
    change (Z.of_nat 0) with 0%Z in G0. change (Z.of_nat 1) with 1%Z in G1.
    change (Z.of_nat 2) with 2%Z in G2. change (Z.of_nat 3) with 3%Z in G3.
    unfold read_node. cbv zeta. rewrite G0, G1, G2, G3. reflexivity.
  - pose proof (@getitem_nth _ _ _ _ (H 0%nat ltac:(lia))) as G0.
    pose proof (@getitem_nth _ _ _ _ (H 1%nat ltac:(lia))) as G1.
    pose proof (@getitem_nth _ _ _ _ (H 5%nat ltac:(lia))) as G5.
    pose proof (@getitem_nth _ _ _ _ (H 6%nat ltac:(lia))) as G6.
    pose proof (@getitem_nth _ _ _ _ (H 7%nat ltac:(lia))) as G7.
    change (Z.of_nat 0) with 0%Z in G0. change (Z.of_nat 1) with 1%Z in G1.
    change (Z.of_nat 5) with 5%Z in G5. change (Z.of_nat 6) with 6%Z in G6.
    change (Z.of_nat 7) with 7%Z in G7.
    unfold read_element. cbv zeta. rewrite G0, G1, G5, G6, G7. reflexivity.
Qed.

End FieldsMore.

(** X22 on two node records that differ after the fourth field, and on two
    triangle records that differ in their tag fields. *)
Lemma records_are_read_at_fixed_fields_examples :
  read_node (collab := sky_up) "1 0 0 0"
  = read_node (collab := sky_up) "1 0 0 0 7 8"
  /\ read_element "3 2 2 0 1 1 2 3" = read_element "3 2 9 x y 1 2 3 4 5".
Proof.
  split.
  - apply (proj1 (@records_are_read_at_fixed_fields sky_up "1 0 0 0"
                    "1 0 0 0 7 8")).
    intros k Hk. destruct k as [|[|[|[|k]]]]; try reflexivity. lia.
  - apply (proj2 (@records_are_read_at_fixed_fields sky_up "3 2 2 0 1 1 2 3"
                    "3 2 9 x y 1 2 3 4 5")).
    intros k Hk.
    destruct k as [|[|[|[|[|[|[|[|k]]]]]]]]; try reflexivity; lia.
Defined.
